(** * easybuild.tools.run: shell command execution, Q&A automaton, result cache
      and output classifier

    A shallow embedding of [easybuild/tools/run.py].  Python functions become
    Rocq functions over an explicit [World] (current directory, the ordered
    trace of observable actions, the heap of mutable answer lists, the module
    globals).  A raised exception is the [Raise] outcome; the world reached at
    the point of the raise is kept.  The child process is described by a
    script of what each polling cycle observes, and by an oracle that says how
    it reacts to signals.  Calls to the logger are left out, except the
    warning of [check_log_for_errors]; message texts are shortened. *)

From Stdlib Require Import ZArith QArith String Ascii List Lia Floats.
From stdpp Require Import base option list strings gmap pretty.

Set Default Proof Using "Type".

(** ** Python strings *)

Module PyStr.

Definition nl : string := String "010"%char EmptyString.
Definition dquote : string := String "034"%char EmptyString.

(** [bool(s)] for a str. *)
Definition truthy (s : string) : bool :=
  match s with EmptyString => false | _ => true end.

Fixpoint rev_acc (s acc : string) : string :=
  match s with
  | EmptyString => acc
  | String c s' => rev_acc s' (String c acc)
  end.

Definition rev (s : string) : string := rev_acc s EmptyString.

(** [s.endswith(suffix)] *)
Definition endswith (s suffix : string) : bool :=
  String.prefix (rev suffix) (rev s).

(** [s.startswith(p)] *)
Definition startswith (s p : string) : bool := String.prefix p s.

(** [sep.join(l)] *)
Fixpoint join (sep : string) (l : list string) : string :=
  match l with
  | [] => EmptyString
  | [x] => x
  | x :: rest => x +:+ sep +:+ join sep rest
  end.

(** [s.split(c)] for a one-character separator: never returns the empty
    list; the empty string splits into one empty field. *)
Fixpoint split_char (c : ascii) (s : string) : list string :=
  match s with
  | EmptyString => [EmptyString]
  | String a s' =>
      if Ascii.eqb a c then EmptyString :: split_char c s'
      else match split_char c s' with
           | [] => [String a EmptyString]
           | f :: fs => String a f :: fs
           end
  end.

(** ASCII whitespace as [bytes.strip] and the regular expression class
    [\s] of a bytes pattern see it: space, \t, \n, \v, \f, \r. *)
Definition is_space (a : ascii) : bool :=
  let n := nat_of_ascii a in
  Nat.eqb n 32 || (Nat.leb 9 n && Nat.leb n 13).

(** [c.isspace()] for a character of a str with a code point below 256,
    which is what [str.strip] removes and what [\s] of a str pattern
    matches: ASCII whitespace, the separators 0x1c to 0x1f, the next-line
    character 0x85 and the no-break space 0xa0. *)
Definition isspace (a : ascii) : bool :=
  let n := nat_of_ascii a in
  is_space a || (Nat.leb 28 n && Nat.leb n 31) || Nat.eqb n 133
  || Nat.eqb n 160.

Fixpoint lstrip (s : string) : string :=
  match s with
  | String a s' => if isspace a then lstrip s' else s
  | EmptyString => EmptyString
  end.

(** [s.strip()] *)
Definition strip (s : string) : string := rev (lstrip (rev (lstrip s))).

Fixpoint all_space (s : string) : bool :=
  match s with
  | EmptyString => true
  | String a s' => is_space a && all_space s'
  end.

(** [os.path.basename(p)]: what follows the last slash. *)
Definition basename (p : string) : string :=
  List.last (split_char "/"%char p) EmptyString.

(** [''.join([c for c in s if keep c])] *)
Fixpoint filter_chars (keep : ascii -> bool) (s : string) : string :=
  match s with
  | EmptyString => EmptyString
  | String a s' =>
      if keep a then String a (filter_chars keep s') else filter_chars keep s'
  end.

(** [x or y] on optional strings ([None] and [''] are falsy). *)
Definition py_or (x y : option string) : option string :=
  match x with
  | Some s => if truthy s then Some s else y
  | None => y
  end.

(** truthiness of an optional string *)
Definition opt_truthy (x : option string) : bool :=
  match x with Some s => truthy s | None => false end.

End PyStr.

(** ** Exceptions and outcomes *)






(** [(frameinfo.filename, frameinfo.lineno, frameinfo.function)] *)
Definition CallerInfo : Type := string * Z * string.

(** [RunShellCmdResult = namedtuple(...)] *)
Record RunShellCmdResult := mkRunShellCmdResult {
  res_cmd : string;
  res_exit_code : Z;
  res_output : string;
  res_stderr : option string;
  res_work_dir : string;
  res_out_file : option string;
  res_err_file : option string;
  res_thread_id : option Z;
  res_task_id : option string;
}.

(** The attributes set by [RunShellCmdError.__init__]. *)
Record RunShellCmdError := mkRunShellCmdError {
  e_cmd : string;
  e_cmd_name : string;
  e_exit_code : Z;
  e_work_dir : string;
  e_output : string;
  e_out_file : option string;
  e_stderr : option string;
  e_err_file : option string;
  e_caller_info : CallerInfo;
  e_msg : string;
}.

Definition RunShellCmdError_init (cmd_result : RunShellCmdResult)
    (caller_info : CallerInfo) : RunShellCmdError :=
  let self_cmd := res_cmd cmd_result in
  let self_cmd_name :=
    PyStr.basename (List.hd EmptyString (PyStr.split_char " "%char self_cmd)) in
  {| e_cmd := self_cmd;
     e_cmd_name := self_cmd_name;
     e_exit_code := res_exit_code cmd_result;
     e_work_dir := res_work_dir cmd_result;
     e_output := res_output cmd_result;
     e_out_file := res_out_file cmd_result;
     e_stderr := res_stderr cmd_result;
     e_err_file := res_err_file cmd_result;
     e_caller_info := caller_info;
     e_msg := "Shell command '" +:+ self_cmd_name +:+ "' failed!" |}.

(** What a call can raise.  [EasyBuildError] is imported from
    [easybuild.tools.build_log]; the others are Python's own. *)
Inductive PyExc :=
| EasyBuildError (msg : string)
| ExcRunShellCmdError (e : RunShellCmdError)
| IndexError
| AttributeError
| FormatError        (* KeyError, ValueError or TypeError of the % operator *)
| ReError            (* re.error of re.compile *)
| UnicodeDecodeError
| OSError.


Inductive Outcome (A : Type) :=
| Return (a : A)
| Raise (e : PyExc).
Arguments Return {A} a.
Arguments Raise {A} e.

(** ** Commands *)

(** [cmd] is a str or a list of str; any other type is refused by
    [to_cmd_str] and is not represented. *)
Inductive Cmd :=
| CmdStr (s : string)
| CmdList (l : list string).

Definition CACHED_COMMANDS : list string := [
  "sysctl -n hw.cpufrequency_max";
  "sysctl -n hw.memsize";
  "sysctl -n hw.ncpu";
  "sysctl -n machdep.cpu.brand_string";
  "sysctl -n machdep.cpu.vendor";
  "type module";
  "type _module_raw";
  "ulimit -u"
]%string.

(** [cmd in CACHED_COMMANDS]: a list never equals a str. *)
Definition in_CACHED_COMMANDS (c : Cmd) : bool :=
  match c with
  | CmdStr s => bool_decide (s ∈ CACHED_COMMANDS)
  | CmdList _ => false
  end.

(** ** Result cache: [run_cmd_cache] *)

Section RunCmdCache.
(** The decorated function: [W] is the world it acts on, [Args] its
    arguments after [cmd], [R] the type of its results.  [kwargs_stdin] and
    [kwargs_inp] are [kwargs.get('stdin', None)] and
    [kwargs.get('inp', None)]. *)
Context {W Args R : Type}.
Variable func : Cmd -> Args -> W -> Outcome R * W.
Variable kwargs_stdin kwargs_inp : Args -> option string.

Definition CacheKey : Type := string * option string.

(** The second component of [key]. *)
Definition key_input (args : Args) : option string :=
  PyStr.py_or (kwargs_stdin args) (kwargs_inp args).

(** [cache_aware_func(cmd, *args, **kwargs)]; the dict [cache] of the
    closure is passed in and returned. *)
Definition cache_aware_func (cache : gmap CacheKey R) (c : Cmd) (args : Args)
    (w : W) : Outcome R * W * gmap CacheKey R :=
  let run_and_store :=
    let '(res, w') := func c args w in
    match res with
    | Return r =>
        if in_CACHED_COMMANDS c then
          match c with
          | CmdStr s => (Return r, w', <[(s, key_input args) := r]> cache)
          | CmdList _ => (Return r, w', cache)
          end
        else (Return r, w', cache)
    | Raise e => (Raise e, w', cache)
    end in
  match c with
  | CmdStr s =>
      match cache !! (s, key_input args) with
      | Some r => (Return r, w, cache)
      | None => run_and_store
      end
  | CmdList _ => run_and_store
  end.

(** [cache_aware_func.clear_cache = cache.clear] *)
Definition clear_cache (cache : gmap CacheKey R) : gmap CacheKey R := ∅.

(** [cache_aware_func.update_cache = cache.update] *)
Definition update_cache (cache new : gmap CacheKey R) : gmap CacheKey R :=
  new ∪ cache.
End RunCmdCache.

(** ** Regular expressions and the % operator

    Python's [re] module and [str % dict] are library code; the embedding
    takes them as an interface.  A pattern is kept as its text, as in the
    source, so that the source's concatenations on pattern texts stay
    visible. *)

(** bytes pattern, str pattern, str pattern compiled with [re.I] *)
Inductive ReKind := ReBytes | ReStr | ReStrI.

(** A match object: [groupdict()] (a group that did not take part maps to
    [None]) and [groups()]. *)
Record ReMatch := mkReMatch {
  groupdict : list (string * option string);
  groups : list (option string);
}.

Class PyLib := {
  (** [re.compile(pattern)] succeeds *)
  re_compile_ok : ReKind -> string -> bool;
  (** [re.compile(pattern).search(text)] *)
  re_search : ReKind -> string -> string -> option ReMatch;
  (** [template % mapping]; [None] when the operator raises *)
  str_format : string -> list (string * option string) -> option string;
  (** [b.decode()]; [None] for a UnicodeDecodeError *)
  bytes_decode : string -> option string;
}.

(** An instance of the interface for literal patterns: a pattern text without
    metacharacters, optionally followed by [[\s\n]*$].  On such patterns it
    agrees with [re.search]; a template without a percent sign is returned
    unchanged by [%]. *)
Module Literal.

Definition ws_tail : string := "[\s\n]*$".

(** [text] is [lit] followed by whitespace only *)
Definition at_end (lit text : string) : bool :=
  String.prefix lit text &&
  PyStr.all_space (String.substring (String.length lit)
                     (String.length text - String.length lit) text).

(** some suffix of [text] is [lit] followed by whitespace only *)
Fixpoint search_at_end (lit text : string) : bool :=
  at_end lit text ||
  match text with
  | EmptyString => false
  | String _ t => search_at_end lit t
  end.

(** [lit] occurs in [text] *)
Fixpoint search_anywhere (lit text : string) : bool :=
  String.prefix lit text ||
  match text with
  | EmptyString => false
  | String _ t => search_anywhere lit t
  end.

Definition lower (a : ascii) : ascii :=
  let n := nat_of_ascii a in
  if Nat.leb 65 n && Nat.leb n 90 then ascii_of_nat (n + 32) else a.

Fixpoint lowercase (s : string) : string :=
  match s with
  | EmptyString => EmptyString
  | String a s' => String (lower a) (lowercase s')
  end.

Definition search (k : ReKind) (pattern text : string) : option ReMatch :=
  let fold s := match k with ReStrI => lowercase s | _ => s end in
  let n := String.length pattern - String.length ws_tail in
  let found :=
    if PyStr.endswith pattern ws_tail
    then search_at_end (fold (String.substring 0 n pattern)) (fold text)
    else search_anywhere (fold pattern) (fold text) in
  if found then Some (mkReMatch [] []) else None.

Definition has_percent (s : string) : bool :=
  search_anywhere "%" s.

Definition format (template : string) (d : list (string * option string))
    : option string :=
  if has_percent template then None else Some template.

Definition lib : PyLib :=
  {| re_compile_ok := fun _ _ => true;
     re_search := search;
     str_format := format;
     bytes_decode := Some |}.

End Literal.

(** ** The world outside the interpreter *)

Inductive Signal := SIGTERM | SIGKILL.

(** What is done to a child through its [Popen] handle. *)
Inductive ProcAction :=
| Sent (s : Signal)            (* os.kill(pid, s) *)
| SentGroup (s : Signal)       (* os.killpg(pid, s) *)
| Waited (timeout : Q).        (* a wait of [timeout] seconds for the exit *)

(** Observable actions, in the order they happen. *)
Inductive Event :=
| EvMakedirs (path : string)
| EvMkdtemp (dir prefix : string)
| EvMkstemp (prefix suffix : string)
| EvWriteFile (path data : string)
| EvChdir (path : string)
| EvDryRunMsg (msg : string) (silent : bool)
| EvTraceMsg (msg : string)
| EvPrintMsg (msg : string)
| EvStdoutWrite (data : string)
| EvHook (pre : bool) (c : Cmd)
| EvSpawn (c : Cmd) (shell : bool) (executable : option string)
| EvStdin (data : string)
| EvProc (a : ProcAction)
| EvLogWarning (msg : string).          (* _log.warning(msg) *)

Definition is_spawn (e : Event) : bool :=
  match e with EvSpawn _ _ _ => true | _ => false end.

(** creation of, or a write to, something in the file system *)
Definition is_fs_mutation (e : Event) : bool :=
  match e with
  | EvMakedirs _ | EvMkdtemp _ _ | EvMkstemp _ _ | EvWriteFile _ _ => true
  | _ => false
  end.

Definition is_signal (e : Event) : bool :=
  match e with
  | EvProc (Sent _) | EvProc (SentGroup _) => true
  | _ => false
  end.

(** [config.IGNORE], [config.WARN], [config.ERROR] *)
Inductive Action := IGNORE | WARN | ERROR.

#[global] Instance Action_eq_dec : EqDecision Action.
Proof. solve_decision. Defined.

(** address of a Python list object *)
Definition loc := nat.

Record World := mkWorld {
  w_cwd : string;                        (* os.getcwd() *)
  w_trace : list Event;
  w_heap : gmap loc (list string);       (* the mutable answer lists *)
  w_strictness : Action;                 (* module global [strictness] *)
  w_errors_found_in_log : Z;             (* module global *)
}.

(** What a call reads from its surroundings and does not change. *)
Record Env := mkEnv {
  opt_extended_dry_run : bool;           (* build_option('extended_dry_run') *)
  opt_logtostdout : bool;
  opt_silent : bool;
  opt_trace : bool;
  gettempdir : string;                   (* tempfile.gettempdir() *)
  mkdtemp_path : string -> string -> string;   (* tempfile.mkdtemp(dir, prefix) *)
  mkstemp_path : string -> string -> string;   (* tempfile.mkstemp(suffix, prefix) *)
  which_bash : option string;            (* shutil.which('bash') *)
  get_thread_id : Z;
  chdir_ok : string -> bool;             (* os.chdir(path) succeeds *)
  open_ok : string -> bool;              (* open(path, 'w') succeeds *)
  pre_hook : Cmd -> option Cmd;          (* result of the pre-step hook *)
  decode_ignore : string -> string;      (* bytes.decode(encoding, 'ignore') *)
}.

(** ** State and exception monad *)

Definition M (A : Type) : Type := World -> Outcome A * World.

Definition ret {A} (a : A) : M A := fun w => (Return a, w).
Definition raise {A} (e : PyExc) : M A := fun w => (Raise e, w).
Definition bind {A B} (m : M A) (k : A -> M B) : M B :=
  fun w => match m w with
           | (Return a, w') => k a w'
           | (Raise e, w') => (Raise e, w')
           end.

Notation "x <- m ;; k" := (bind m (fun x => k))
  (at level 100, m at next level, right associativity).
Notation "m ;;; k" := (bind m (fun _ => k))
  (at level 100, right associativity).

(** a computation that does not touch the world *)
Definition lift {A} (o : Outcome A) : M A := fun w => (o, w).

Definition emit (e : Event) : M unit :=
  fun w => (Return tt,
            {| w_cwd := w_cwd w; w_trace := w_trace w ++ [e];
               w_heap := w_heap w; w_strictness := w_strictness w;
               w_errors_found_in_log := w_errors_found_in_log w |}).

Definition when (b : bool) (m : M unit) : M unit := if b then m else ret tt.

Definition getcwd : M string := fun w => (Return (w_cwd w), w).

Definition set_cwd (p : string) : M unit :=
  fun w => (Return tt,
            {| w_cwd := p; w_trace := w_trace w ++ [EvChdir p];
               w_heap := w_heap w; w_strictness := w_strictness w;
               w_errors_found_in_log := w_errors_found_in_log w |}).

(** [os.chdir(path)]: [false] stands for the OSError. *)
Definition chdir (env : Env) (p : string) : M bool :=
  if chdir_ok env p then (set_cwd p ;;; ret true) else ret false.

Definition heap_get (l : loc) : M (option (list string)) :=
  fun w => (Return (w_heap w !! l), w).

Definition heap_set (l : loc) (v : list string) : M unit :=
  fun w => (Return tt,
            {| w_cwd := w_cwd w; w_trace := w_trace w;
               w_heap := <[l := v]> (w_heap w); w_strictness := w_strictness w;
               w_errors_found_in_log := w_errors_found_in_log w |}).

Definition add_errors_found (n : Z) : M unit :=
  fun w => (Return tt,
            {| w_cwd := w_cwd w; w_trace := w_trace w;
               w_heap := w_heap w; w_strictness := w_strictness w;
               w_errors_found_in_log := (w_errors_found_in_log w + n)%Z |}).

Definition get_strictness : M Action := fun w => (Return (w_strictness w), w).

(** ** Process handles: [subprocess.Popen]

    [returncode] is what the handle knows; [history] what has been done to
    the child.  The oracle [Reaper] gives the exit status the operating
    system reports after a given history ([None]: still running). *)

Record Popen := mkPopen {
  returncode : option Z;
  history : list ProcAction;
}.

Definition Reaper : Type := list ProcAction -> option Z.

Definition act (p : Popen) (a : ProcAction) : M Popen :=
  emit (EvProc a) ;;;
  ret {| returncode := returncode p; history := history p ++ [a] |}.

(** [proc.poll()] *)
Definition poll (reap : Reaper) (p : Popen) : option Z * Popen :=
  match returncode p with
  | Some c => (Some c, p)
  | None => (reap (history p),
             {| returncode := reap (history p); history := history p |})
  end.

(** [proc.send_signal(sig)]: does nothing if the process completed. *)
Definition send_signal (reap : Reaper) (s : Signal) (p : Popen) : M Popen :=
  let '(rc, p') := poll reap p in
  match rc with
  | Some _ => ret p'
  | None => act p' (Sent s)
  end.

(** [proc.terminate()] and [proc.kill()] *)
Definition terminate (reap : Reaper) := send_signal reap SIGTERM.
Definition kill (reap : Reaper) := send_signal reap SIGKILL.

(** [proc.wait(timeout=t)]; [None] stands for [subprocess.TimeoutExpired]. *)
Definition wait (reap : Reaper) (t : Q) (p : Popen) : M (option Z * Popen) :=
  match returncode p with
  | Some c => ret (Some c, p)
  | None =>
      p' <- act p (Waited t) ;;
      let rc := reap (history p') in
      ret (rc, {| returncode := rc; history := history p' |})
  end.

Definition terminate_msg (t : Q) : string :=
  "Process did not terminate after the timeout, giving up".

(** [terminate_process(proc, timeout=20)] *)
Definition terminate_process (reap : Reaper) (proc : Popen) (timeout : Q)
    : M Popen :=
  proc <- terminate reap proc ;;
  waited <- wait reap timeout proc ;;
  (* except subprocess.TimeoutExpired: only a warning is logged *)
  proc <- kill reap (snd waited) ;;
  waited <- wait reap timeout proc ;;
  match fst waited with
  | None => raise (EasyBuildError (terminate_msg timeout))
  | Some _ => ret (snd waited)
  end.

Definition terminate_process_default_timeout : Q := 20.

(** ** The Q&A automaton of [run_shell_cmd]: [_answer_question] *)

(** The answers of a question pattern: a str, a list object (by address, as
    the list is rotated in place), or a value of another type. *)
Inductive Answers :=
| AnsStr (s : string)
| AnsList (l : loc)
| AnsOther.

(** [r'[\s\n]*$'], appended to every question and wait pattern *)
Definition ws_tail : string := "[\s\n]*$".

Definition unknown_answers_msg (question : string) : string :=
  "Unknown type of answers encountered for question (" +:+ question +:+ ")".

Definition answer_failed_msg : string :=
  "Failed to answer question raised by interactive command".

(** [answer = answers.pop(0); answers.append(answer)] *)
Definition pop0_append (l : loc) : M string :=
  answers <- heap_get l ;;
  match default [] answers with
  | answer :: rest => heap_set l (rest ++ [answer]) ;;; ret answer
  | [] => raise IndexError
  end.

(** [os.write(proc.stdin.fileno(), data)], the OSError turned into an
    EasyBuildError; [ok] says whether the write succeeds. *)
Definition os_write_stdin (ok : bool) (data : string) : M unit :=
  if ok then emit (EvStdin data) else raise (EasyBuildError answer_failed_msg).

Section QA.
Context `{PyLib}.

(** [{k: v.decode() for (k, v) in res.groupdict().items()}] *)
Fixpoint decode_groupdict (d : list (string * option string))
    : Outcome (list (string * option string)) :=
  match d with
  | [] => Return []
  | (k, None) :: _ => Raise AttributeError
  | (k, Some v) :: rest =>
      match bytes_decode v with
      | Some v' =>
          match decode_groupdict rest with
          | Return r => Return ((k, Some v') :: r)
          | Raise e => Raise e
          end
      | None => Raise UnicodeDecodeError
      end
  end.

(** [answer = answer % {...}; answer += '\n'] *)
Definition render (answer : string) (res : ReMatch) : Outcome string :=
  match decode_groupdict (groupdict res) with
  | Return d =>
      match str_format answer d with
      | Some a => Return (a +:+ PyStr.nl)
      | None => Raise FormatError
      end
  | Raise e => Raise e
  end.

(** The inner loop over [qa_wait_patterns] (the [else] of the loop over the
    questions). *)
Fixpoint wait_patterns_loop (stdout : string) (qa_wait_patterns : list string)
    : M bool :=
  match qa_wait_patterns with
  | [] => ret false
  | pattern :: rest =>
      let pattern := pattern +:+ ws_tail in
      if re_compile_ok ReBytes pattern then
        match re_search ReBytes pattern stdout with
        | Some _ => ret true
        | None => wait_patterns_loop stdout rest
        end
      else raise ReError
  end.

(** The current answer of a question that matched. *)
Definition take_answer (question : string) (answers : Answers) : M string :=
  match answers with
  | AnsList l => pop0_append l
  | AnsStr s => ret s
  | AnsOther => raise (EasyBuildError (unknown_answers_msg question))
  end.

(** What is done when [question] (with the tail appended) matched. *)
Definition reply (stdin_ok : bool) (question : string) (answers : Answers)
    (res : ReMatch) : M bool :=
  answer <- take_answer question answers ;;
  answer <- lift (render answer res) ;;
  os_write_stdin stdin_ok answer ;;;
  ret true.

(** [_answer_question(stdout, proc, qa_patterns, qa_wait_patterns)];
    [stdin_ok] says whether a write to [proc.stdin] succeeds. *)
Fixpoint _answer_question (stdout : string) (stdin_ok : bool)
    (qa_patterns : list (string * Answers)) (qa_wait_patterns : list string)
    : M bool :=
  match qa_patterns with
  | [] => wait_patterns_loop stdout qa_wait_patterns
  | (question, answers) :: rest =>
      let question := question +:+ ws_tail in
      if re_compile_ok ReBytes question then
        match re_search ReBytes question stdout with
        | Some res => reply stdin_ok question answers res
        | None => _answer_question stdout stdin_ok rest qa_wait_patterns
        end
      else raise ReError
  end.
End QA.

(** ** Paths and file names *)

(** [os.path.join(a, b)] *)
Definition path_join (a b : string) : string :=
  if PyStr.startswith b "/" then b
  else if negb (PyStr.truthy a) || PyStr.endswith a "/" then a +:+ b
  else a +:+ "/" +:+ b.

(** [c in string.ascii_letters + string.digits + "_-"] *)
Definition allowed_char (a : ascii) : bool :=
  let n := nat_of_ascii a in
  (Nat.leb 97 n && Nat.leb n 122) || (Nat.leb 65 n && Nat.leb n 90)
  || (Nat.leb 48 n && Nat.leb n 57) || Nat.eqb n 95 || Nat.eqb n 45.

(** [fileprefix_from_cmd(cmd)] with the default [allowed_chars] *)
Definition fileprefix_from_cmd (c : string) : string :=
  PyStr.filter_chars allowed_char c.

(** ** [run_shell_cmd] *)

(** The keyword arguments of [run_shell_cmd].  An absent or empty
    [qa_patterns] is the empty list; [env] only reaches [Popen]. *)
Record RunShellCmdArgs := mkRunShellCmdArgs {
  fail_on_error : bool;
  split_stderr : bool;
  stdin : option string;
  hidden : bool;
  in_dry_run : bool;
  verbose_dry_run : bool;
  work_dir : option string;
  use_bash : bool;
  output_file : bool;
  stream_output : option bool;
  asynchronous : bool;
  task_id : option string;
  with_hooks : bool;
  timeout : option Q;
  qa_patterns : list (string * Answers);
  qa_wait_patterns : list string;
  qa_timeout : Q;
}.

(** The defaults of the signature. *)
Definition run_shell_cmd_defaults : RunShellCmdArgs :=
  {| fail_on_error := true; split_stderr := false; stdin := None;
     hidden := false; in_dry_run := false; verbose_dry_run := false;
     work_dir := None; use_bash := true; output_file := true;
     stream_output := None; asynchronous := false; task_id := None;
     with_hooks := true; timeout := None; qa_patterns := [];
     qa_wait_patterns := []; qa_timeout := 100 |}.

(** One result of [read_pipe]: the data read (possibly none), or the
    TimeoutError. *)
Inductive ReadRes :=
| ReadData (data : string)
| ReadTimeout.

(** What one turn of the output loop of [run_shell_cmd] observes. *)
Record Cycle := mkCycle {
  elapsed : Q;                     (* time.time() - start at the loop head *)
  stdout_reads : list ReadRes;     (* successive results of read_pipe(proc.stdout) *)
  stderr_reads : list ReadRes;
  stdin_ok : bool;                 (* a write to the child's stdin succeeds *)
}.

(** The child process of one call of [run_shell_cmd]. *)
Record Child := mkChild {
  spawn_ok : bool;                 (* subprocess.Popen does not raise *)
  stderr_iter : list string;       (* what iterating over proc.stderr yields *)
  running_cycles : list Cycle;     (* turns after which poll() is None *)
  last_cycle : Cycle;              (* the turn after which poll() is the exit code *)
  final_stdout : string;           (* proc.stdout.read() after the exit *)
  final_stderr : string;
  comm_duration : Q;               (* time communicate() needs *)
  comm_stdout : string;
  comm_stderr : string;
  child_exit_code : Z;             (* proc.returncode after the exit *)
  reap : Reaper;                   (* reaction to terminate_process *)
}.

Definition to_cmd_str (c : Cmd) : string :=
  match c with
  | CmdStr s => PyStr.strip s
  | CmdList l => PyStr.join " " l
  end.

(** [bool(cmd)] *)
Definition cmd_truthy (c : Cmd) : bool :=
  match c with
  | CmdStr s => PyStr.truthy s
  | CmdList [] => false
  | CmdList _ => true
  end.

(** [bool(timeout)] *)
Definition timeout_truthy (t : option Q) : bool :=
  match t with
  | Some q => negb (Qeq_bool q 0)
  | None => false
  end.

(** [a > b] on durations *)
Definition Qgt_bool (a b : Q) : bool := negb (Qle_bool a b).

(** [timeout and time.time() - start > timeout] *)
Definition timeout_expired (t : option Q) (elapsed_now : Q) : bool :=
  match t with
  | Some q => negb (Qeq_bool q 0) && Qgt_bool elapsed_now q
  | None => false
  end.

(** [check_interval_secs = 0.1]: the binary64 number that Python reads
    [0.1] as. *)
Definition check_interval_secs : float := 0x1.999999999999ap-4%float.

(** [f > q] for a float [f] and a number [q] that is an int or a finite
    float; Python compares the two exactly. *)
Definition float_gt (f : float) (q : Q) : bool :=
  match Prim2SF f with
  | S754_zero _ => Qgt_bool 0 q
  | S754_infinity negative => negb negative
  | S754_nan => false
  | S754_finite negative m e =>
      Qgt_bool ((if negative then -1 else 1) * inject_Z (Zpos m) * Qpower 2 e)
        q
  end.

(** The [while more_stdout:] loop: the data read is appended until a read
    returns nothing or times out. *)
Fixpoint drain (reads : list ReadRes) (acc : string) : string :=
  match reads with
  | ReadData d :: rest =>
      if PyStr.truthy d then drain rest (acc +:+ d) else acc
  | ReadTimeout :: _ => acc
  | [] => acc
  end.

Definition timeout_msg (cmd_str : string) : string :=
  "Timeout during `" +:+ cmd_str +:+ "`".

Definition no_match_msg : string :=
  "No matching questions found for current command output, giving up!".

Definition dump_failed_msg : string :=
  "Failed to dump command output to temporary file".

(** [(filename, lineno, function)] of the frames of this module that are
    on the stack when [raise_run_shell_cmd_error] inspects it. *)
Definition frame_raise : CallerInfo :=
  ("easybuild/tools/run.py", 159%Z, "raise_run_shell_cmd_error").
Definition frame_run_shell_cmd : CallerInfo :=
  ("easybuild/tools/run.py", 572%Z, "run_shell_cmd").
Definition frame_cache_aware_func : CallerInfo :=
  ("easybuild/tools/run.py", 179%Z, "cache_aware_func").

(** [raise_run_shell_cmd_error(cmd_res)]; [frames] is
    [inspect.getouterframes(inspect.currentframe())]. *)
Definition raise_run_shell_cmd_error {A} (frames : list CallerInfo)
    (cmd_res : RunShellCmdResult) : M A :=
  match frames !! 3%nat with
  | Some caller_info =>
      raise (ExcRunShellCmdError (RunShellCmdError_init cmd_res caller_info))
  | None => raise IndexError
  end.

(** [_cmd_trace_msg]; the start time is left out of the text. *)
Definition _cmd_trace_msg (cmd_str wd : string) (inp : option string)
    (cmd_out_fp cmd_err_fp : option string) (tid : option Z)
    (interactive : bool) : M unit :=
  let interactive_txt := if interactive then "interactive " else EmptyString in
  let run_cmd_msg :=
    match tid with
    | Some t =>
        if Z.eqb t 0 then "running " +:+ interactive_txt +:+ "shell command:"
        else "running " +:+ interactive_txt +:+ "shell command (asynchronously):"
    | None => "running " +:+ interactive_txt +:+ "shell command:"
    end in
  let lines :=
    [run_cmd_msg; "	" +:+ cmd_str; "	[working dir: " +:+ wd +:+ "]"]
    ++ (if PyStr.opt_truthy inp
        then ["	[input: " +:+ default EmptyString inp +:+ "]"] else [])
    ++ (if PyStr.opt_truthy cmd_out_fp
        then ["	[output saved to " +:+ default EmptyString cmd_out_fp +:+ "]"]
        else [])
    ++ (if PyStr.opt_truthy cmd_err_fp
        then ["	[errors/warnings saved to "
              +:+ default EmptyString cmd_err_fp +:+ "]"]
        else []) in
  emit (EvTraceMsg (PyStr.join PyStr.nl lines)).

Section RunShellCmd.
Context `{PyLib}.
Variable env : Env.

(** One turn of the [while exit_code is None:] loop.  The state is
    [(stdout, stderr, time_no_match)]. *)
Definition output_cycle (args : RunShellCmdArgs) (child : Child)
    (c : Cmd) (proc : Popen) (cy : Cycle) (st : string * string * float)
    : M (string * string * float) :=
  let '(stdout, stderr_, time_no_match) := st in
  if timeout_expired (timeout args) (elapsed cy) then
    terminate_process (reap child) proc terminate_process_default_timeout ;;;
    raise (EasyBuildError (timeout_msg (to_cmd_str c)))
  else
    let stdout := drain (stdout_reads cy) stdout in
    let stderr_ :=
      if split_stderr args then drain (stderr_reads cy) stderr_ else stderr_ in
    time_no_match <-
      match qa_patterns args with
      | [] => ret time_no_match
      | _ =>
          matched <- _answer_question stdout (stdin_ok cy) (qa_patterns args)
                       (qa_wait_patterns args) ;;
          if (matched : bool) then ret 0%float
          else
            let time_no_match :=
              (time_no_match + check_interval_secs)%float in
            if float_gt time_no_match (qa_timeout args)
            then raise (EasyBuildError no_match_msg)
            else ret time_no_match
      end ;;
    ret (stdout, stderr_, time_no_match).

Fixpoint output_loop (args : RunShellCmdArgs) (child : Child) (c : Cmd)
    (proc : Popen) (cycles : list Cycle) (st : string * string * float)
    : M (string * string * float) :=
  match cycles with
  | [] => ret st
  | cy :: rest =>
      st' <- output_cycle args child c proc cy st ;;
      output_loop args child c proc rest st'
  end.

(** [run_shell_cmd(cmd, ...)], the function under the cache decorator.
    [outer_frames] is the call stack outside [run_shell_cmd]. *)
Definition run_shell_cmd (child : Child) (outer_frames : list CallerInfo)
    (c : Cmd) (args : RunShellCmdArgs) : M RunShellCmdResult :=
  wd <- match work_dir args with
        | Some d => ret d
        | None => getcwd
        end ;;
  let cmd_str := to_cmd_str c in
  let tid := if asynchronous args then Some (get_thread_id env) else None in
  let streaming :=
    match stream_output args with
    | None => opt_logtostdout env
    | Some b => b
    end in
  (* temporary output file(s) for command output *)
  fps <- (if output_file args then
            let toptmpdir := path_join (gettempdir env) "run-shell-cmd-output" in
            emit (EvMakedirs toptmpdir) ;;;
            let cmd_name :=
              fileprefix_from_cmd
                (PyStr.basename
                   (List.hd EmptyString (PyStr.split_char " "%char cmd_str))) in
            let prefix := cmd_name +:+ "-" in
            emit (EvMkdtemp toptmpdir prefix) ;;;
            let tmpdir := mkdtemp_path env toptmpdir prefix in
            ret (Some (path_join tmpdir "out.txt"),
                 if split_stderr args
                 then Some (path_join tmpdir "err.txt") else None)
          else ret (None, None)) ;;
  let cmd_out_fp := fst fps in
  let cmd_err_fp := snd fps in
  let interactive := match qa_patterns args with [] => false | _ => true end in
  let interactive_msg := if interactive then "interactive " else EmptyString in
  (* early exit in 'dry run' mode *)
  if negb (in_dry_run args) && opt_extended_dry_run env then
    when (negb (hidden args) || verbose_dry_run args)
      (emit (EvDryRunMsg
               ("  running " +:+ interactive_msg +:+ "shell command "
                +:+ PyStr.dquote +:+ cmd_str +:+ PyStr.dquote +:+ PyStr.nl
                +:+ "  (in " +:+ wd +:+ ")")
               (opt_silent env))) ;;;
    ret {| res_cmd := cmd_str; res_exit_code := 0; res_output := EmptyString;
           res_stderr := None; res_work_dir := wd;
           res_out_file := cmd_out_fp; res_err_file := cmd_err_fp;
           res_thread_id := tid; res_task_id := task_id args |}
  else
    when (negb (hidden args))
      (_cmd_trace_msg cmd_str wd (stdin args) cmd_out_fp cmd_err_fp tid
         interactive) ;;;
    when streaming
      (emit (EvPrintMsg ("(streaming) output for command '" +:+ cmd_str +:+ "':"))) ;;;
    let executable := if use_bash args then which_bash env else None in
    let shell := use_bash args in
    c <- (if with_hooks args then
            emit (EvHook true c) ;;;
            match pre_hook env c with
            | Some c' => if cmd_truthy c' then ret c' else ret c
            | None => ret c
            end
          else ret c) ;;
    let cmd_str := to_cmd_str c in
    (* subprocess.Popen *)
    (if spawn_ok child then emit (EvSpawn c shell executable)
     else raise OSError) ;;;
    let proc := {| returncode := None; history := [] |} in
    outs <-
      (if streaming || interactive then
         (* channels += proc.stderr iterates over the pipe *)
         (if interactive && split_stderr args then
            match stderr_iter child with
            | [] => ret tt
            | _ :: _ => raise AttributeError
            end
          else ret tt) ;;;
         when (PyStr.opt_truthy (stdin args))
           (emit (EvStdin (default EmptyString (stdin args)))) ;;;
         st <- output_loop args child c proc
                 (running_cycles child ++ [last_cycle child])
                 (EmptyString, EmptyString, 0%float) ;;
         let '(stdout, stderr_, _) := st in
         ret (stdout +:+ final_stdout child,
              if split_stderr args then stderr_ +:+ final_stderr child
              else stderr_)
       else
         when (PyStr.opt_truthy (stdin args))
           (emit (EvStdin (default EmptyString (stdin args)))) ;;;
         match timeout args with
         | Some t =>
             if Qgt_bool (comm_duration child) t then
               terminate_process (reap child) proc
                 terminate_process_default_timeout ;;;
               raise (EasyBuildError (timeout_msg (to_cmd_str c)))
             else ret (comm_stdout child, comm_stderr child)
         | None => ret (comm_stdout child, comm_stderr child)
         end) ;;
    let output := decode_ignore env (fst outs) in
    let stderr_ :=
      if split_stderr args then Some (decode_ignore env (snd outs)) else None in
    (* store command output to temporary file(s) *)
    match cmd_out_fp with
    | Some fp =>
        if open_ok env fp then
          emit (EvWriteFile fp output) ;;;
          match cmd_err_fp with
          | Some efp =>
              if open_ok env efp
              then emit (EvWriteFile efp (default EmptyString stderr_))
              else raise (EasyBuildError dump_failed_msg)
          | None => ret tt
          end
        else raise (EasyBuildError dump_failed_msg)
    | None => ret tt
    end ;;;
    let res :=
      {| res_cmd := cmd_str; res_exit_code := child_exit_code child;
         res_output := output; res_stderr := stderr_; res_work_dir := wd;
         res_out_file := cmd_out_fp; res_err_file := cmd_err_fp;
         res_thread_id := tid; res_task_id := task_id args |} in
    (if Z.eqb (res_exit_code res) 0 then ret tt
     else if fail_on_error args
          then raise_run_shell_cmd_error
                 (frame_raise :: frame_run_shell_cmd :: outer_frames) res
          else ret tt) ;;;
    when (with_hooks args) (emit (EvHook false c)) ;;;
    when (negb (hidden args))
      (emit (EvTraceMsg "command completed")) ;;;
    ret res.

(** [kwargs.get('stdin', None)]: [stdin] as the call passes it by keyword;
    [run_shell_cmd] has no [inp]. *)
Definition run_shell_cmd_cached (child : Child) (caller_frames : list CallerInfo)
    (cache : gmap CacheKey RunShellCmdResult) (c : Cmd) (args : RunShellCmdArgs)
    : World -> Outcome RunShellCmdResult * World
               * gmap CacheKey RunShellCmdResult :=
  cache_aware_func
    (run_shell_cmd child (frame_cache_aware_func :: caller_frames))
    stdin (fun _ => None) cache c args.
End RunShellCmd.

(** ** Output classifier *)








Section Classifier.
Context `{PyLib}.






(** The action of the first rule that matches [line], if any. *)
Definition first_rule (re_tuples : list (string * Action)) (line : string)
    : option (nat * (string * Action)) :=
  list_find (fun rule => is_Some (re_search ReStr rule.1 line)) re_tuples.

Definition classification (re_tuples : list (string * Action)) (line : string)
    : option Action :=
  (fun r => r.2.2) <$> first_rule re_tuples line.
End Classifier.

(** ** The older entry points: [run_cmd], [complete_cmd], [run_cmd_qa] *)

(** The [regexp] argument: a bool or a str. *)
Inductive RegexpArg :=
| RegexpBool (b : bool)
| RegexpStr (s : string).

Definition regexp_truthy (r : RegexpArg) : bool :=
  match r with
  | RegexpBool b => b
  | RegexpStr s => PyStr.truthy s
  end.

(** What [parse_cmd_output] returns: a bool under [simple], else the pair
    [(stdouterr, ec)]. *)
Inductive CmdOutput :=
| Simple (ok : bool)
| Full (stdouterr : string) (ec : Z).

Definition default_error_regexp : string :=
  "(?<![(,-]|\w)(?:error|segmentation fault|failed)(?![(,-]|\.?\w)".

(** [output.decode('ascii', 'ignore')] *)
Definition ascii_ignore (s : string) : string :=
  PyStr.filter_chars (fun a => Nat.ltb (nat_of_ascii a) 128) s.

(** Whitespace as [\s] of a str pattern sees it. *)
Definition is_space_str (a : ascii) : bool := PyStr.isspace a.

(** [re.compile(r'[\s\n]+').split(q)]; [cur] is the field being read,
    reversed, and [in_ws] says that the previous character was a separator. *)
Fixpoint regSplit_split_from (q : string) (cur : string) (in_ws : bool)
    : list string :=
  match q with
  | EmptyString => [PyStr.rev cur]
  | String a q' =>
      if is_space_str a then
        if in_ws then regSplit_split_from q' cur true
        else PyStr.rev cur :: regSplit_split_from q' EmptyString true
      else regSplit_split_from q' (String a cur) false
  end.

Definition regSplit_split (q : string) : list string :=
  regSplit_split_from q EmptyString false.

(** one of [+ ? ( ) [ ] * . \ $] *)
Definition is_special (a : ascii) : bool :=
  let n := nat_of_ascii a in
  Nat.eqb n 43 || Nat.eqb n 63 || Nat.eqb n 40 || Nat.eqb n 41
  || Nat.eqb n 91 || Nat.eqb n 93 || Nat.eqb n 42 || Nat.eqb n 46
  || Nat.eqb n 92 || Nat.eqb n 36.

(** [escape_special(string)] *)
Fixpoint escape_special (s : string) : string :=
  match s with
  | EmptyString => EmptyString
  | String a s' =>
      if is_special a then String "\"%char (String a (escape_special s'))
      else String a (escape_special s')
  end.

(** [for i in [idx for idx, a in enumerate(a_s) if not a.endswith('\n')]:
       a_s[i] += '\n'] *)
Definition newline_terminate (a_s : list string) : list string :=
  map (fun a => if PyStr.endswith a PyStr.nl then a else a +:+ PyStr.nl) a_s.

(** [d[k] = v] on a dict kept in insertion order *)
Fixpoint dict_set {V} (k : string) (v : V) (d : list (string * V))
    : list (string * V) :=
  match d with
  | [] => [(k, v)]
  | (k', v') :: rest =>
      if String.eqb k k' then (k, v) :: rest else (k', v') :: dict_set k v rest
  end.

(** The value of a [qa] or [std_qa] entry: a str, a list of str, or a value
    of another type. *)
Inductive AnswersArg :=
| ArgStr (s : string)
| ArgList (l : list string)
| ArgOther.

Module Legacy.

Record RunCmdArgs := mkRunCmdArgs {
  log_ok : bool;
  log_all : bool;
  simple : bool;
  inp : option string;
  regexp : RegexpArg;
  log_output : bool;
  path : option string;
  force_in_dry_run : bool;
  verbose : bool;
  shell : option bool;
  trace : bool;
  stream_output : option bool;
  asynchronous : bool;
  with_hooks : bool;
}.

Definition run_cmd_defaults : RunCmdArgs :=
  {| log_ok := true; log_all := false; simple := false; inp := None;
     regexp := RegexpBool true; log_output := false; path := None;
     force_in_dry_run := false; verbose := true; shell := None;
     trace := true; stream_output := None; asynchronous := false;
     with_hooks := true |}.

(** The child of [run_cmd]: what each read returns while [poll()] is
    [None], then what is left to read, and the exit code. *)
Record Child := mkChild {
  spawn_ok : bool;
  chunks : list string;
  final_output : string;
  exit_code : Z;
}.

Record RunCmdQaArgs := mkRunCmdQaArgs {
  qa : list (string * AnswersArg);          (* dict, in insertion order *)
  no_qa : list string;                      (* None is the empty list *)
  qa_log_ok : bool;
  qa_log_all : bool;
  qa_simple : bool;
  qa_regexp : RegexpArg;
  std_qa : list (string * AnswersArg);      (* None is the empty dict *)
  qa_path : option string;
  maxhits : Z;
  qa_trace : bool;
}.

(** The child of [run_cmd_qa]: per turn of the loop what
    [get_output_from_process(proc, asynchronous=True)] gives ([None]: it
    raised); then the last read ([None]: IOError) and the exit code.
    [killpg_ok] and [kill_ok] say whether the signals can be delivered. *)
Record QaChild := mkQaChild {
  qa_spawn_ok : bool;
  recvs : list (option string);
  qa_final_output : option string;
  qa_exit_code : Z;
  killpg_ok : bool;
  kill_ok : bool;
}.

(** What [run_cmd] returns: the parsed output, or the handle of a command
    started asynchronously (with the original working directory). *)
Inductive RunCmdResult :=
| Completed (o : CmdOutput)
| Started (c : Cmd) (owd : string) (cmd_log : option string).

Definition exit_msg (c : string) (ec : Z) (stdouterr : string) : string :=
  "cmd " +:+ PyStr.dquote +:+ c +:+ PyStr.dquote +:+ " exited with exit code "
  +:+ pretty ec +:+ " and output:" +:+ PyStr.nl +:+ stdouterr.

Definition found_in_output_msg (n : nat) (c : string) (lines : list string)
    : string :=
  "Found " +:+ pretty n +:+ (if Nat.eqb n 1 then " error" else " errors")
  +:+ " in output of " +:+ c +:+ ":" +:+ PyStr.nl +:+ "	"
  +:+ PyStr.join (PyStr.nl +:+ "	") lines.

Definition return_failed_msg (owd : string) : string :=
  "Failed to return to " +:+ owd +:+ " after executing command".

Definition max_nohits_msg (c : string) (n : Z) : string :=
  "run_cmd_qa: cmd " +:+ c +:+ " : Max nohits " +:+ pretty n +:+ " reached".

Definition not_self_matching_msg (q regQtxt : string) : string :=
  "runqanda: Question " +:+ q +:+ " converted in " +:+ regQtxt
  +:+ " does not match itself".

Definition log_open_failed_msg : string :=
  "Failed to open temporary log file for output of command".

Definition cmd_to_text (c : Cmd) : string :=
  match c with
  | CmdStr s => s
  | CmdList l => "[" +:+ PyStr.join ", " l +:+ "]"
  end.

Section WithLib.
Context `{PyLib}.
Variable env : Env.

(** [parse_log_for_error(txt, regExp, stdout=False)] *)
Definition parse_log_for_error (txt : string) (regExp : RegexpArg)
    : M (list (string * list (option string))) :=
  pattern <- match regExp with
             | RegexpBool true => ret default_error_regexp
             | RegexpStr s => ret s
             | RegexpBool false =>
                 raise (EasyBuildError "parse_log_for_error no valid regExp used")
             end ;;
  if re_compile_ok ReStrI pattern then
    let res :=
      omap (fun line =>
              match re_search ReStrI pattern line with
              | Some r => Some (line, groups r)
              | None => None
              end)
           (PyStr.split_char "010"%char txt) in
    add_errors_found (Z.of_nat (length res)) ;;;
    ret res
  else raise ReError.

(** [parse_cmd_output(cmd, stdouterr, ec, simple, log_all, log_ok, regexp)] *)
Definition parse_cmd_output (c : Cmd) (stdouterr : string) (ec : Z)
    (simple_ log_all_ log_ok_ : bool) (regexp_ : RegexpArg) : M CmdOutput :=
  strictness <- get_strictness ;;
  let check_ec :=
    match strictness with IGNORE => false | _ => true end in
  let fail_on_error_match :=
    match strictness with ERROR => true | _ => false end in
  let fail_on_error_match :=
    if regexp_truthy regexp_ then fail_on_error_match else false in
  (if negb (Z.eqb ec 0) && (log_all_ || log_ok_) then
     if check_ec
     then raise (EasyBuildError (exit_msg (cmd_to_text c) ec stdouterr))
     else ret tt
   else ret tt) ;;;
  (if fail_on_error_match || regexp_truthy regexp_ then
     res <- parse_log_for_error stdouterr regexp_ ;;
     match res with
     | [] => ret tt
     | _ =>
         if fail_on_error_match
         then raise (EasyBuildError
                       (found_in_output_msg (length res) (cmd_to_text c)
                          (map fst res)))
         else ret tt
     end
   else ret tt) ;;;
  if simple_ then
    if negb (Z.eqb ec 0) then ret (Simple (negb check_ec))
    else ret (Simple true)
  else ret (Full stdouterr ec).

(** The [while ec is None:] loop of [complete_cmd]. *)
Fixpoint complete_loop (cmd_log : option string) (streaming : bool)
    (reads : list string) (stdouterr : string) : M string :=
  match reads with
  | [] => ret stdouterr
  | data :: rest =>
      let output := ascii_ignore data in
      match cmd_log with
      | Some f => emit (EvWriteFile f output)
      | None => ret tt
      end ;;;
      when streaming (emit (EvStdoutWrite output)) ;;;
      complete_loop cmd_log streaming rest (stdouterr +:+ output)
  end.

(** [complete_cmd(proc, cmd, owd, start_time, cmd_log, ...)] *)
Definition complete_cmd (child : Child) (c : Cmd) (owd : string)
    (cmd_log : option string) (log_ok_ log_all_ simple_ : bool)
    (regexp_ : RegexpArg) (stream_output_ : option bool) (trace_ : bool)
    (output : string) (with_hook : bool) : M CmdOutput :=
  let streaming := default false stream_output_ in
  stdouterr <- complete_loop cmd_log streaming (chunks child) output ;;
  let output := ascii_ignore (final_output child) in
  match cmd_log with
  | Some f => emit (EvWriteFile f output)
  | None => ret tt
  end ;;;
  when streaming (emit (EvStdoutWrite output)) ;;;
  let stdouterr := stdouterr +:+ output in
  when with_hook (emit (EvHook false c)) ;;;
  when trace_ (emit (EvTraceMsg "command completed")) ;;;
  back <- chdir env owd ;;
  if (back : bool) then
    parse_cmd_output c stdouterr (exit_code child) simple_ log_all_ log_ok_
      regexp_
  else raise (EasyBuildError (return_failed_msg owd)).

(** The temporary log file of [run_cmd] and [run_cmd_qa]. *)
Definition open_cmd_log (wanted : bool) (prefix : string)
    : M (option string) :=
  if wanted then
    emit (EvMkstemp prefix ".log") ;;;
    let cmd_log_fn := mkstemp_path env ".log" prefix in
    if open_ok env cmd_log_fn then ret (Some cmd_log_fn)
    else raise (EasyBuildError log_open_failed_msg)
  else ret None.

(** The [try: if path: os.chdir(path) except OSError:] block; a failure
    is only logged. *)
Definition try_chdir (p : option string) : M unit :=
  if PyStr.opt_truthy p
  then (chdir env (default EmptyString p) ;;; ret tt)
  else ret tt.

(** [run_cmd(cmd, ...)], the function under the cache decorator *)
Definition run_cmd (child : Child) (c : Cmd) (args : RunCmdArgs)
    : M RunCmdResult :=
  cwd <- getcwd ;;
  let cmd_msg := to_cmd_str c in
  shell_ <- match shell args with
            | Some b => ret b
            | None =>
                match c with
                | CmdList _ =>
                    raise (EasyBuildError
                      "When passing cmd as a list then `shell` must be set explictely!")
                | CmdStr _ => ret true
                end
            end ;;
  cmd_log <- open_cmd_log (log_output args || (trace args && opt_trace env))
               "easybuild-run_cmd-" ;;
  let stream_output_ :=
    match stream_output args with
    | None => if opt_logtostdout env then Some true else None
    | Some b => Some b
    end in
  when (default false stream_output_)
    (emit (EvPrintMsg ("(streaming) output for command '" +:+ cmd_msg +:+ "':"))) ;;;
  when (trace args) (emit (EvTraceMsg ("running command: " +:+ cmd_msg))) ;;;
  if negb (force_in_dry_run args) && opt_extended_dry_run env then
    let p := match path args with Some p => p | None => cwd end in
    when (verbose args)
      (emit (EvDryRunMsg ("  running command " +:+ PyStr.dquote +:+ cmd_msg
                          +:+ PyStr.dquote) (opt_silent env)) ;;;
       emit (EvDryRunMsg ("  (in " +:+ p +:+ ")") (opt_silent env))) ;;;
    if simple args then ret (Completed (Simple true))
    else ret (Completed (Full EmptyString 0))
  else
    try_chdir (path args) ;;;
    match cmd_log with
    | Some f => emit (EvWriteFile f ("# output for command: " +:+ cmd_msg
                                     +:+ PyStr.nl +:+ PyStr.nl))
    | None => ret tt
    end ;;;
    let exec_cmd :=
      if shell_ then Some "/bin/bash"
      else match c with CmdList _ => None | CmdStr _ => Some "/bin/bash" end in
    let c :=
      if shell_ then c
      else match c with
           | CmdList l => CmdList ("/usr/bin/env" :: l)
           | CmdStr s => CmdStr ("/usr/bin/env " +:+ s)
           end in
    c <- (if with_hooks args then
            emit (EvHook true c) ;;;
            match pre_hook env c with
            | Some (CmdStr s) => ret (CmdStr s)
            | _ => ret c
            end
          else ret c) ;;
    (if spawn_ok child then emit (EvSpawn c shell_ exec_cmd)
     else raise (EasyBuildError "run_cmd init cmd failed")) ;;;
    when (PyStr.opt_truthy (inp args))
      (emit (EvStdin (default EmptyString (inp args)))) ;;;
    if asynchronous args then ret (Started c cwd cmd_log)
    else
      o <- complete_cmd child c cwd cmd_log (log_ok args) (log_all args)
             (simple args) (regexp args) stream_output_ (trace args)
             EmptyString (with_hooks args) ;;
      ret (Completed o).

(** [check_answers_list(answers)]: the list returned is a copy. *)
Definition check_answers_list (answers : AnswersArg) : M (list string) :=
  match answers with
  | ArgStr s => ret [s]
  | ArgList l => ret l
  | ArgOther =>
      raise (EasyBuildError "Invalid type for answer, no string or list")
  end.

(** [split = r'[\s\n]+'] *)
Definition split : string := "[\s\n]+".

(** [process_QA(q, a_s)]; the compiled pattern stays its text. *)
Definition process_QA (q : string) (a_s : list string)
    : M (list string * string) :=
  let splitq := map escape_special (regSplit_split q) in
  let regQtxt := PyStr.join split splitq +:+ "[\s\n]" +:+ "*$" in
  let a_s := newline_terminate a_s in
  if re_compile_ok ReStr regQtxt then
    match re_search ReStr regQtxt q with
    | Some _ => ret (a_s, regQtxt)
    | None => raise (EasyBuildError (not_self_matching_msg q regQtxt))
    end
  else raise ReError.

(** [for question, answers in qa.items(): ... new_qa[regQ] = answers] *)
Fixpoint build_new_qa (qa_ : list (string * AnswersArg))
    (new_qa : list (string * list string)) : M (list (string * list string)) :=
  match qa_ with
  | [] => ret new_qa
  | (question, answers) :: rest =>
      answers <- check_answers_list answers ;;
      r <- process_QA question answers ;;
      build_new_qa rest (dict_set (snd r) (fst r) new_qa)
  end.

(** [for question, answers in std_qa.items(): ...] *)
Fixpoint build_new_std_qa (std_qa_ : list (string * AnswersArg))
    (new_std_qa : list (string * list string))
    : M (list (string * list string)) :=
  match std_qa_ with
  | [] => ret new_std_qa
  | (question, answers) :: rest =>
      let regQ := question +:+ "[\s\n]*$" in
      if re_compile_ok ReStr regQ then
        answers <- check_answers_list answers ;;
        build_new_std_qa rest
          (dict_set regQ (newline_terminate answers) new_std_qa)
      else raise ReError
  end.

(** [new_no_qa = [re.compile(x + r"[\s\n]*$") for x in no_qa]] *)
Fixpoint build_new_no_qa (no_qa_ : list string) : M (list string) :=
  match no_qa_ with
  | [] => ret []
  | x :: rest =>
      let r := x +:+ "[\s\n]*$" in
      if re_compile_ok ReStr r then
        l <- build_new_no_qa rest ;; ret (r :: l)
      else raise ReError
  end.

(** One of the two loops over the questions of [run_cmd_qa]:
    [Some d] when a question was answered ([hit = True]), where [d] is
    the dict with the answers of that question cycled. *)
Fixpoint answer_loop (out_truthy : bool) (stdout_err : string)
    (d : list (string * list string))
    : M (option (list (string * list string))) :=
  match d with
  | [] => ret None
  | (question, answers) :: rest =>
      match re_search ReStr question stdout_err with
      | Some res =>
          if out_truthy then
            match answers with
            | [] => raise IndexError
            | a0 :: others =>
                match str_format a0 (groupdict res) with
                | Some fa =>
                    (* last_answer = answers.pop(0); answers.append(last_answer) *)
                    emit (EvStdin fa) ;;;
                    ret (Some ((question, others ++ [a0]) :: rest))
                | None => raise FormatError
                end
            end
          else
            r <- answer_loop out_truthy stdout_err rest ;;
            ret (cons (question, answers) <$> r)
      | None =>
          r <- answer_loop out_truthy stdout_err rest ;;
          ret (cons (question, answers) <$> r)
      end
  end.

(** [noqa]: some pattern of [new_no_qa] matches. *)
Definition noqa_found (new_no_qa : list string) (stdout_err : string) : bool :=
  existsb (fun r => bool_decide (is_Some (re_search ReStr r stdout_err)))
    new_no_qa.

Record QaState := mkQaState {
  stdout_err : string;
  old_len_out : Z;
  hit_count : Z;
  new_qa : list (string * list string);
  new_std_qa : list (string * list string);
}.

(** The explicit kill of the child when [hit_count > maxhits]; an OSError
    of [os.killpg] or [os.kill] is caught. *)
Definition kill_child (child : QaChild) : M unit :=
  if killpg_ok child then
    emit (EvProc (SentGroup SIGKILL)) ;;;
    when (kill_ok child) (emit (EvProc (Sent SIGKILL)))
  else ret tt.

(** One turn of the [while ec is None:] loop of [run_cmd_qa]. *)
Definition qa_cycle (child : QaChild) (c : Cmd) (cmd_log : option string)
    (new_no_qa : list string) (maxhits_ : Z) (recv : option string)
    (st : QaState) : M QaState :=
  let out := ascii_ignore <$> recv in
  match cmd_log, out with
  | Some f, Some o => emit (EvWriteFile f o)
  | _, _ => ret tt
  end ;;;
  let stdout_err_ := stdout_err st +:+ default EmptyString out in
  let out_truthy := PyStr.opt_truthy out in
  hit1 <- answer_loop out_truthy stdout_err_ (new_qa st) ;;
  st' <-
    match hit1 with
    | Some d =>
        ret {| stdout_err := stdout_err_; old_len_out := old_len_out st;
               hit_count := 0; new_qa := d; new_std_qa := new_std_qa st |}
    | None =>
        hit2 <- answer_loop out_truthy stdout_err_ (new_std_qa st) ;;
        match hit2 with
        | Some d =>
            ret {| stdout_err := stdout_err_; old_len_out := old_len_out st;
                   hit_count := 0; new_qa := new_qa st; new_std_qa := d |}
        | None =>
            let len := Z.of_nat (String.length stdout_err_) in
            if Z.ltb (old_len_out st) len then
              ret {| stdout_err := stdout_err_; old_len_out := len;
                     hit_count := hit_count st; new_qa := new_qa st;
                     new_std_qa := new_std_qa st |}
            else
              ret {| stdout_err := stdout_err_; old_len_out := old_len_out st;
                     hit_count :=
                       if noqa_found new_no_qa stdout_err_ then hit_count st
                       else (hit_count st + 1)%Z;
                     new_qa := new_qa st; new_std_qa := new_std_qa st |}
        end
    end ;;
  if Z.ltb maxhits_ (hit_count st') then
    kill_child child ;;;
    raise (EasyBuildError (max_nohits_msg (cmd_to_text c) maxhits_))
  else ret st'.

Fixpoint qa_loop (child : QaChild) (c : Cmd) (cmd_log : option string)
    (new_no_qa : list string) (maxhits_ : Z) (rs : list (option string))
    (st : QaState) : M QaState :=
  match rs with
  | [] => ret st
  | recv :: rest =>
      st' <- qa_cycle child c cmd_log new_no_qa maxhits_ recv st ;;
      qa_loop child c cmd_log new_no_qa maxhits_ rest st'
  end.

(** [run_cmd_qa(cmd, qa, ...)] *)
Definition run_cmd_qa (child : QaChild) (c : Cmd) (args : RunCmdQaArgs)
    : M CmdOutput :=
  cwd <- getcwd ;;
  match c with
  | CmdList (_ :: _ :: _) =>
      raise (EasyBuildError "The command passed must be a string!")
  | _ => ret tt
  end ;;;
  cmd_log <- open_cmd_log (qa_log_all args || (qa_trace args && opt_trace env))
               "easybuild-run_cmd_qa-" ;;
  (if qa_trace args then
     match c with
     | CmdStr s =>
         emit (EvTraceMsg ("running interactive command: " +:+ PyStr.strip s))
     | CmdList _ => raise AttributeError       (* a list has no strip() *)
     end
   else ret tt) ;;;
  if opt_extended_dry_run env then
    let p := match qa_path args with Some p => p | None => cwd end in
    emit (EvDryRunMsg ("  running interactive command " +:+ PyStr.dquote
                       +:+ cmd_to_text c +:+ PyStr.dquote) (opt_silent env)) ;;;
    emit (EvDryRunMsg ("  (in " +:+ p +:+ ")") (opt_silent env)) ;;;
    if qa_simple args then ret (Simple true) else ret (Full EmptyString 0)
  else
    try_chdir (qa_path args) ;;;
    new_qa_ <- build_new_qa (qa args) [] ;;
    new_std_qa_ <- build_new_std_qa (std_qa args) [] ;;
    new_no_qa <- build_new_no_qa (no_qa args) ;;
    emit (EvHook true c) ;;;
    let c := match pre_hook env c with
             | Some (CmdStr s) => CmdStr s
             | _ => c
             end in
    match cmd_log with
    | Some f => emit (EvWriteFile f ("# output for interactive command: "
                                     +:+ cmd_to_text c +:+ PyStr.nl +:+ PyStr.nl))
    | None => ret tt
    end ;;;
    (if qa_spawn_ok child then emit (EvSpawn c true (Some "/bin/bash"))
     else raise (EasyBuildError "run_cmd_qa init cmd failed")) ;;;
    st <- qa_loop child c cmd_log new_no_qa (maxhits args) (recvs child)
            {| stdout_err := EmptyString; old_len_out := -1; hit_count := 0;
               new_qa := new_qa_; new_std_qa := new_std_qa_ |} ;;
    (* Process stopped. Read all remaining data *)
    let out := ascii_ignore <$> qa_final_output child in
    let stdout_err_ := stdout_err st +:+ default EmptyString out in
    match cmd_log, out with
    | Some f, Some o => emit (EvWriteFile f o)
    | _, _ => ret tt
    end ;;;
    emit (EvHook false c) ;;;
    when (qa_trace args) (emit (EvTraceMsg "interactive command completed")) ;;;
    back <- chdir env cwd ;;
    if (back : bool) then
      parse_cmd_output c stdout_err_ (qa_exit_code child) (qa_simple args)
        (qa_log_all args) (qa_log_ok args) (qa_regexp args)
    else raise (EasyBuildError (return_failed_msg cwd)).
End WithLib.

End Legacy.

(** ** Reasoning about outcomes *)

(** [post m Q w]: running [m] from [w] ends in an outcome and a world that
    satisfy [Q]. *)
Definition post {A} (m : M A) (Q : Outcome A -> World -> Prop) (w : World)
    : Prop :=
  Q (m w).1 (m w).2.

(** [frames R E m]: from any world, [m] ends in a world related to it by
    [R], and whatever it raises satisfies [E]. *)
Definition frames {A} (R : World -> World -> Prop) (E : PyExc -> Prop)
    (m : M A) : Prop :=
  forall w, R w (m w).2 /\ forall e, (m w).1 = Raise e -> E e.

(** The relation that holds between any two worlds. *)
Definition anywhere : World -> World -> Prop := fun _ _ => True.


(** The second world has the working directory of the first. *)
Definition same_cwd (w w' : World) : Prop := w_cwd w' = w_cwd w.

(** Any exception. *)
Definition any_exc (e : PyExc) : Prop := True.

(** The command after the pre-step hook of [run_shell_cmd]. *)
Definition hooked_cmd (env : Env) (args : RunShellCmdArgs) (c : Cmd) : Cmd :=
  if with_hooks args then
    match pre_hook env c with
    | Some c' => if cmd_truthy c' then c' else c
    | None => c
    end
  else c.

(** [(cmd_out_fp, cmd_err_fp)] of [run_shell_cmd]. *)
Definition tmp_paths (env : Env) (args : RunShellCmdArgs) (c : Cmd)
    : option string * option string :=
  if output_file args then
    let tmpdir :=
      mkdtemp_path env (path_join (gettempdir env) "run-shell-cmd-output")
        (fileprefix_from_cmd
           (PyStr.basename
              (List.hd EmptyString (PyStr.split_char " "%char (to_cmd_str c))))
         +:+ "-") in
    (Some (path_join tmpdir "out.txt"),
     if split_stderr args then Some (path_join tmpdir "err.txt") else None)
  else (None, None).

(** The actions on the child found in a trace. *)
Definition proc_actions (t : list Event) : list ProcAction :=
  omap (fun e => match e with EvProc a => Some a | _ => None end) t.

(** What was written to the child's stdin, in order. *)
Definition stdin_writes (t : list Event) : list string :=
  omap (fun e => match e with EvStdin d => Some d | _ => None end) t.

(** The second world has seen the same actions on the child as the
    first. *)
Definition same_proc (w w' : World) : Prop :=
  proc_actions (w_trace w') = proc_actions (w_trace w).

(** The message of the stall error of [run_cmd_qa]. *)
Definition is_stall_msg (msg : string) : bool :=
  String.prefix "run_cmd_qa: cmd " msg.

(** An exception other than the stall error of [run_cmd_qa]. *)
Definition not_stall (e : PyExc) : Prop :=
  match e with
  | EasyBuildError msg => is_stall_msg msg = false
  | _ => True
  end.

(** What [run_cmd_qa] does to a child that stalls: SIGKILL to its process
    group, then to the process, as far as the signals can be delivered. *)
Definition kill_actions (child : Legacy.QaChild) : list ProcAction :=
  if Legacy.killpg_ok child then
    SentGroup SIGKILL :: (if Legacy.kill_ok child then [Sent SIGKILL] else [])
  else [].

(** The world with more events at the end of its trace. *)
Definition with_events (w : World) (evs : list Event) : World :=
  {| w_cwd := w_cwd w; w_trace := w_trace w ++ evs; w_heap := w_heap w;
     w_strictness := w_strictness w;
     w_errors_found_in_log := w_errors_found_in_log w |}.

(** The world with the list at [l] replaced. *)
Definition with_list (w : World) (l : loc) (v : list string) : World :=
  {| w_cwd := w_cwd w; w_trace := w_trace w; w_heap := <[l := v]> (w_heap w);
     w_strictness := w_strictness w;
     w_errors_found_in_log := w_errors_found_in_log w |}.

(** The world with [n] added to [errors_found_in_log]. *)
Definition with_more_errors (w : World) (n : Z) : World :=
  {| w_cwd := w_cwd w; w_trace := w_trace w; w_heap := w_heap w;
     w_strictness := w_strictness w;
     w_errors_found_in_log := (w_errors_found_in_log w + n)%Z |}.


(** The directory actions of [run_shell_cmd] under [output_file]: the top
    directory is made if missing, and a fresh directory is made in it. *)
Definition tmpdir_events (env : Env) (c : Cmd) : list Event :=
  let toptmpdir := path_join (gettempdir env) "run-shell-cmd-output" in
  [EvMakedirs toptmpdir;
   EvMkdtemp toptmpdir
     (fileprefix_from_cmd
        (PyStr.basename
           (List.hd EmptyString (PyStr.split_char " "%char (to_cmd_str c))))
      +:+ "-")].

Section Matching.
Context `{PyLib}.

(** [question], with the tail appended, is found in [stdout]. *)
Definition question_matches (stdout : string) (p : string * Answers) : Prop :=
  is_Some (re_search ReBytes (p.1 +:+ ws_tail) stdout).

(** The first question pattern, in the order of the list, that is found
    in [stdout], with its position. *)
Definition first_question (stdout : string)
    (qa_patterns : list (string * Answers))
    : option (nat * (string * Answers)) :=
  list_find (question_matches stdout) qa_patterns.

(** All patterns, with the tail appended, are valid expressions. *)
Definition patterns_compile (patterns : list string) : Prop :=
  Forall (fun p => re_compile_ok ReBytes (p +:+ ws_tail) = true) patterns.

(** Some wait pattern, with the tail appended, is found in [stdout]. *)
Definition wait_matches (stdout : string) (qa_wait_patterns : list string)
    : bool :=
  existsb (fun p => bool_decide
                      (is_Some (re_search ReBytes (p +:+ ws_tail) stdout)))
    qa_wait_patterns.
End Matching.

(** The answer a question would give next: the str itself, or the first
    element of the list. *)
Definition current_answer (w : World) (answers : Answers) : option string :=
  match answers with
  | AnsStr s => Some s
  | AnsList l => head (default [] (w_heap w !! l))
  | AnsOther => None
  end.

(** The world once the current answer of a question is taken: a list of
    answers has its first element moved to the end. *)
Definition after_answer (w : World) (answers : Answers) : World :=
  match answers with
  | AnsList l =>
      match default [] (w_heap w !! l) with
      | a :: rest => with_list w l (rest ++ [a])
      | [] => w
      end
  | _ => w
  end.

(** Element [i mod N] of a list of [N] answers. *)
Definition answer_at (L : list string) (i : nat) : string :=
  default EmptyString (L !! (i mod length L)).

(** The output accumulated at each turn of the output loop of
    [run_shell_cmd], starting from [stdout]. *)
Fixpoint seen_stdouts (cycles : list Cycle) (stdout : string) : list string :=
  match cycles with
  | [] => []
  | cy :: rest =>
      drain (stdout_reads cy) stdout
      :: seen_stdouts rest (drain (stdout_reads cy) stdout)
  end.

(** ** Concrete surroundings used by the examples *)

Module Fixtures.

Definition env0 : Env :=
  {| opt_extended_dry_run := false; opt_logtostdout := false;
     opt_silent := false; opt_trace := false; gettempdir := "/tmp";
     mkdtemp_path := fun d p => path_join d (p +:+ "k3x9");
     mkstemp_path := fun s p => "/tmp/" +:+ p +:+ "k3x9" +:+ s;
     which_bash := Some "/bin/bash"; get_thread_id := 7;
     chdir_ok := fun _ => true; open_ok := fun _ => true;
     pre_hook := fun _ => None; decode_ignore := fun s => s |}.

(** the same, under [--extended-dry-run] *)
Definition env_dry : Env :=
  {| opt_extended_dry_run := true; opt_logtostdout := false;
     opt_silent := false; opt_trace := false; gettempdir := "/tmp";
     mkdtemp_path := fun d p => path_join d (p +:+ "k3x9");
     mkstemp_path := fun s p => "/tmp/" +:+ p +:+ "k3x9" +:+ s;
     which_bash := Some "/bin/bash"; get_thread_id := 7;
     chdir_ok := fun _ => true; open_ok := fun _ => true;
     pre_hook := fun _ => None; decode_ignore := fun s => s |}.

Definition w0 : World :=
  {| w_cwd := "/home/user"; w_trace := []; w_heap := ∅;
     w_strictness := WARN; w_errors_found_in_log := 0 |}.

Definition quiet (reads : list ReadRes) : Cycle :=
  {| elapsed := 0; stdout_reads := reads; stderr_reads := [];
     stdin_ok := true |}.

(** a child that prints one number and exits with 0 *)
Definition child_ulimit : Child :=
  {| spawn_ok := true; stderr_iter := []; running_cycles := [];
     last_cycle := quiet []; final_stdout := EmptyString;
     final_stderr := EmptyString; comm_duration := 1;
     comm_stdout := "4096" +:+ PyStr.nl; comm_stderr := EmptyString;
     child_exit_code := 0; reap := fun _ => None |}.

(** a child that asks a question and keeps waiting; signals do not
    stop it *)
Definition child_asking (question : string) (turns : nat) : Child :=
  {| spawn_ok := true; stderr_iter := [];
     running_cycles := quiet [ReadData question] :: replicate turns (quiet []);
     last_cycle := quiet []; final_stdout := EmptyString;
     final_stderr := EmptyString; comm_duration := 1;
     comm_stdout := EmptyString; comm_stderr := EmptyString;
     child_exit_code := 0; reap := fun _ => None |}.


Definition caller : CallerInfo := ("easyblock.py", 120%Z, "build_step").

(** what the first run of [ulimit -u] returns, and the world and the cache
    it leaves *)
Definition ulimit_result : RunShellCmdResult :=
  {| res_cmd := "ulimit -u"; res_exit_code := 0;
     res_output := "4096" +:+ PyStr.nl; res_stderr := None;
     res_work_dir := "/home/user";
     res_out_file := Some "/tmp/run-shell-cmd-output/ulimit-k3x9/out.txt";
     res_err_file := None; res_thread_id := None; res_task_id := None |}.

Definition ulimit_world : World :=
  {| w_cwd := "/home/user";
     w_trace :=
       [EvMakedirs "/tmp/run-shell-cmd-output";
        EvMkdtemp "/tmp/run-shell-cmd-output" "ulimit-";
        EvTraceMsg
          (PyStr.join PyStr.nl
             ["running shell command:"; "	ulimit -u";
              "	[working dir: /home/user]";
              "	[output saved to /tmp/run-shell-cmd-output/ulimit-k3x9/out.txt]"]);
        EvHook true (CmdStr "ulimit -u");
        EvSpawn (CmdStr "ulimit -u") true (Some "/bin/bash");
        EvWriteFile "/tmp/run-shell-cmd-output/ulimit-k3x9/out.txt"
          ("4096" +:+ PyStr.nl);
        EvHook false (CmdStr "ulimit -u");
        EvTraceMsg "command completed"];
     w_heap := ∅; w_strictness := WARN; w_errors_found_in_log := 0 |}.

Definition ulimit_cache : gmap CacheKey RunShellCmdResult :=
  {[ ("ulimit -u", None) := ulimit_result ]}.

(** a process that ignores SIGTERM and dies of SIGKILL *)
Definition dies_of_sigkill : Reaper :=
  fun h =>
    if existsb (fun a => match a with Sent SIGKILL => true | _ => false end) h
    then Some (-9)%Z else None.

Definition fresh_proc : Popen := {| returncode := None; history := [] |}.

Definition qa_args (patterns : list (string * Answers)) (budget : Q)
    : RunShellCmdArgs :=
  {| fail_on_error := true; split_stderr := false; stdin := None;
     hidden := false; in_dry_run := false; verbose_dry_run := false;
     work_dir := None; use_bash := true; output_file := false;
     stream_output := None; asynchronous := false; task_id := None;
     with_hooks := true; timeout := None; qa_patterns := patterns;
     qa_wait_patterns := []; qa_timeout := budget |}.

(** the answers [y], [n] at address 0 *)
Definition yes_no : list string := ["y"; "n"].

Definition w_yes_no : World :=
  {| w_cwd := "/home/user"; w_trace := []; w_heap := {[ 0%nat := yes_no ]};
     w_strictness := WARN; w_errors_found_in_log := 0 |}.




Definition qa_child (rs : list (option string)) : Legacy.QaChild :=
  {| Legacy.qa_spawn_ok := true; Legacy.recvs := rs;
     Legacy.qa_final_output := Some EmptyString; Legacy.qa_exit_code := 0;
     Legacy.killpg_ok := true; Legacy.kill_ok := true |}.

Definition run_cmd_qa_args (questions : list (string * AnswersArg))
    (hits : Z) (p : option string) : Legacy.RunCmdQaArgs :=
  {| Legacy.qa := questions; Legacy.no_qa := []; Legacy.qa_log_ok := true;
     Legacy.qa_log_all := false; Legacy.qa_simple := false;
     Legacy.qa_regexp := RegexpBool true; Legacy.std_qa := [];
     Legacy.qa_path := p; Legacy.maxhits := hits; Legacy.qa_trace := true |}.

(** plain arguments: no streaming, no output file *)
Definition plain_args : RunShellCmdArgs :=
  {| fail_on_error := true; split_stderr := false; stdin := None;
     hidden := false; in_dry_run := false; verbose_dry_run := false;
     work_dir := None; use_bash := true; output_file := false;
     stream_output := Some false; asynchronous := false; task_id := None;
     with_hooks := true; timeout := None; qa_patterns := [];
     qa_wait_patterns := []; qa_timeout := 100 |}.

(** [run_cmd] in another directory *)
Definition in_build_dir : Legacy.RunCmdArgs :=
  {| Legacy.log_ok := true; Legacy.log_all := false; Legacy.simple := false;
     Legacy.inp := None; Legacy.regexp := RegexpBool true;
     Legacy.log_output := false; Legacy.path := Some "/build";
     Legacy.force_in_dry_run := false; Legacy.verbose := true;
     Legacy.shell := None; Legacy.trace := true;
     Legacy.stream_output := None; Legacy.asynchronous := false;
     Legacy.with_hooks := true |}.

Definition qa_state0 : Legacy.QaState :=
  {| Legacy.stdout_err := EmptyString; Legacy.old_len_out := -1;
     Legacy.hit_count := 0; Legacy.new_qa := []; Legacy.new_std_qa := [] |}.

(** a child of [run_cmd_qa] that asks an unknown question and then is
    silent *)
Definition stalled_qa_child : Legacy.QaChild :=
  qa_child [Some "Configure?"; None; None].

Definition legacy_child : Legacy.Child :=
  {| Legacy.spawn_ok := true; Legacy.chunks := ["one "; "two"];
     Legacy.final_output := " three"; Legacy.exit_code := 0 |}.

End Fixtures.

(** * The rest of the module *)

(** [c in allowed_chars] for a character and a str *)
Definition char_in (a : ascii) (chars : string) : bool :=
  existsb (Ascii.eqb a) (list_ascii_of_string chars).

(** [string.ascii_letters + string.digits + "_-"] *)
Definition default_allowed_chars : string :=
  "abcdefghijklmnopqrstuvwxyzABCDEFGHIJKLMNOPQRSTUVWXYZ0123456789_-".

(** [fileprefix_from_cmd(cmd, allowed_chars)]: [None] is the default
    [False]; like it, the empty str is falsy and selects the default set. *)
Definition fileprefix_from_cmd_with (c : string) (allowed_chars : option string)
    : string :=
  let allowed_chars :=
    match allowed_chars with
    | Some chars => if PyStr.truthy chars then chars else default_allowed_chars
    | None => default_allowed_chars
    end in
  PyStr.filter_chars (fun a => char_in a allowed_chars) c.

(** The set of characters that [fileprefix_from_cmd] keeps. *)
Definition effective_chars (allowed_chars : option string) : string :=
  match allowed_chars with
  | Some chars => if PyStr.truthy chars then chars else default_allowed_chars
  | None => default_allowed_chars
  end.

(** [subprocess_terminate(proc, timeout)].  [proc.communicate(timeout=timeout)]
    is the wait for the exit, its output being dropped; closing the pipes
    leaves no trace. *)
Definition subprocess_terminate (reap : Reaper) (proc : Popen) (timeout : Q)
    : M Popen :=
  waited <- wait reap timeout proc ;;
  match fst waited with
  | Some _ => ret (snd waited)
  | None => terminate reap (snd waited)
  end.

(** What [terminate_process] does to [proc]: nothing if it has exited;
    else SIGTERM and a wait, and SIGKILL and a second wait if the first wait
    timed out. *)
Definition termination_actions (reap : Reaper) (proc : Popen) (t : Q)
    : list ProcAction :=
  match (poll reap proc).1 with
  | Some _ => []
  | None =>
      [Sent SIGTERM; Waited t]
      ++ match reap (history proc ++ [Sent SIGTERM; Waited t]) with
         | Some _ => []
         | None => [Sent SIGKILL; Waited t]
         end
  end.

(** From [w] to [w'] the directory and the module globals are kept, and the
    trace grows by events that satisfy [P]. *)
Definition emits_only (P : Event -> Prop) (w w' : World) : Prop :=
  w_cwd w' = w_cwd w
  /\ w_strictness w' = w_strictness w
  /\ w_errors_found_in_log w' = w_errors_found_in_log w
  /\ exists evs, w_trace w' = w_trace w ++ evs /\ Forall P evs.

(** The events a call of [run_shell_cmd] can add to the trace, by the
    arguments and options that enable them. *)
Definition run_shell_cmd_event (env : Env) (args : RunShellCmdArgs) (e : Event)
    : Prop :=
  let dry := negb (in_dry_run args) && opt_extended_dry_run env in
  let interactive := match qa_patterns args with [] => false | _ => true end in
  match e with
  | EvMakedirs _ | EvMkdtemp _ _ => output_file args = true
  | EvWriteFile _ _ => output_file args = true /\ dry = false
  | EvDryRunMsg _ _ => dry = true
  | EvTraceMsg _ => hidden args = false /\ dry = false
  | EvPrintMsg _ =>
      dry = false
      /\ match stream_output args with
         | None => opt_logtostdout env
         | Some b => b
         end = true
  | EvHook _ _ => with_hooks args = true /\ dry = false
  | EvSpawn _ _ _ => dry = false
  | EvStdin _ =>
      dry = false /\ (PyStr.opt_truthy (stdin args) || interactive = true)
  | EvProc _ => dry = false /\ is_Some (timeout args)
  | EvMkstemp _ _ | EvChdir _ | EvStdoutWrite _ | EvLogWarning _ => False
  end.

(** [terminate_process] gives up on [proc]: it is still running after
    SIGKILL and the second wait. *)
Definition termination_fails (reap : Reaper) (proc : Popen) (t : Q) : bool :=
  match (poll reap proc).1 with
  | Some _ => false
  | None =>
      match reap (history proc ++ [Sent SIGTERM; Waited t]) with
      | Some _ => false
      | None =>
          match reap (history proc ++ [Sent SIGTERM; Waited t]
                      ++ [Sent SIGKILL; Waited t]) with
          | Some _ => false
          | None => true
          end
      end
  end.

(** Whether [run_shell_cmd] streams the output: [stream_output], or the
    option [logtostdout] when it is [None]. *)
Definition streaming (env : Env) (args : RunShellCmdArgs) : bool :=
  match stream_output args with
  | None => opt_logtostdout env
  | Some b => b
  end.


(** What the [while more_stdout:] loops of the given turns add to [acc]. *)
Definition read_in_turns (reads : Cycle -> list ReadRes) (cycles : list Cycle)
    (acc : string) : string :=
  fold_left (fun acc cy => drain (reads cy) acc) cycles acc.

(** The data that one [while more_stdout:] loop appends: what is read up to
    the first empty read or timeout. *)
Fixpoint taken (reads : list ReadRes) : list string :=
  match reads with
  | ReadData d :: rest => if PyStr.truthy d then d :: taken rest else []
  | _ => []
  end.

(** The bytes of stdout and stderr that a run without questions collects:
    piece by piece when streaming, else from [communicate]. *)
Definition child_output (env : Env) (args : RunShellCmdArgs) (child : Child)
    : string * string :=
  let cycles := running_cycles child ++ [last_cycle child] in
  if streaming env args then
    (read_in_turns stdout_reads cycles EmptyString +:+ final_stdout child,
     if split_stderr args
     then read_in_turns stderr_reads cycles EmptyString +:+ final_stderr child
     else EmptyString)
  else (comm_stdout child, comm_stderr child).

(** The timeout, if any, does not expire during the run. *)
Definition in_time (env : Env) (args : RunShellCmdArgs) (child : Child)
    : Prop :=
  if streaming env args then
    Forall (fun cy => timeout_expired (timeout args) (elapsed cy) = false)
      (running_cycles child ++ [last_cycle child])
  else
    match timeout args with
    | Some t => Qgt_bool (comm_duration child) t = false
    | None => True
    end.

(** The result of a run of [run_shell_cmd] without questions. *)
Definition run_result (env : Env) (child : Child) (c : Cmd)
    (args : RunShellCmdArgs) (w : World) : RunShellCmdResult :=
  {| res_cmd := to_cmd_str (hooked_cmd env args c);
     res_exit_code := child_exit_code child;
     res_output := decode_ignore env (child_output env args child).1;
     res_stderr :=
       if split_stderr args
       then Some (decode_ignore env (child_output env args child).2) else None;
     res_work_dir := default (w_cwd w) (work_dir args);
     res_out_file := (tmp_paths env args c).1;
     res_err_file := (tmp_paths env args c).2;
     res_thread_id :=
       if asynchronous args then Some (get_thread_id env) else None;
     res_task_id := task_id args |}.

(** What [run_shell_cmd] does, outside dry run, up to the point where the
    child has been started and given its input; [msg] is the text of the
    trace message. *)
Definition start_events (env : Env) (c : Cmd) (args : RunShellCmdArgs)
    (msg : string) : list Event :=
  (if output_file args then tmpdir_events env c else [])
  ++ (if hidden args then [] else [EvTraceMsg msg])
  ++ (if streaming env args
      then [EvPrintMsg ("(streaming) output for command '" +:+ to_cmd_str c
                        +:+ "':")]
      else [])
  ++ (if with_hooks args then [EvHook true c] else [])
  ++ [EvSpawn (hooked_cmd env args c) (use_bash args)
        (if use_bash args then which_bash env else None)]
  ++ (if PyStr.opt_truthy (stdin args)
      then [EvStdin (default EmptyString (stdin args))] else []).

(** The writes of the output to the temporary files. *)
Definition dump_events (r : RunShellCmdResult) : list Event :=
  match res_out_file r with
  | Some fp =>
      EvWriteFile fp (res_output r)
      :: match res_err_file r with
         | Some efp => [EvWriteFile efp (default EmptyString (res_stderr r))]
         | None => []
         end
  | None => []
  end.

(** What follows a command that is not reported as failed. *)
Definition finish_events (env : Env) (c : Cmd) (args : RunShellCmdArgs)
    : list Event :=
  (if with_hooks args then [EvHook false (hooked_cmd env args c)] else [])
  ++ (if hidden args then [] else [EvTraceMsg "command completed"]).

(** What the pipe of a process gives to [asyncprocess.recv_some] ([None]:
    it raises), to [proc.stdout.read(n)] and to [proc.stdout.read()]. *)
Record ProcOutput := mkProcOutput {
  recv_some : option string;
  read_upto : Z -> string;
  read_all : string;
}.

(** [get_output_from_process(proc, read_size, asynchronous)]; [None] when
    the read raises. *)
Definition get_output_from_process (out : ProcOutput) (read_size : option Z)
    (asynchronous_ : bool) : option string :=
  let output :=
    if asynchronous_ then recv_some out
    else
      match read_size with
      | Some n => if Z.eqb n 0 then Some (read_all out)
                  else Some (read_upto out n)
      | None => Some (read_all out)
      end in
  ascii_ignore <$> output.

(** All characters of [s] are in the ASCII range. *)
Definition is_ascii (s : string) : Prop :=
  Forall (fun a => nat_of_ascii a < 128) (list_ascii_of_string s).

(** The expression [parse_log_for_error] searches the lines for; [None]
    when the argument is refused. *)
Definition error_pattern (regExp : RegexpArg) : option string :=
  match regExp with
  | RegexpBool true => Some default_error_regexp
  | RegexpBool false => None
  | RegexpStr s => Some s
  end.

(** The [output_read_size] argument of [check_async_cmd]: an int, [None],
    or a value of another type with its truth value. *)
Inductive ReadSize :=
| SizeInt (n : Z)
| SizeNone
| SizeOther (truthy : bool).

(** A process started asynchronously, as one call of [check_async_cmd]
    finds it: what its reads return, and the result of [proc.poll()]. *)
Record AsyncProc := mkAsyncProc {
  ap_output : ProcOutput;
  ap_poll : option Z;
}.

(** The dict that [check_async_cmd] returns. *)
Record AsyncCheck := mkAsyncCheck {
  chk_done : bool;
  chk_exit_code : option Z;
  chk_output : string;
}.

Definition read_size_msg : string :=
  "Number of output bytes to read should be a positive integer value (or zero)".

(** What one call writes for the data it has read: to the log file if
    there is one, to stdout when streaming. *)
Definition output_events (cmd_log : option string) (streaming : bool)
    (data : string) : list Event :=
  match cmd_log with Some f => [EvWriteFile f data] | None => [] end
  ++ (if streaming then [EvStdoutWrite data] else []).

(** The data written to the file [f], in order. *)
Definition written_to (f : string) (t : list Event) : list string :=
  omap (fun e => match e with
                 | EvWriteFile p d => if String.eqb p f then Some d else None
                 | _ => None
                 end) t.

(** The data written to stdout, in order. *)
Definition stdout_written (t : list Event) : list string :=
  omap (fun e => match e with EvStdoutWrite d => Some d | _ => None end) t.

Module Async.
Section WithLib.
Context `{PyLib}.
Variable env : Env.

(** [check_async_cmd(proc, cmd, owd, start_time, cmd_log, fail_on_error,
    output_read_size, output)].  The read is [get_output_from_process]
    without [asynchronous] and with a read size that is not zero, that is
    [proc.stdout.read(n)] decoded.  [complete_cmd] is called with
    [simple=False] and so returns a pair; the process has exited, so its
    loop reads nothing and all that is left comes from the last read. *)
Definition check_async_cmd (proc : AsyncProc) (c : Cmd) (owd : string)
    (cmd_log : option string) (fail_on_error_ : bool)
    (output_read_size : ReadSize) (output : string) : M AsyncCheck :=
  let read n := ascii_ignore (read_upto (ap_output proc) n) in
  output <-
    match output_read_size with
    | SizeInt n =>
        if Z.eqb n 0 then ret output
        else if Z.ltb n 0 then raise (EasyBuildError read_size_msg)
             else ret (output +:+ read n)
    | SizeNone => ret output
    | SizeOther truthy =>
        if truthy then raise (EasyBuildError read_size_msg) else ret output
    end ;;
  match ap_poll proc with
  | None =>
      ret {| chk_done := false; chk_exit_code := None; chk_output := output |}
  | Some ec =>
      o <- Legacy.complete_cmd env
             {| Legacy.spawn_ok := true; Legacy.chunks := [];
                Legacy.final_output := read_all (ap_output proc);
                Legacy.exit_code := ec |}
             c owd cmd_log fail_on_error_ false false (RegexpBool true) None
             false output true ;;
      let output := match o with Full stdouterr _ => stdouterr
                                 | Simple _ => EmptyString end in
      ret {| chk_done := true; chk_exit_code := Some ec; chk_output := output |}
  end.
End WithLib.
End Async.

(** The bytes that a call of [check_async_cmd] adds to [output] before it
    polls; [None] when [output_read_size] is refused. *)
Definition polled_output (proc : AsyncProc) (output_read_size : ReadSize)
    : option string :=
  match output_read_size with
  | SizeInt n =>
      if Z.ltb n 0 then None
      else if Z.eqb n 0 then Some EmptyString
           else Some (ascii_ignore (read_upto (ap_output proc) n))
  | SizeNone => Some EmptyString
  | SizeOther truthy => if truthy then None else Some EmptyString
  end.

(** The [shell] that [run_cmd] uses; [None] when it refuses a list without
    an explicit [shell]. *)
Definition effective_shell (args : Legacy.RunCmdArgs) (c : Cmd) : option bool :=
  match Legacy.shell args with
  | Some b => Some b
  | None => match c with CmdList _ => None | CmdStr _ => Some true end
  end.

(** Whether [run_cmd] keeps a temporary log file, and its name. *)
Definition run_cmd_logs (env : Env) (args : Legacy.RunCmdArgs) : bool :=
  Legacy.log_output args || (Legacy.trace args && opt_trace env).

Definition run_cmd_log (env : Env) (args : Legacy.RunCmdArgs) : option string :=
  if run_cmd_logs env args
  then Some (mkstemp_path env ".log" "easybuild-run_cmd-") else None.

(** [stream_output] of [run_cmd] after the option [logtostdout] has been
    taken into account. *)
Definition run_cmd_stream (env : Env) (args : Legacy.RunCmdArgs) : option bool :=
  match Legacy.stream_output args with
  | None => if opt_logtostdout env then Some true else None
  | Some b => Some b
  end.

(** The command that [run_cmd] starts: prefixed with [/usr/bin/env] when no
    shell is used, then replaced by the str that the pre-step hook
    returns, if it returns one. *)
Definition run_cmd_command (env : Env) (args : Legacy.RunCmdArgs) (sh : bool)
    (c : Cmd) : Cmd :=
  let c := if sh then c
           else match c with
                | CmdList l => CmdList ("/usr/bin/env" :: l)
                | CmdStr s => CmdStr ("/usr/bin/env " +:+ s)
                end in
  if Legacy.with_hooks args then
    match pre_hook env c with
    | Some (CmdStr s) => CmdStr s
    | _ => c
    end
  else c.

(** What [run_cmd] does before it looks at the dry-run option. *)
Definition run_cmd_announces (env : Env) (args : Legacy.RunCmdArgs) (c : Cmd)
    : list Event :=
  (if run_cmd_logs env args then [EvMkstemp "easybuild-run_cmd-" ".log"] else [])
  ++ (if default false (run_cmd_stream env args)
      then [EvPrintMsg ("(streaming) output for command '" +:+ to_cmd_str c
                        +:+ "':")]
      else [])
  ++ (if Legacy.trace args
      then [EvTraceMsg ("running command: " +:+ to_cmd_str c)] else []).

(** The world after [os.chdir(path)] has been tried. *)
Definition entered (env : Env) (p : option string) (w : World) : World :=
  if PyStr.opt_truthy p && chdir_ok env (default EmptyString p)
  then (set_cwd (default EmptyString p) w).2 else w.

(** What [run_cmd] does to start the command, once in the directory. *)
Definition run_cmd_starts (env : Env) (args : Legacy.RunCmdArgs) (sh : bool)
    (c : Cmd) : list Event :=
  let unhooked :=
    if sh then c
    else match c with
         | CmdList l => CmdList ("/usr/bin/env" :: l)
         | CmdStr s => CmdStr ("/usr/bin/env " +:+ s)
         end in
  match run_cmd_log env args with
  | Some f => [EvWriteFile f ("# output for command: " +:+ to_cmd_str c
                              +:+ PyStr.nl +:+ PyStr.nl)]
  | None => []
  end
  ++ (if Legacy.with_hooks args then [EvHook true unhooked] else [])
  ++ [EvSpawn (run_cmd_command env args sh c) sh
        (if sh then Some "/bin/bash"
         else match c with CmdList _ => None | CmdStr _ => Some "/bin/bash" end)]
  ++ (if PyStr.opt_truthy (Legacy.inp args)
      then [EvStdin (default EmptyString (Legacy.inp args))] else []).

(** The number of characters of [s] that [escape_special] escapes. *)
Fixpoint count_special (s : string) : nat :=
  match s with
  | EmptyString => 0
  | String a s' => (if is_special a then 1 else 0) + count_special s'
  end.



(** [c] does not occur in [s]. *)
Definition lacks (c : ascii) (s : string) : Prop :=
  Forall (fun a => a <> c) (list_ascii_of_string s).

(** A turn of the loop of [run_cmd_qa] in which nothing is read: the read
    raises, or gives no character of the ASCII range. *)
Definition silent_turn (recv : option string) : Prop :=
  PyStr.opt_truthy (ascii_ignore <$> recv) = false.

(** The state in which the loop of [run_cmd_qa] starts. *)
Definition qa_start (new_qa_ new_std_qa_ : list (string * list string))
    : Legacy.QaState :=
  {| Legacy.stdout_err := EmptyString; Legacy.old_len_out := -1;
     Legacy.hit_count := 0; Legacy.new_qa := new_qa_;
     Legacy.new_std_qa := new_std_qa_ |}.

(** The time without a match after [n] more turns of the loop of
    [run_shell_cmd] without a match: [check_interval_secs] added [n] times
    to [time_no_match], each sum rounded as floats are. *)
Fixpoint unmatched_time (n : nat) (time_no_match : float) : float :=
  match n with
  | O => time_no_match
  | S k => unmatched_time k (time_no_match + check_interval_secs)%float
  end.

(** From [w] to [w'] the trace grows by events that satisfy [P]. *)
Definition trace_grows (P : Event -> Prop) (w w' : World) : Prop :=
  exists evs, w_trace w' = w_trace w ++ evs /\ Forall P evs.

(** An event that neither starts a process, nor acts on one, nor runs a
    hook. *)
Definition before_start (e : Event) : Prop :=
  match e with
  | EvSpawn _ _ _ | EvProc _ | EvHook _ _ | EvStdin _ => False
  | _ => True
  end.

(** ** More sample children and arguments *)

Module Samples.

(** [run_shell_cmd] with a timeout of five seconds *)
Definition timed_args : RunShellCmdArgs :=
  {| fail_on_error := true; split_stderr := false; stdin := None;
     hidden := false; in_dry_run := false; verbose_dry_run := false;
     work_dir := None; use_bash := true; output_file := false;
     stream_output := Some false; asynchronous := false; task_id := None;
     with_hooks := true; timeout := Some 5%Q; qa_patterns := [];
     qa_wait_patterns := []; qa_timeout := 100 |}.

(** a child that needs ten seconds and ignores SIGTERM *)
Definition child_slow : Child :=
  {| spawn_ok := true; stderr_iter := []; running_cycles := [];
     last_cycle := Fixtures.quiet []; final_stdout := EmptyString;
     final_stderr := EmptyString; comm_duration := 10;
     comm_stdout := EmptyString; comm_stderr := EmptyString;
     child_exit_code := 0; reap := Fixtures.dies_of_sigkill |}.

(** two turns of the output loop; the empty read ends the first one *)
Definition two_turns : list Cycle :=
  [Fixtures.quiet [ReadData "a"; ReadData "b"; ReadData EmptyString;
                   ReadData "c"];
   Fixtures.quiet [ReadData "d"; ReadTimeout]].

(** a process started by [run_cmd], still running and then exited *)
Definition pipe : ProcOutput :=
  {| recv_some := None; read_upto := fun _ => "partial ";
     read_all := "rest" |}.

Definition proc_running : AsyncProc := {| ap_output := pipe; ap_poll := None |}.

Definition proc_exited : AsyncProc :=
  {| ap_output := pipe; ap_poll := Some 0%Z |}.

(** [run_cmd] in another directory, without waiting *)
Definition async_args : Legacy.RunCmdArgs :=
  {| Legacy.log_ok := true; Legacy.log_all := false; Legacy.simple := false;
     Legacy.inp := None; Legacy.regexp := RegexpBool true;
     Legacy.log_output := false; Legacy.path := Some "/build";
     Legacy.force_in_dry_run := false; Legacy.verbose := true;
     Legacy.shell := None; Legacy.trace := true;
     Legacy.stream_output := None; Legacy.asynchronous := true;
     Legacy.with_hooks := true |}.

(** a child of [run_cmd_qa] that does not lead a process group, as one
    started by [Popen] without a new session: [os.killpg] fails for it *)
Definition qa_child_no_group (rs : list (option string)) : Legacy.QaChild :=
  {| Legacy.qa_spawn_ok := true; Legacy.recvs := rs;
     Legacy.qa_final_output := Some EmptyString; Legacy.qa_exit_code := 0;
     Legacy.killpg_ok := false; Legacy.kill_ok := true |}.

End Samples.

(** * Properties *)

(** ** Basic facts about the monad *)

Lemma bind_Return {A B} (m : M A) (k : A -> M B) w a w1 :
  m w = (Return a, w1) -> bind m k w = k a w1.
Proof. intros E. unfold bind. now rewrite E. Qed.

Lemma bind_Raise {A B} (m : M A) (k : A -> M B) w e w1 :
  m w = (Raise e, w1) -> bind m k w = (Raise e, w1).
Proof. intros E. unfold bind. now rewrite E. Qed.


Lemma emit_eq e w : emit e w = (Return tt, with_events w [e]).
Proof. reflexivity. Qed.

Lemma with_events_nil w : with_events w [] = w.
Proof. destruct w. unfold with_events. simpl. now rewrite app_nil_r. Qed.

Lemma with_events_app w evs1 evs2 :
  with_events (with_events w evs1) evs2 = with_events w (evs1 ++ evs2).
Proof. unfold with_events. simpl. now rewrite app_assoc. Qed.

(** ** Result cache *)

Section CacheFacts.
Context {W Args R : Type}.
Variable func : Cmd -> Args -> W -> Outcome R * W.
Variable kwargs_stdin kwargs_inp : Args -> option string.

Let call := cache_aware_func func kwargs_stdin kwargs_inp.

(** A hit returns the stored value; the function is not called, so the
    world is the one given. *)
Lemma cache_hit cache s args w r :
  cache !! (s, key_input kwargs_stdin kwargs_inp args) = Some r ->
  call cache (CmdStr s) args w = (Return r, w, cache).
Proof. intros Hc. unfold call, cache_aware_func. now rewrite Hc. Qed.

(** After a call that returned, an allow-listed str command is in the
    cache with the value returned. *)
Lemma cache_stored cache s args w r w1 cache1 :
  s ∈ CACHED_COMMANDS ->
  call cache (CmdStr s) args w = (Return r, w1, cache1) ->
  cache1 !! (s, key_input kwargs_stdin kwargs_inp args) = Some r.
Proof.
  intros Hin. unfold call, cache_aware_func.
  destruct (cache !! _) as [r0|] eqn:Hc.
  - intros [= -> -> ->]. exact Hc.
  - destruct (func _ _ _) as [[r0|e] w'] eqn:Hf; [|discriminate].
    unfold in_CACHED_COMMANDS. rewrite bool_decide_eq_true_2 by exact Hin.
    intros [= -> -> <-]. apply lookup_insert_eq.
Qed.

(** C4: for a str command of [CACHED_COMMANDS], once a call has returned a
    result, a second call with the same command text and the same stdin
    input returns that result from whatever world it starts in, and leaves
    the world and the cache as they are: the decorated function, the only
    way to a process, is not called.  A command given as a list always
    runs the decorated function, whatever the cache holds, and never
    changes the cache. *)
Theorem run_cmd_cache_second_call cache s args w r w1 cache1 :
  s ∈ CACHED_COMMANDS ->
  call cache (CmdStr s) args w = (Return r, w1, cache1) ->
  (forall w2, call cache1 (CmdStr s) args w2 = (Return r, w2, cache1))
  /\ (forall l cache' args' w',
        call cache' (CmdList l) args' w'
        = (func (CmdList l) args' w', cache')).
Proof.
  intros Hin Hcall. split.
  - intros w2. apply cache_hit. eapply cache_stored; eauto.
  - intros l cache' args' w'. unfold call, cache_aware_func. simpl.
    destruct (func _ _ _) as [[r0|e] w'']; reflexivity.
Qed.
End CacheFacts.

(** The probe [ulimit -u] through the cached [run_shell_cmd]: the second
    call returns the result of the first and spawns nothing. *)
Lemma run_cmd_cache_second_call_witness :
  "ulimit -u" ∈ CACHED_COMMANDS
  /\ run_shell_cmd_cached (H := Literal.lib) Fixtures.env0 Fixtures.child_ulimit
       [Fixtures.caller] ∅ (CmdStr "ulimit -u") run_shell_cmd_defaults
       Fixtures.w0
     = (Return Fixtures.ulimit_result, Fixtures.ulimit_world,
        Fixtures.ulimit_cache)
  /\ run_shell_cmd_cached (H := Literal.lib) Fixtures.env0 Fixtures.child_ulimit
       [Fixtures.caller] Fixtures.ulimit_cache (CmdStr "ulimit -u")
       run_shell_cmd_defaults Fixtures.w0
     = (Return Fixtures.ulimit_result, Fixtures.w0, Fixtures.ulimit_cache).
Proof.
  assert (Hin : "ulimit -u" ∈ CACHED_COMMANDS)
    by (apply list_elem_of_In; unfold CACHED_COMMANDS; cbn [In]; tauto).
  assert (Hfirst :
            run_shell_cmd_cached (H := Literal.lib) Fixtures.env0
              Fixtures.child_ulimit [Fixtures.caller] ∅ (CmdStr "ulimit -u")
              run_shell_cmd_defaults Fixtures.w0
            = (Return Fixtures.ulimit_result, Fixtures.ulimit_world,
               Fixtures.ulimit_cache))
    by (vm_cast_no_check
          (eq_refl (Return Fixtures.ulimit_result, Fixtures.ulimit_world,
                    Fixtures.ulimit_cache))).
  split; [exact Hin|]. split; [exact Hfirst|].
  exact (proj1 (run_cmd_cache_second_call
                  (run_shell_cmd (H := Literal.lib) Fixtures.env0
                     Fixtures.child_ulimit
                     [frame_cache_aware_func; Fixtures.caller])
                  stdin (fun _ => None) ∅ "ulimit -u"
                  run_shell_cmd_defaults Fixtures.w0 Fixtures.ulimit_result
                  Fixtures.ulimit_world Fixtures.ulimit_cache Hin Hfirst)
           Fixtures.w0).
Defined.

(** ** Escalating termination *)

Lemma act_eq p a w :
  act p a w
  = (Return {| returncode := returncode p; history := history p ++ [a] |},
     with_events w [EvProc a]).
Proof. reflexivity. Qed.

Lemma send_signal_running reap s p w :
  (poll reap p).1 = None ->
  send_signal reap s p w
  = (Return {| returncode := None; history := history p ++ [Sent s] |},
     with_events w [EvProc (Sent s)]).
Proof.
  unfold send_signal, poll. destruct p as [rc h]. cbn [returncode history].
  destruct rc as [c|]; cbn [fst].
  - discriminate.
  - intros Hr. rewrite Hr. reflexivity.
Qed.

Lemma send_signal_exited reap s p w c :
  returncode p = Some c -> send_signal reap s p w = (Return p, w).
Proof. intros Hrc. unfold send_signal, poll. now rewrite Hrc. Qed.

Lemma wait_running reap t p w :
  returncode p = None ->
  wait reap t p w
  = (Return (reap (history p ++ [Waited t]),
             {| returncode := reap (history p ++ [Waited t]);
                history := history p ++ [Waited t] |}),
     with_events w [EvProc (Waited t)]).
Proof. intros Hrc. unfold wait. rewrite Hrc. reflexivity. Qed.

Lemma wait_exited reap t p w c :
  returncode p = Some c -> wait reap t p w = (Return (Some c, p), w).
Proof. intros Hrc. unfold wait. now rewrite Hrc. Qed.

(** C2: on a process that is still running, [terminate_process] first sends
    SIGTERM and waits for [timeout].  If the process has exited by then,
    nothing more is sent: [proc.kill()] is still called, but [Popen] does not
    signal a process it knows to have completed, and the second wait returns
    at once.  Only if the process is still running after the first wait is
    SIGKILL sent, followed by a second wait; and if the process is still
    running after that, the EasyBuildError saying that it did not terminate
    is raised. *)
Theorem terminate_process_escalates reap proc t w :
  (poll reap proc).1 = None ->
  let h1 := history proc ++ [Sent SIGTERM; Waited t] in
  let h2 := h1 ++ [Sent SIGKILL; Waited t] in
  terminate_process reap proc t w =
    match reap h1 with
    | Some c =>
        (Return {| returncode := Some c; history := h1 |},
         with_events w [EvProc (Sent SIGTERM); EvProc (Waited t)])
    | None =>
        (match reap h2 with
         | Some c => Return {| returncode := Some c; history := h2 |}
         | None => Raise (EasyBuildError (terminate_msg t))
         end,
         with_events w [EvProc (Sent SIGTERM); EvProc (Waited t);
                        EvProc (Sent SIGKILL); EvProc (Waited t)])
    end.
Proof.
  intros Hrun h1 h2. unfold terminate_process, terminate, kill.
  erewrite bind_Return by (apply send_signal_running; exact Hrun).
  erewrite bind_Return by (apply wait_running; reflexivity).
  cbn [snd fst history]. rewrite <- app_assoc. cbn [app]. fold h1.
  destruct (reap h1) as [c|] eqn:Hr1.
  - erewrite bind_Return by (eapply send_signal_exited; reflexivity).
    erewrite bind_Return by (eapply wait_exited; reflexivity).
    cbn. rewrite with_events_app. reflexivity.
  - erewrite bind_Return.
    2:{ apply send_signal_running. unfold poll. cbn. exact Hr1. }
    erewrite bind_Return by (apply wait_running; reflexivity).
    cbn [snd fst history]. rewrite <- app_assoc. cbn [app]. fold h2.
    rewrite !with_events_app. cbn [app].
    destruct (reap h2) as [c|]; reflexivity.
Qed.

(** A process that ignores SIGTERM and dies of SIGKILL. *)
Lemma terminate_process_escalates_witness :
  let reap := Fixtures.dies_of_sigkill in
  let proc := Fixtures.fresh_proc in
  (poll reap proc).1 = None
  /\ terminate_process reap proc 20 Fixtures.w0
     = (Return {| returncode := Some (-9)%Z;
                  history := [Sent SIGTERM; Waited 20; Sent SIGKILL; Waited 20] |},
        with_events Fixtures.w0
          [EvProc (Sent SIGTERM); EvProc (Waited 20);
           EvProc (Sent SIGKILL); EvProc (Waited 20)]).
Proof.
  intros reap proc.
  assert (Hrun : (poll reap proc).1 = None) by reflexivity.
  split; [exact Hrun|].
  exact (terminate_process_escalates reap proc 20 Fixtures.w0 Hrun).
Defined.

(** ** Dry run *)

Section DryRun.
Context `{PyLib}.
Variable env : Env.

(** C3, amended: under extended dry run, with [in_dry_run] disabled,
    [run_shell_cmd] returns a result with exit code 0, empty output and no
    stderr.  It spawns nothing, writes no file and sends no signal; it
    leaves the working directory and the answer lists as they are.  Its
    only actions on the file system are those that prepare the temporary
    output directory when [output_file] is enabled, and there are none
    when it is disabled. *)
Theorem run_shell_cmd_dry_run child frames c args w :
  in_dry_run args = false ->
  opt_extended_dry_run env = true ->
  exists r evs,
    run_shell_cmd env child frames c args w = (Return r, with_events w evs)
    /\ res_exit_code r = 0%Z
    /\ res_output r = EmptyString
    /\ res_stderr r = None
    /\ List.filter is_spawn evs = []
    /\ proc_actions evs = []
    /\ List.filter is_fs_mutation evs
       = if output_file args then tmpdir_events env c else [].
Proof.
  intros Hdry Hext.
  destruct args as [foe spl inp hid idr vdr wd ub outf so asy tid wh tmo qp qw qt].
  cbn [in_dry_run] in Hdry. subst idr.
  destruct w as [cwd0 tr0 hp0 st0 ef0].
  exists (mkRunShellCmdResult (to_cmd_str c) 0 EmptyString None
            (default cwd0 wd)
            (if outf
             then Some (path_join
                          (mkdtemp_path env
                             (path_join (gettempdir env) "run-shell-cmd-output")
                             (fileprefix_from_cmd
                                (PyStr.basename
                                   (List.hd EmptyString
                                      (PyStr.split_char " "%char (to_cmd_str c))))
                              +:+ "-"))
                          "out.txt")
             else None)
            (if outf
             then if spl
                  then Some (path_join
                               (mkdtemp_path env
                                  (path_join (gettempdir env)
                                     "run-shell-cmd-output")
                                  (fileprefix_from_cmd
                                     (PyStr.basename
                                        (List.hd EmptyString
                                           (PyStr.split_char " "%char
                                              (to_cmd_str c))))
                                   +:+ "-"))
                               "err.txt")
                  else None
             else None)
            (if asy then Some (get_thread_id env) else None) tid).
  destruct wd as [d|];
    eexists
      ((if outf then tmpdir_events env c else [])
       ++ (if negb hid || vdr then [EvDryRunMsg _ (opt_silent env)] else []));
    unfold run_shell_cmd, tmpdir_events;
    cbn [work_dir output_file hidden verbose_dry_run in_dry_run split_stderr
         asynchronous task_id qa_patterns stream_output];
    rewrite Hext; cbn [negb andb];
    destruct outf, hid, vdr;
    unfold bind, ret, getcwd, emit, when, with_events, default, id;
    cbn [fst snd negb orb andb app
         w_cwd w_trace w_heap w_strictness w_errors_found_in_log];
    rewrite <- ?app_assoc, ?app_nil_r; cbn [app];
    (split; [reflexivity|]); cbn; repeat split; reflexivity.
Qed.
End DryRun.

Lemma run_shell_cmd_dry_run_witness :
  in_dry_run run_shell_cmd_defaults = false
  /\ opt_extended_dry_run Fixtures.env_dry = true
  /\ exists r evs,
       run_shell_cmd (H := Literal.lib) Fixtures.env_dry Fixtures.child_ulimit
         [Fixtures.caller] (CmdStr "rm -rf /tmp/whatever")
         run_shell_cmd_defaults Fixtures.w0
       = (Return r, with_events Fixtures.w0 evs)
       /\ res_exit_code r = 0%Z
       /\ res_output r = EmptyString
       /\ res_stderr r = None
       /\ List.filter is_spawn evs = []
       /\ proc_actions evs = []
       /\ List.filter is_fs_mutation evs
          = if output_file run_shell_cmd_defaults
            then tmpdir_events Fixtures.env_dry (CmdStr "rm -rf /tmp/whatever")
            else [].
Proof.
  split; [reflexivity|]. split; [reflexivity|].
  exact (run_shell_cmd_dry_run (H := Literal.lib) Fixtures.env_dry
           Fixtures.child_ulimit [Fixtures.caller]
           (CmdStr "rm -rf /tmp/whatever") run_shell_cmd_defaults Fixtures.w0
           eq_refl eq_refl).
Defined.

(** C3 as stated fails: with the default [output_file=True], the dry run of
    [rm -rf /tmp/whatever] makes two directories. *)
Lemma run_shell_cmd_dry_run_makes_directories :
  in_dry_run run_shell_cmd_defaults = false
  /\ opt_extended_dry_run Fixtures.env_dry = true
  /\ List.filter is_fs_mutation
       (w_trace
          (run_shell_cmd (H := Literal.lib) Fixtures.env_dry
             Fixtures.child_ulimit [Fixtures.caller]
             (CmdStr "rm -rf /tmp/whatever") run_shell_cmd_defaults
             Fixtures.w0).2)
     = [EvMakedirs "/tmp/run-shell-cmd-output";
        EvMkdtemp "/tmp/run-shell-cmd-output" "rm-"]
  /\ List.filter is_fs_mutation (w_trace Fixtures.w0) = [].
Proof. repeat split; vm_compute; reflexivity. Qed.

(** ** The Q&A automaton *)

Section QAFacts.
Context `{PyLib}.

Lemma wait_patterns_loop_spec stdout qa_wait_patterns w :
  patterns_compile qa_wait_patterns ->
  wait_patterns_loop stdout qa_wait_patterns w
  = (Return (wait_matches stdout qa_wait_patterns), w).
Proof.
  induction 1 as [|p ps Hp Hps IH]; [reflexivity|].
  cbn [wait_patterns_loop wait_matches existsb]. rewrite Hp.
  destruct (re_search ReBytes (p +:+ ws_tail) stdout) as [m|] eqn:Hs.
  - rewrite bool_decide_eq_true_2 by eauto. reflexivity.
  - rewrite bool_decide_eq_false_2 by (intros [? ?]; discriminate).
    exact IH.
Qed.

Lemma answer_question_no_match stdout stdin_ok qa_patterns qa_wait_patterns w :
  patterns_compile (qa_patterns.*1) ->
  first_question stdout qa_patterns = None ->
  _answer_question stdout stdin_ok qa_patterns qa_wait_patterns w
  = wait_patterns_loop stdout qa_wait_patterns w.
Proof.
  unfold first_question. induction qa_patterns as [|[q a] qa IH];
    intros Hc Hnone; [reflexivity|].
  apply Forall_cons in Hc as [Hq Hc]. cbn [fst] in Hq.
  cbn [list_find] in Hnone. unfold question_matches in Hnone at 1.
  cbn [fst] in Hnone. cbn [_answer_question]. rewrite Hq.
  case_decide as Hm; [discriminate|].
  destruct (re_search ReBytes (q +:+ ws_tail) stdout) as [m|] eqn:Hs.
  - exfalso. apply Hm. eauto.
  - apply IH; [exact Hc|].
    destruct (list_find _ qa); [discriminate|reflexivity].
Qed.

Lemma answer_question_first stdout stdin_ok qa_patterns qa_wait_patterns w
    i question answers :
  patterns_compile (qa_patterns.*1) ->
  first_question stdout qa_patterns = Some (i, (question, answers)) ->
  exists res,
    re_search ReBytes (question +:+ ws_tail) stdout = Some res
    /\ _answer_question stdout stdin_ok qa_patterns qa_wait_patterns w
       = reply stdin_ok (question +:+ ws_tail) answers res w.
Proof.
  unfold first_question. revert i.
  induction qa_patterns as [|[q a] qa IH]; intros i Hc Hfirst;
    [discriminate|].
  apply Forall_cons in Hc as [Hq Hc]. cbn [fst] in Hq.
  cbn [list_find] in Hfirst. unfold question_matches in Hfirst at 1.
  cbn [fst] in Hfirst. cbn [_answer_question]. rewrite Hq.
  case_decide as Hm.
  - injection Hfirst as <- <- <-. destruct Hm as [m Hs].
    rewrite Hs. eauto.
  - destruct (re_search ReBytes (q +:+ ws_tail) stdout) as [m|] eqn:Hs;
      [exfalso; apply Hm; eauto|].
    destruct (list_find _ qa) as [[j p]|] eqn:Hf; [|discriminate].
    injection Hfirst as <- ->. eapply IH; eauto.
Qed.

(** What is written for an answer: the answer formatted with the named
    groups of the match, and a newline. *)
Lemma render_Return a res t :
  render a res = Return t ->
  exists d a',
    decode_groupdict (groupdict res) = Return d
    /\ str_format a d = Some a'
    /\ t = a' +:+ PyStr.nl.
Proof.
  unfold render.
  destruct (decode_groupdict (groupdict res)) as [d|e] eqn:Hd;
    [|discriminate].
  destruct (str_format a d) as [a'|] eqn:Hf; [|discriminate].
  intros [= <-]. exists d, a'. repeat split; assumption.
Qed.

(** C7: the question patterns are tried first, in the order of the list,
    each with [[\s\n]*$] appended to its text, against the whole output
    read so far.  The first one found wins: no earlier one is found, and
    whatever the later questions and the wait patterns are, its current
    answer, formatted with the named groups of the match and followed by a
    newline, is written to the stdin of the process, and nothing else is;
    the call then returns [True].  When the answer cannot be taken,
    formatted or written, the call raises and nothing is written.  The wait
    patterns, with the same tail appended, are only consulted when no
    question is found, and then nothing is written. *)
Theorem answer_question_order stdout stdin_ok qa_patterns qa_wait_patterns w :
  patterns_compile (qa_patterns.*1) ->
  patterns_compile qa_wait_patterns ->
  match first_question stdout qa_patterns with
  | Some (i, (question, answers)) =>
      exists res,
        re_search ReBytes (question +:+ ws_tail) stdout = Some res
        /\ qa_patterns !! i = Some (question, answers)
        /\ (forall j p, qa_patterns !! j = Some p -> j < i ->
              re_search ReBytes (p.1 +:+ ws_tail) stdout = None)
        /\ _answer_question stdout stdin_ok qa_patterns qa_wait_patterns w
           = match current_answer w answers with
             | Some a =>
                 match render a res with
                 | Return t =>
                     if stdin_ok
                     then (Return true,
                           with_events (after_answer w answers) [EvStdin t])
                     else (Raise (EasyBuildError answer_failed_msg),
                           after_answer w answers)
                 | Raise e => (Raise e, after_answer w answers)
                 end
             | None =>
                 (Raise match answers with
                        | AnsList _ => IndexError
                        | _ => EasyBuildError
                                 (unknown_answers_msg (question +:+ ws_tail))
                        end, w)
             end
        /\ (forall a t, render a res = Return t ->
              exists d a',
                decode_groupdict (groupdict res) = Return d
                /\ str_format a d = Some a'
                /\ t = a' +:+ PyStr.nl)
  | None =>
      (forall p, p ∈ qa_patterns ->
         re_search ReBytes (p.1 +:+ ws_tail) stdout = None)
      /\ _answer_question stdout stdin_ok qa_patterns qa_wait_patterns w
         = (Return (wait_matches stdout qa_wait_patterns), w)
  end.
Proof.
  intros Hq Hw.
  destruct (first_question stdout qa_patterns) as [[i [question answers]]|]
    eqn:Hfirst.
  - destruct (answer_question_first stdout stdin_ok qa_patterns
                qa_wait_patterns w i question answers Hq Hfirst)
      as (res & Hres & Hrun).
    exists res. unfold first_question in Hfirst.
    apply list_find_Some in Hfirst as (Hi & _ & Hbefore).
    split; [exact Hres|]. split; [exact Hi|]. split; [|split].
    + intros j p Hj Hlt.
      destruct (re_search ReBytes (p.1 +:+ ws_tail) stdout) eqn:Hs;
        [|reflexivity].
      exfalso. eapply Hbefore; eauto. unfold question_matches.
      rewrite Hs. eauto.
    + rewrite Hrun.
      unfold reply, take_answer, current_answer, after_answer, pop0_append,
        heap_get, heap_set, os_write_stdin, lift, bind, ret, raise, emit.
      destruct answers as [s|l|]; cbn [fst snd head].
      * destruct (render s res) as [t|e]; [|reflexivity].
        destruct stdin_ok; reflexivity.
      * destruct (default [] (w_heap w !! l)) as [|a rest];
          cbn [fst snd head]; [reflexivity|].
        destruct (render a res) as [t|e]; [|reflexivity].
        destruct stdin_ok; reflexivity.
      * reflexivity.
    + intros a t. apply render_Return.
  - split.
    + intros p Hp. unfold first_question in Hfirst.
      apply list_find_None in Hfirst.
      rewrite Forall_forall in Hfirst. specialize (Hfirst p Hp).
      unfold question_matches in Hfirst.
      destruct (re_search ReBytes (p.1 +:+ ws_tail) stdout);
        [exfalso; apply Hfirst; eauto | reflexivity].
    + rewrite answer_question_no_match by assumption.
      now apply wait_patterns_loop_spec.
Qed.
End QAFacts.

(** C6, the code at the failing input: the answer [y\n] of a question of
    [run_shell_cmd] reaches the child as [y\n\n], since [_answer_question]
    appends a newline without looking at the end of the answer; [run_cmd_qa],
    through [process_QA], leaves such an answer as it is. *)
Theorem answer_question_second_newline :
  _answer_question (H := Literal.lib) "Proceed" true
    [("Proceed", AnsStr ("y" +:+ PyStr.nl))] [] Fixtures.w0
  = (Return true,
     with_events Fixtures.w0 [EvStdin ("y" +:+ PyStr.nl +:+ PyStr.nl)])
  /\ newline_terminate ["y" +:+ PyStr.nl; "n"]
     = ["y" +:+ PyStr.nl; "n" +:+ PyStr.nl].
Proof. split; vm_compute; reflexivity. Qed.

(** ** Rotating answer lists *)




Lemma rotate_step {A} (L : list A) c a rest :
  rotate c L = a :: rest ->
  L !! (c mod length L) = Some a /\ rotate (S c) L = rest ++ [a].
Proof.
  unfold rotate. intros Hrot.
  assert (HN : 0 < length L).
  { destruct L; [rewrite drop_nil, take_nil in Hrot; discriminate|].
    cbn. lia. }
  pose proof (Nat.mod_upper_bound c (length L) ltac:(lia)) as Hk.
  set (k := c mod length L) in *.
  destruct (lookup_lt_is_Some_2 L k Hk) as [x Hx].
  rewrite (drop_S _ _ _ Hx) in Hrot. cbn [app] in Hrot.
  injection Hrot as -> <-.
  split; [exact Hx|].
  replace (S c mod length L) with (S k mod length L).
  2:{ unfold k. replace (S (c mod length L)) with (c mod length L + 1) by lia.
      rewrite Nat.Div0.add_mod_idemp_l. f_equal. lia. }
  destruct (decide (S k < length L)) as [Hlt|Hge].
  - rewrite Nat.mod_small by exact Hlt.
    rewrite (take_S_r _ _ _ Hx). now rewrite app_assoc.
  - assert (Heq : S k = length L) by lia.
    rewrite Heq, Nat.Div0.mod_same. cbn [drop take].
    rewrite drop_all, app_nil_r. cbn [app].
    rewrite <- (take_S_r _ _ _ Hx), Heq. now rewrite firstn_all.
Qed.



Section Rotation.
Context `{PyLib}.
Variable env : Env.


(** A turn of the output loop without timeout and with questions: the
    output is drained, then the questions are tried. *)
Lemma output_cycle_qa args child c proc cy stdout stderr_ tnm w :
  timeout args = None ->
  qa_patterns args <> [] ->
  output_cycle args child c proc cy (stdout, stderr_, tnm) w
  = bind
      (bind (_answer_question (drain (stdout_reads cy) stdout) (stdin_ok cy)
               (qa_patterns args) (qa_wait_patterns args))
         (fun matched : bool =>
            if matched then ret 0%float
            else if float_gt (tnm + check_interval_secs)%float
                      (qa_timeout args)
                 then raise (EasyBuildError no_match_msg)
                 else ret (tnm + check_interval_secs)%float))
      (fun tnm' =>
         ret (drain (stdout_reads cy) stdout,
              if split_stderr args then drain (stderr_reads cy) stderr_
              else stderr_,
              tnm')) w.
Proof.
  intros Ht Hne. unfold output_cycle. rewrite Ht. cbn [timeout_expired].
  destruct (qa_patterns args); [contradiction|reflexivity].
Qed.


(** The same rotation in [run_cmd_qa], whose dicts hold the lists
    themselves: a question that is found, with answers rotated [c] times,
    sends element [c mod N] and leaves the list rotated once more. *)
Lemma legacy_answer_loop_rotates stdout_err q (L : list string) rest res
    (f : string -> string) c w :
  L <> [] ->
  re_search ReStr q stdout_err = Some res ->
  (forall a, a ∈ L -> str_format a (groupdict res) = Some (f a)) ->
  Legacy.answer_loop true stdout_err ((q, rotate c L) :: rest) w
  = (Return (Some ((q, rotate (S c) L) :: rest)),
     with_events w [EvStdin (f (answer_at L c))]).
Proof.
  intros HL Hres Hf. cbn [Legacy.answer_loop]. rewrite Hres.
  destruct (rotate c L) as [|a0 others] eqn:Hrot.
  - exfalso. apply HL. apply length_zero_iff_nil.
    rewrite <- (length_rotate L c), Hrot. reflexivity.
  - apply rotate_step in Hrot as [Ha Hnext].
    assert (Hin : a0 ∈ L) by (eapply list_elem_of_lookup_2; eauto).
    rewrite (Hf _ Hin), Hnext. unfold answer_at. rewrite Ha.
    reflexivity.
Qed.

End Rotation.


(** Three questions and the output [Proceed ]: [Configure] is not found,
    [ceed] and [Proceed] both are, and so is the wait pattern.  The answer
    of [ceed], the first one found, is written, and nothing else. *)
Lemma answer_question_order_witness :
  re_search (PyLib := Literal.lib) ReBytes ("Configure" +:+ ws_tail)
    "Proceed " = None
  /\ is_Some (re_search (PyLib := Literal.lib) ReBytes ("ceed" +:+ ws_tail)
                "Proceed ")
  /\ is_Some (re_search (PyLib := Literal.lib) ReBytes
                ("Proceed" +:+ ws_tail) "Proceed ")
  /\ wait_matches (H := Literal.lib) "Proceed " ["Proceed"] = true
  /\ _answer_question (H := Literal.lib) "Proceed " true
       [("Configure", AnsStr "c"); ("ceed", AnsStr "y");
        ("Proceed", AnsStr "n")]
       ["Proceed"] Fixtures.w0
     = (Return true, with_events Fixtures.w0 [EvStdin ("y" +:+ PyStr.nl)]).
Proof.
  split; [reflexivity|]. split; [eexists; reflexivity|].
  split; [eexists; reflexivity|]. split; [reflexivity|].
  pose proof (answer_question_order (H := Literal.lib) "Proceed " true
                [("Configure", AnsStr "c"); ("ceed", AnsStr "y");
                 ("Proceed", AnsStr "n")]
                ["Proceed"] Fixtures.w0
                ltac:(repeat constructor) ltac:(repeat constructor))
    as Hthm.
  assert (Hfirst : first_question (H := Literal.lib) "Proceed "
                     [("Configure", AnsStr "c"); ("ceed", AnsStr "y");
                      ("Proceed", AnsStr "n")]
                   = Some (1, ("ceed", AnsStr "y")))
    by (vm_compute; reflexivity).
  rewrite Hfirst in Hthm. destruct Hthm as (res & Hres & _ & _ & Hrun & _).
  rewrite Hrun. cbn [current_answer after_answer].
  destruct res as [gd gs]. vm_compute in Hres. injection Hres as <- <-.
  reflexivity.
Defined.

(** ** Output classifier *)





Section ClassifierFacts.
Context `{PyLib}.

Lemma classification_nil line : classification [] line = None.
Proof. reflexivity. Qed.





End ClassifierFacts.


(** ** Frames: what a computation leaves alone *)

Section Frames.
Variable R : World -> World -> Prop.
Variable E : PyExc -> Prop.
Hypothesis R_refl : forall w, R w w.
Hypothesis R_trans : forall w1 w2 w3, R w1 w2 -> R w2 w3 -> R w1 w3.

Lemma frames_ret {A} (a : A) : frames R E (ret a).
Proof using R_refl. intros w. split; [apply R_refl|discriminate]. Qed.

Lemma frames_raise {A} e : E e -> frames R E (raise (A := A) e).
Proof using R_refl.
  intros He w. split; [apply R_refl|]. intros e' [= <-]. exact He.
Qed.


Lemma frames_bind {A B} (m : M A) (k : A -> M B) :
  frames R E m -> (forall a, frames R E (k a)) -> frames R E (bind m k).
Proof using R_trans.
  intros Hm Hk w. unfold bind. destruct (Hm w) as [HR HE].
  destruct (m w) as [[a|e] w1]; cbn [fst snd] in *.
  - destruct (Hk a w1) as [HR' HE'].
    split; [eapply R_trans; eauto|exact HE'].
  - split; [exact HR|]. intros e' [= <-]. now apply HE.
Qed.

Lemma frames_when (b : bool) (m : M unit) :
  frames R E m -> frames R E (when b m).
Proof using R_refl. destruct b; [auto|intros _; apply frames_ret]. Qed.

Lemma frames_getcwd : frames R E getcwd.
Proof using R_refl. intros w. split; [apply R_refl|discriminate]. Qed.

Lemma frames_heap_get l : frames R E (heap_get l).
Proof using R_refl. intros w. split; [apply R_refl|discriminate]. Qed.

Lemma frames_get_strictness : frames R E get_strictness.
Proof using R_refl. intros w. split; [apply R_refl|discriminate]. Qed.

Lemma frames_emit e :
  (forall w, R w (with_events w [e])) -> frames R E (emit e).
Proof. intros He w. split; [apply He|discriminate]. Qed.

Lemma frames_heap_set l v :
  (forall w, R w (with_list w l v)) -> frames R E (heap_set l v).
Proof. intros He w. split; [apply He|discriminate]. Qed.

Lemma frames_add_errors_found n :
  (forall w, R w (with_more_errors w n)) -> frames R E (add_errors_found n).
Proof. intros He w. split; [apply He|discriminate]. Qed.
End Frames.

(** The steps of a proof that a computation built from binds, tests and
    the primitives above is framed; [Hrefl] and [Htrans] are the proofs that
    the relation is reflexive and transitive. *)
Ltac frames_step Hrefl Htrans :=
  first
    [ apply (frames_bind _ _ Htrans); [|intros]
    | apply (frames_ret _ _ Hrefl)
    | apply (frames_when _ _ Hrefl)
    | apply (frames_getcwd _ _ Hrefl)
    | apply (frames_heap_get _ _ Hrefl)
    | apply (frames_get_strictness _ _ Hrefl)
    | match goal with
      | |- frames _ _ (match ?x with _ => _ end) => destruct x
      | |- frames _ _ (if ?b then _ else _) => destruct b
      end ].

(** ** The error of a failed command *)

Lemma anywhere_refl w : anywhere w w.
Proof. exact I. Qed.

Lemma anywhere_trans w1 w2 w3 : anywhere w1 w2 -> anywhere w2 w3 -> anywhere w1 w3.
Proof. intros _ _. exact I. Qed.




Section ErrorFacts.
Context `{PyLib}.
Variable env : Env.





End ErrorFacts.

Lemma post_bind_Return {A B} (m : M A) (k : A -> M B)
    (Q : Outcome B -> World -> Prop) w a w1 :
  m w = (Return a, w1) -> post (k a) Q w1 -> post (bind m k) Q w.
Proof. intros Hm Hk. unfold post. now rewrite (bind_Return _ _ _ _ _ Hm). Qed.

Lemma post_bind_cases {A B} (m : M A) (k : A -> M B)
    (P : Outcome B -> World -> Prop) w :
  (forall a w1, m w = (Return a, w1) -> post (k a) P w1) ->
  (forall e w1, m w = (Raise e, w1) -> P (Raise e) w1) ->
  post (bind m k) P w.
Proof.
  intros Hk HP. unfold post, bind.
  destruct (m w) as [[a|e] w1]; cbn [fst snd]; [now apply Hk|now apply HP].
Qed.

Section ErrorRaised.
Context `{PyLib}.
Variable env : Env.

End ErrorRaised.

(** ** The working directory is restored *)

Lemma same_cwd_refl w : same_cwd w w.
Proof. reflexivity. Qed.

Lemma same_cwd_trans w1 w2 w3 : same_cwd w1 w2 -> same_cwd w2 w3 -> same_cwd w1 w3.
Proof. unfold same_cwd. congruence. Qed.

(** Closes the goals that remain after [frames_step] when the relation is
    [same_cwd] and any exception is allowed. *)
Ltac keeps_cwd :=
  repeat first
    [ solve [auto 2]
    | frames_step same_cwd_refl same_cwd_trans
    | apply (frames_raise _ _ same_cwd_refl); exact I
    | apply frames_emit; intros; reflexivity
    | apply frames_heap_set; intros; reflexivity
    | apply frames_add_errors_found; intros; reflexivity ].

Lemma post_bind_any {A B} (m : M A) (k : A -> M B)
    (P : Outcome B -> World -> Prop) w :
  (forall a w1, post (k a) P w1) ->
  (forall e w1, P (Raise e) w1) ->
  post (bind m k) P w.
Proof.
  intros Hk HP. unfold post, bind.
  destruct (m w) as [[a|e] w1]; cbn [fst snd]; [apply Hk|apply HP].
Qed.

Lemma post_bind_framed {A B} R E (m : M A) (k : A -> M B)
    (P : Outcome B -> World -> Prop) w :
  frames R E m ->
  (forall a w1, R w w1 -> post (k a) P w1) ->
  (forall e w1, R w w1 -> E e -> P (Raise e) w1) ->
  post (bind m k) P w.
Proof.
  intros Hm Hk HP. unfold post, bind. destruct (Hm w) as [HR HE].
  destruct (m w) as [[a|e] w1]; cbn [fst snd] in *.
  - now apply Hk.
  - apply HP; [exact HR|]. now apply HE.
Qed.

Section CwdFacts.
Context `{PyLib}.
Variable env : Env.

Lemma parse_cmd_output_same_cwd c stdouterr ec simple_ log_all_ log_ok_ regexp_ :
  frames same_cwd any_exc
    (Legacy.parse_cmd_output c stdouterr ec simple_ log_all_ log_ok_ regexp_).
Proof.
  unfold Legacy.parse_cmd_output, Legacy.parse_log_for_error. keeps_cwd.
Qed.

(** The end of [complete_cmd] and of [run_cmd_qa]: back to [owd], then the
    output is parsed; or the error that says that [owd] could not be
    returned to. *)
Lemma chdir_back_post c owd stdouterr ec simple_ log_all_ log_ok_ regexp_ w :
  post (back <- chdir env owd ;;
        if (back : bool)
        then Legacy.parse_cmd_output c stdouterr ec simple_ log_all_ log_ok_
               regexp_
        else raise (EasyBuildError (Legacy.return_failed_msg owd)))
    (fun o w' =>
       match o with
       | Return _ => w_cwd w' = owd /\ chdir_ok env owd = true
       | Raise e =>
           chdir_ok env owd = false
           -> e = EasyBuildError (Legacy.return_failed_msg owd)
       end) w.
Proof.
  unfold chdir. destruct (chdir_ok env owd) eqn:Hok.
  - set (W := {| w_cwd := owd; w_trace := w_trace w ++ [EvChdir owd];
                 w_heap := w_heap w; w_strictness := w_strictness w;
                 w_errors_found_in_log := w_errors_found_in_log w |}).
    change (post (Legacy.parse_cmd_output c stdouterr ec simple_ log_all_
                    log_ok_ regexp_)
              (fun o w' =>
                 match o with
                 | Return _ => w_cwd w' = owd /\ true = true
                 | Raise e =>
                     true = false
                     -> e = EasyBuildError (Legacy.return_failed_msg owd)
                 end) W).
    pose proof (parse_cmd_output_same_cwd c stdouterr ec simple_ log_all_
                  log_ok_ regexp_ W) as [Hcwd _].
    unfold post.
    destruct (Legacy.parse_cmd_output _ _ _ _ _ _ _ _) as [[o|e] w6];
      cbn [fst snd] in *.
    + split; [exact Hcwd|reflexivity].
    + discriminate.
  - unfold post, bind, ret, raise. cbn [fst snd]. reflexivity.
Qed.

(** [complete_cmd] ends in [owd], or in the error that says that it could
    not return there. *)
Lemma complete_cmd_restores child c owd cmd_log log_ok_ log_all_ simple_
    regexp_ stream_output_ trace_ output with_hook w :
  match (Legacy.complete_cmd env child c owd cmd_log log_ok_ log_all_ simple_
           regexp_ stream_output_ trace_ output with_hook w).1 with
  | Return _ =>
      w_cwd (Legacy.complete_cmd env child c owd cmd_log log_ok_ log_all_
               simple_ regexp_ stream_output_ trace_ output with_hook w).2
      = owd
      /\ chdir_ok env owd = true
  | Raise e =>
      chdir_ok env owd = false
      -> e = EasyBuildError (Legacy.return_failed_msg owd)
  end.
Proof.
  set (P := fun (o : Outcome CmdOutput) (w' : World) =>
              match o with
              | Return _ => w_cwd w' = owd /\ chdir_ok env owd = true
              | Raise e =>
                  chdir_ok env owd = false
                  -> e = EasyBuildError (Legacy.return_failed_msg owd)
              end).
  change (post (Legacy.complete_cmd env child c owd cmd_log log_ok_ log_all_
                  simple_ regexp_ stream_output_ trace_ output with_hook) P w).
  assert (Hloop : forall reads acc,
             frames anywhere (fun _ => False)
               (Legacy.complete_loop cmd_log (default false stream_output_)
                  reads acc)).
  { induction reads as [|d ds IH]; intros acc; cbn [Legacy.complete_loop].
    - apply (frames_ret _ _ anywhere_refl).
    - repeat first
        [ solve [auto 2]
        | frames_step anywhere_refl anywhere_trans
        | apply frames_emit; intros; exact I ]. }
  assert (Hnever : forall (e : PyExc) w1, anywhere w w1 -> False -> P (Raise e) w1)
    by (intros ? ? _ []).
  unfold Legacy.complete_cmd.
  eapply post_bind_framed; [apply Hloop| |exact Hnever]. intros stdouterr w1 _.
  eapply (post_bind_framed anywhere (fun _ => False)).
  { destruct cmd_log; [apply frames_emit; intros; exact I
                      |apply (frames_ret _ _ anywhere_refl)]. }
  2:{ intros ? ? _ []. }
  intros _ w2 _.
  eapply (post_bind_framed anywhere (fun _ => False)).
  { apply (frames_when _ _ anywhere_refl). apply frames_emit; intros; exact I. }
  2:{ intros ? ? _ []. }
  intros _ w3 _.
  eapply (post_bind_framed anywhere (fun _ => False)).
  { apply (frames_when _ _ anywhere_refl). apply frames_emit; intros; exact I. }
  2:{ intros ? ? _ []. }
  intros _ w4 _.
  eapply (post_bind_framed anywhere (fun _ => False)).
  { apply (frames_when _ _ anywhere_refl). apply frames_emit; intros; exact I. }
  2:{ intros ? ? _ []. }
  intros _ w5 _.
  apply chdir_back_post.
Qed.

Lemma open_cmd_log_same_cwd wanted prefix :
  frames same_cwd any_exc (Legacy.open_cmd_log env wanted prefix).
Proof. unfold Legacy.open_cmd_log. keeps_cwd. Qed.

Lemma run_cmd_restores child c args w :
  Legacy.asynchronous args = false ->
  match (Legacy.run_cmd env child c args w).1 with
  | Return _ =>
      w_cwd (Legacy.run_cmd env child c args w).2 = w_cwd w
      /\ (negb (Legacy.force_in_dry_run args) && opt_extended_dry_run env = true
          \/ chdir_ok env (w_cwd w) = true)
  | Raise _ => True
  end.
Proof.
  intros Hsync.
  set (dry := negb (Legacy.force_in_dry_run args) && opt_extended_dry_run env).
  set (P := fun (o : Outcome Legacy.RunCmdResult) (w' : World) =>
              match o with
              | Return _ =>
                  w_cwd w' = w_cwd w
                  /\ (dry = true \/ chdir_ok env (w_cwd w) = true)
              | Raise _ => True
              end).
  change (post (Legacy.run_cmd env child c args) P w).
  assert (HP : forall e w1, P (Raise e) w1) by (intros; exact I).
  pose proof open_cmd_log_same_cwd as Hopen.
  unfold Legacy.run_cmd.
  eapply post_bind_Return; [reflexivity|].
  eapply (post_bind_framed same_cwd any_exc); [keeps_cwd| |auto].
  intros shell_ w1 Hw1.
  eapply (post_bind_framed same_cwd any_exc); [keeps_cwd| |auto].
  intros cmd_log w2 Hw2.
  eapply (post_bind_framed same_cwd any_exc); [keeps_cwd| |auto].
  intros _ w3 Hw3.
  eapply (post_bind_framed same_cwd any_exc); [keeps_cwd| |auto].
  intros _ w4 Hw4.
  assert (Hcwd4 : w_cwd w4 = w_cwd w) by (unfold same_cwd in *; congruence).
  fold dry. destruct dry eqn:Hdry.
  - eapply (post_bind_framed same_cwd any_exc); [keeps_cwd| |auto].
    intros _ w5 Hw5.
    assert (Hcwd5 : w_cwd w5 = w_cwd w) by (unfold same_cwd in *; congruence).
    destruct (Legacy.simple args); unfold post, ret, P; cbn [fst snd]; auto.
  - apply post_bind_any; [|exact HP]. intros _ w5.
    apply post_bind_any; [|exact HP]. intros _ w6.
    apply post_bind_any; [|exact HP]. intros c' w7.
    apply post_bind_any; [|exact HP]. intros _ w8.
    apply post_bind_any; [|exact HP]. intros _ w9.
    rewrite Hsync.
    pose proof (complete_cmd_restores child c' (w_cwd w) cmd_log
                  (Legacy.log_ok args) (Legacy.log_all args)
                  (Legacy.simple args) (Legacy.regexp args)
                  (match Legacy.stream_output args with
                   | Some b => Some b
                   | None => if opt_logtostdout env then Some true else None
                   end)
                  (Legacy.trace args) EmptyString (Legacy.with_hooks args) w9)
      as Hrest.
    unfold post, bind.
    destruct (Legacy.complete_cmd _ _ _ _ _ _ _ _ _ _ _ _ _ _) as [[o|e] w10];
      cbn [fst snd] in *; [|exact I].
    unfold P, ret. cbn [fst snd]. tauto.
Qed.

Lemma run_cmd_qa_restores child c args w :
  match (Legacy.run_cmd_qa env child c args w).1 with
  | Return _ =>
      w_cwd (Legacy.run_cmd_qa env child c args w).2 = w_cwd w
      /\ (opt_extended_dry_run env = true \/ chdir_ok env (w_cwd w) = true)
  | Raise _ => True
  end.
Proof.
  set (P := fun (o : Outcome CmdOutput) (w' : World) =>
              match o with
              | Return _ =>
                  w_cwd w' = w_cwd w
                  /\ (opt_extended_dry_run env = true
                      \/ chdir_ok env (w_cwd w) = true)
              | Raise _ => True
              end).
  change (post (Legacy.run_cmd_qa env child c args) P w).
  assert (HP : forall e w1, P (Raise e) w1) by (intros; exact I).
  pose proof open_cmd_log_same_cwd as Hopen.
  unfold Legacy.run_cmd_qa.
  eapply post_bind_Return; [reflexivity|].
  eapply (post_bind_framed same_cwd any_exc).
  { destruct c as [s|[|a [|b l]]]; keeps_cwd. }
  2:{ auto. }
  intros _ w1 Hw1.
  eapply (post_bind_framed same_cwd any_exc); [keeps_cwd| |auto].
  intros cmd_log w2 Hw2.
  eapply (post_bind_framed same_cwd any_exc); [keeps_cwd| |auto].
  intros _ w3 Hw3.
  assert (Hcwd3 : w_cwd w3 = w_cwd w) by (unfold same_cwd in *; congruence).
  destruct (opt_extended_dry_run env) eqn:Hdry.
  - eapply (post_bind_framed same_cwd any_exc); [keeps_cwd| |auto].
    intros _ w4 Hw4.
    eapply (post_bind_framed same_cwd any_exc); [keeps_cwd| |auto].
    intros _ w5 Hw5.
    assert (Hcwd5 : w_cwd w5 = w_cwd w) by (unfold same_cwd in *; congruence).
    destruct (Legacy.qa_simple args); unfold post, ret, P; cbn [fst snd]; auto.
  - apply post_bind_any; [|exact HP]. intros _ w4.
    apply post_bind_any; [|exact HP]. intros new_qa_ w5.
    apply post_bind_any; [|exact HP]. intros new_std_qa_ w6.
    apply post_bind_any; [|exact HP]. intros new_no_qa w7.
    apply post_bind_any; [|exact HP]. intros _ w8.
    cbv zeta.
    apply post_bind_any; [|exact HP]. intros _ w9.
    apply post_bind_any; [|exact HP]. intros _ w10.
    apply post_bind_any; [|exact HP]. intros st w11.
    apply post_bind_any; [|exact HP]. intros _ w12.
    apply post_bind_any; [|exact HP]. intros _ w13.
    apply post_bind_any; [|exact HP]. intros _ w14.
    match goal with
    | |- post (bind (chdir env (w_cwd w)) ?k) _ _ =>
        match k with
        | (fun back => if _ then Legacy.parse_cmd_output ?c' ?out ?ec ?si ?la ?lo ?re
                       else _) =>
            pose proof (chdir_back_post c' (w_cwd w) out ec si la lo re w14)
              as Hback
        end
    end.
    unfold post in *.
    match goal with
    | |- P (?m ?x).1 (?m ?x).2 => destruct (m x) as [[o|e] w15]
    end; cbn [fst snd] in *; [|exact I].
    unfold P. tauto.
Qed.

(** C9: when a synchronous [run_cmd], or a [run_cmd_qa], returns, the
    working directory is the one the call started in, whatever directory
    [path] names; and outside of a dry run, which never leaves the
    directory, the call can only return if going back to the original
    directory succeeded.  In [complete_cmd], a failure to go back to [owd]
    always ends in the EasyBuildError that says so. *)
Theorem cwd_restored child qa_child c run_args qa_args cmd_log output w :
  Legacy.asynchronous run_args = false ->
  (match (Legacy.run_cmd env child c run_args w).1 with
   | Return _ =>
       w_cwd (Legacy.run_cmd env child c run_args w).2 = w_cwd w
       /\ (negb (Legacy.force_in_dry_run run_args) && opt_extended_dry_run env
           = true
           \/ chdir_ok env (w_cwd w) = true)
   | Raise _ => True
   end)
  /\ (match (Legacy.run_cmd_qa env qa_child c qa_args w).1 with
      | Return _ =>
          w_cwd (Legacy.run_cmd_qa env qa_child c qa_args w).2 = w_cwd w
          /\ (opt_extended_dry_run env = true
              \/ chdir_ok env (w_cwd w) = true)
      | Raise _ => True
      end)
  /\ (forall owd,
        chdir_ok env owd = false ->
        (Legacy.complete_cmd env child c owd cmd_log (Legacy.log_ok run_args)
           (Legacy.log_all run_args) (Legacy.simple run_args)
           (Legacy.regexp run_args) (Legacy.stream_output run_args)
           (Legacy.trace run_args) output (Legacy.with_hooks run_args) w).1
        = Raise (EasyBuildError (Legacy.return_failed_msg owd))).
Proof.
  intros Hsync. split; [now apply run_cmd_restores|].
  split; [apply run_cmd_qa_restores|].
  intros owd Hfail.
  pose proof (complete_cmd_restores child c owd cmd_log
                (Legacy.log_ok run_args) (Legacy.log_all run_args)
                (Legacy.simple run_args) (Legacy.regexp run_args)
                (Legacy.stream_output run_args) (Legacy.trace run_args)
                output (Legacy.with_hooks run_args) w) as Hrest.
  destruct (Legacy.complete_cmd _ _ _ _ _ _ _ _ _ _ _ _ _ _) as [[o|e] w'];
    cbn [fst snd] in *.
  - destruct Hrest as [_ Hok]. congruence.
  - f_equal. now apply Hrest.
Qed.
End CwdFacts.

(** [make] run in [/build] from [/home/user]: the call returns in
    [/home/user]. *)
Lemma cwd_restored_witness :
  Legacy.asynchronous Fixtures.in_build_dir = false
  /\ Legacy.path Fixtures.in_build_dir = Some "/build"
  /\ w_cwd (Legacy.run_cmd (H := Literal.lib) Fixtures.env0
              Fixtures.legacy_child (CmdStr "make") Fixtures.in_build_dir
              Fixtures.w0).2
     = w_cwd Fixtures.w0
  /\ (negb (Legacy.force_in_dry_run Fixtures.in_build_dir)
      && opt_extended_dry_run Fixtures.env0 = true
      \/ chdir_ok Fixtures.env0 (w_cwd Fixtures.w0) = true).
Proof.
  split; [reflexivity|]. split; [reflexivity|].
  vm_cast_no_check
    (proj1 (cwd_restored (H := Literal.lib) Fixtures.env0 Fixtures.legacy_child
              (Fixtures.qa_child []) (CmdStr "make") Fixtures.in_build_dir
              (Fixtures.run_cmd_qa_args [] 50 None) None EmptyString
              Fixtures.w0 eq_refl)).
Defined.

(** ** Stalled interactive commands *)

Lemma proc_actions_app t1 t2 :
  proc_actions (t1 ++ t2) = proc_actions t1 ++ proc_actions t2.
Proof. unfold proc_actions. apply omap_app. Qed.

Lemma same_proc_refl w : same_proc w w.
Proof. reflexivity. Qed.

Lemma same_proc_trans w1 w2 w3 :
  same_proc w1 w2 -> same_proc w2 w3 -> same_proc w1 w3.
Proof. unfold same_proc. congruence. Qed.

Lemma same_proc_emit e w :
  proc_actions [e] = [] -> same_proc w (with_events w [e]).
Proof.
  intros He. unfold same_proc, with_events. cbn [w_trace].
  rewrite proc_actions_app, He. apply app_nil_r.
Qed.

(** Closes the goals that remain after [frames_step] when the relation is
    [same_proc] and the stall error is excluded. *)
Ltac quiet :=
  repeat first
    [ solve [auto 2]
    | frames_step same_proc_refl same_proc_trans
    | apply (frames_raise _ _ same_proc_refl); solve [exact I | reflexivity]
    | apply frames_emit; intros; apply same_proc_emit; reflexivity
    | apply frames_heap_set; intros; reflexivity
    | apply frames_add_errors_found; intros; reflexivity ].

Lemma prefix_append s t : String.prefix s (s +:+ t) = true.
Proof.
  induction s as [|a s IH]; [destruct t; reflexivity|].
  change (String a s +:+ t) with (String a (s +:+ t)).
  change (String.prefix (String a s) (String a (s +:+ t)))
    with (if ascii_dec a a then String.prefix s (s +:+ t) else false).
  destruct (ascii_dec a a); [exact IH|contradiction].
Qed.

Section StallFacts.
Context `{PyLib}.
Variable env : Env.

Lemma chdir_quiet p : frames same_proc not_stall (chdir env p).
Proof.
  unfold chdir. destruct (chdir_ok env p); [|quiet].
  intros w. split; [|discriminate].
  unfold bind, set_cwd, ret, same_proc. cbn [fst snd w_trace].
  rewrite proc_actions_app. apply app_nil_r.
Qed.

Lemma parse_cmd_output_quiet c stdouterr ec simple_ log_all_ log_ok_ regexp_ :
  frames same_proc not_stall
    (Legacy.parse_cmd_output c stdouterr ec simple_ log_all_ log_ok_ regexp_).
Proof.
  unfold Legacy.parse_cmd_output, Legacy.parse_log_for_error. quiet.
Qed.

Lemma open_cmd_log_quiet wanted prefix :
  frames same_proc not_stall (Legacy.open_cmd_log env wanted prefix).
Proof. unfold Legacy.open_cmd_log. quiet. Qed.

Lemma try_chdir_quiet p : frames same_proc not_stall (Legacy.try_chdir env p).
Proof. pose proof chdir_quiet. unfold Legacy.try_chdir. quiet. Qed.

Lemma build_new_qa_quiet qa_ acc :
  frames same_proc not_stall (Legacy.build_new_qa qa_ acc).
Proof.
  revert acc. induction qa_ as [|[q a] rest IH]; intros acc;
    cbn [Legacy.build_new_qa];
    unfold Legacy.check_answers_list, Legacy.process_QA; quiet.
Qed.

Lemma build_new_std_qa_quiet std_qa_ acc :
  frames same_proc not_stall (Legacy.build_new_std_qa std_qa_ acc).
Proof.
  revert acc. induction std_qa_ as [|[q a] rest IH]; intros acc;
    cbn [Legacy.build_new_std_qa]; unfold Legacy.check_answers_list; quiet.
Qed.

Lemma build_new_no_qa_quiet no_qa_ :
  frames same_proc not_stall (Legacy.build_new_no_qa no_qa_).
Proof.
  induction no_qa_ as [|x rest IH]; cbn [Legacy.build_new_no_qa]; quiet.
Qed.

Lemma answer_loop_quiet out_truthy stdout_err_ d :
  frames same_proc not_stall (Legacy.answer_loop out_truthy stdout_err_ d).
Proof.
  induction d as [|[q a] rest IH]; cbn [Legacy.answer_loop]; quiet.
Qed.

(** One turn of the loop of [run_cmd_qa]: it ends with the count of
    unmatched turns within [maxhits] and the child untouched, or it kills
    the child and raises the stall error. *)
Lemma qa_cycle_post child c cmd_log new_no_qa maxhits_ recv st w :
  match Legacy.qa_cycle child c cmd_log new_no_qa maxhits_ recv st w with
  | (Return st', w') => (Legacy.hit_count st' <= maxhits_)%Z /\ same_proc w w'
  | (Raise (EasyBuildError msg), w') =>
      msg = Legacy.max_nohits_msg (Legacy.cmd_to_text c) maxhits_
      /\ proc_actions (w_trace w')
         = proc_actions (w_trace w) ++ kill_actions child
  | (Raise _, w') => same_proc w w'
  end.
Proof.
  set (P := fun (o : Outcome Legacy.QaState) (w' : World) =>
              match o with
              | Return st' =>
                  (Legacy.hit_count st' <= maxhits_)%Z /\ same_proc w w'
              | Raise (EasyBuildError msg) =>
                  msg = Legacy.max_nohits_msg (Legacy.cmd_to_text c) maxhits_
                  /\ proc_actions (w_trace w')
                     = proc_actions (w_trace w) ++ kill_actions child
              | Raise _ => same_proc w w'
              end).
  set (E := fun e : PyExc =>
              match e with EasyBuildError _ => False | _ => True end).
  assert (HP : forall e w1, same_proc w w1 -> E e -> P (Raise e) w1).
  { intros [] w1 Hs He; try exact Hs. destruct He. }
  assert (Hal : forall b s d, frames same_proc E (Legacy.answer_loop b s d)).
  { intros b s d. induction d as [|[q a] rest IH];
      cbn [Legacy.answer_loop];
      repeat first
        [ solve [auto 2]
        | frames_step same_proc_refl same_proc_trans
        | apply (frames_raise _ _ same_proc_refl); exact I
        | apply frames_emit; intros; apply same_proc_emit; reflexivity ]. }
  enough (Hpost : post (Legacy.qa_cycle child c cmd_log new_no_qa maxhits_
                          recv st) P w).
  { unfold post in Hpost.
    destruct (Legacy.qa_cycle _ _ _ _ _ _ _ _) as [[st'|e] w'].
    - exact Hpost.
    - destruct e; exact Hpost. }
  unfold Legacy.qa_cycle.
  eapply (post_bind_framed same_proc E); [|clear HP|exact HP].
  { destruct cmd_log, (ascii_ignore <$> recv);
      repeat first
        [ frames_step same_proc_refl same_proc_trans
        | apply frames_emit; intros; apply same_proc_emit; reflexivity ]. }
  intros _ w1 Hw1.
  assert (HP1 : forall e w2, same_proc w1 w2 -> E e -> P (Raise e) w2).
  { intros [] w2 Hs He; try (eapply same_proc_trans; eassumption).
    destruct He. }
  eapply (post_bind_framed same_proc E); [apply Hal| |exact HP1].
  intros hit1 w2 Hw2.
  assert (Hw02 : same_proc w w2) by (eapply same_proc_trans; eassumption).
  assert (HP2 : forall e w3, same_proc w2 w3 -> E e -> P (Raise e) w3).
  { intros [] w3 Hs He; try (eapply same_proc_trans; eassumption).
    destruct He. }
  eapply (post_bind_framed same_proc E); [| |exact HP2].
  { destruct hit1; [apply (frames_ret _ _ same_proc_refl)|].
    apply (frames_bind _ _ same_proc_trans); [apply Hal|].
    intros hit2. destruct hit2; [apply (frames_ret _ _ same_proc_refl)|].
    destruct (Z.ltb _ _); apply (frames_ret _ _ same_proc_refl). }
  intros st' w3 Hw3.
  assert (Hw03 : same_proc w w3) by (eapply same_proc_trans; eassumption).
  destruct (Z.ltb maxhits_ (Legacy.hit_count st')) eqn:Hlt.
  - unfold post, P, Legacy.kill_child, kill_actions, bind, when, emit, ret,
      raise.
    unfold same_proc in Hw03.
    destruct (Legacy.killpg_ok child), (Legacy.kill_ok child);
      cbn [fst snd w_trace]; split; try reflexivity;
      rewrite ?proc_actions_app, Hw03; rewrite <- ?app_assoc;
      rewrite ?app_nil_r; reflexivity.
  - apply Z.ltb_ge in Hlt. unfold post, ret, P. cbn [fst snd].
    split; [exact Hlt|exact Hw03].
Qed.

Lemma qa_loop_post child c cmd_log new_no_qa maxhits_ rs st w :
  match Legacy.qa_loop child c cmd_log new_no_qa maxhits_ rs st w with
  | (Return _, w') => same_proc w w'
  | (Raise (EasyBuildError msg), w') =>
      msg = Legacy.max_nohits_msg (Legacy.cmd_to_text c) maxhits_
      /\ proc_actions (w_trace w')
         = proc_actions (w_trace w) ++ kill_actions child
  | (Raise _, w') => same_proc w w'
  end.
Proof.
  revert st w. induction rs as [|recv rest IH]; intros st w;
    cbn [Legacy.qa_loop].
  - reflexivity.
  - unfold bind.
    pose proof (qa_cycle_post child c cmd_log new_no_qa maxhits_ recv st w)
      as Hcy.
    destruct (Legacy.qa_cycle _ _ _ _ _ _ _ _) as [[st'|e] w1].
    + destruct Hcy as [_ Hsame]. specialize (IH st' w1).
      destruct (Legacy.qa_loop _ _ _ _ _ _ _ _) as [[st''|e] w2].
      * eapply same_proc_trans; eauto.
      * destruct e; try (eapply same_proc_trans; eauto).
        destruct IH as [-> IH]. split; [reflexivity|].
        rewrite IH. f_equal. exact Hsame.
    + exact Hcy.
Qed.

Lemma post_bind_quiet {A B} (m : M A) (k : A -> M B)
    (P : Outcome B -> World -> Prop) w0 w :
  same_proc w0 w ->
  frames same_proc not_stall m ->
  (forall a w1, same_proc w0 w1 -> post (k a) P w1) ->
  (forall e w1, same_proc w0 w1 -> not_stall e -> P (Raise e) w1) ->
  post (bind m k) P w.
Proof.
  intros Hs Hm Hk HP. eapply (post_bind_framed same_proc not_stall).
  - exact Hm.
  - intros a w1 Hw1. apply Hk. eapply same_proc_trans; eassumption.
  - intros e w1 Hw1 He. apply HP; [|exact He].
    eapply same_proc_trans; eassumption.
Qed.

Lemma post_of_quiet {A} (m : M A) (P : Outcome A -> World -> Prop) w0 w :
  same_proc w0 w ->
  frames same_proc not_stall m ->
  (forall a w1, P (Return a) w1) ->
  (forall e w1, same_proc w0 w1 -> not_stall e -> P (Raise e) w1) ->
  post m P w.
Proof.
  intros Hs Hm Hret HP. unfold post. destruct (Hm w) as [HR HE].
  destruct (m w) as [[a|e] w1]; cbn [fst snd] in *; [apply Hret|].
  apply HP; [eapply same_proc_trans; eassumption|now apply HE].
Qed.

Lemma run_cmd_qa_stall_post child c args w :
  post (Legacy.run_cmd_qa env child c args)
    (fun o w' =>
       match o with
       | Raise (EasyBuildError msg) =>
           is_stall_msg msg = true ->
           proc_actions (w_trace w')
           = proc_actions (w_trace w) ++ kill_actions child
       | _ => True
       end) w.
Proof.
  set (P := fun (o : Outcome CmdOutput) (w' : World) =>
              match o with
              | Raise (EasyBuildError msg) =>
                  is_stall_msg msg = true ->
                  proc_actions (w_trace w')
                  = proc_actions (w_trace w) ++ kill_actions child
              | _ => True
              end).
  assert (HP : forall e w1, same_proc w w1 -> not_stall e -> P (Raise e) w1).
  { intros [] w1 _ He; try exact I. cbn in He |- *. congruence. }
  assert (Hret : forall a w1, P (Return a) w1) by (intros; exact I).
  pose proof open_cmd_log_quiet as Hopen.
  pose proof try_chdir_quiet as Htry.
  pose proof build_new_qa_quiet as Hqa.
  pose proof build_new_std_qa_quiet as Hstd.
  pose proof build_new_no_qa_quiet as Hno.
  pose proof chdir_quiet as Hchdir.
  pose proof parse_cmd_output_quiet as Hparse.
  unfold Legacy.run_cmd_qa.
  eapply post_bind_Return; [reflexivity|].
  eapply (post_bind_quiet _ _ _ w); [apply same_proc_refl| | |exact HP].
  { destruct c as [s|[|a [|b l]]]; quiet. }
  intros _ w1 Hw1.
  eapply (post_bind_quiet _ _ _ w); [exact Hw1|quiet| |exact HP].
  intros cmd_log w2 Hw2.
  eapply (post_bind_quiet _ _ _ w); [exact Hw2|quiet| |exact HP].
  intros _ w3 Hw3.
  destruct (opt_extended_dry_run env).
  { eapply (post_of_quiet _ _ w); [exact Hw3|quiet|exact Hret|exact HP]. }
  eapply (post_bind_quiet _ _ _ w); [exact Hw3|quiet| |exact HP].
  intros _ w4 Hw4.
  eapply (post_bind_quiet _ _ _ w); [exact Hw4|quiet| |exact HP].
  intros new_qa_ w5 Hw5.
  eapply (post_bind_quiet _ _ _ w); [exact Hw5|quiet| |exact HP].
  intros new_std_qa_ w6 Hw6.
  eapply (post_bind_quiet _ _ _ w); [exact Hw6|quiet| |exact HP].
  intros new_no_qa w7 Hw7.
  eapply (post_bind_quiet _ _ _ w); [exact Hw7|quiet| |exact HP].
  intros _ w8 Hw8. cbv zeta.
  eapply (post_bind_quiet _ _ _ w); [exact Hw8|quiet| |exact HP].
  intros _ w9 Hw9.
  eapply (post_bind_quiet _ _ _ w); [exact Hw9|quiet| |exact HP].
  intros _ w10 Hw10.
  apply post_bind_cases.
  - intros st' w11 Hrun.
    match type of Hrun with
    | Legacy.qa_loop ?ch ?c' ?cl ?nq ?mh ?rs ?st w10 = _ =>
        pose proof (qa_loop_post ch c' cl nq mh rs st w10) as Hloop
    end.
    rewrite Hrun in Hloop.
    assert (Hw11 : same_proc w w11) by (eapply same_proc_trans; eassumption).
    eapply (post_of_quiet _ _ w); [exact Hw11| |exact Hret|exact HP].
    destruct cmd_log, (ascii_ignore <$> Legacy.qa_final_output child); quiet.
  - intros e w11 Hrun.
    match type of Hrun with
    | Legacy.qa_loop ?ch ?c' ?cl ?nq ?mh ?rs ?st w10 = _ =>
        pose proof (qa_loop_post ch c' cl nq mh rs st w10) as Hloop
    end.
    rewrite Hrun in Hloop. unfold P. destruct e; try exact I.
    destruct Hloop as [_ Hkill]. intros _. rewrite Hkill. f_equal.
    exact Hw10.
Qed.
End StallFacts.

(** The claim C1 fails on both entry points.  [run_shell_cmd] raises the
    stall error and leaves the child alone: no signal, no wait.
    [run_cmd_qa] sends SIGKILL at once, where the signals can be delivered,
    without the graceful signal and the wait of [terminate_process]. *)
Lemma stall_without_escalating_termination :
  (run_shell_cmd (H := Literal.lib) Fixtures.env0
     (Fixtures.child_asking "Configure?" 2)
     [frame_cache_aware_func; Fixtures.caller] (CmdStr "install.sh")
     (Fixtures.qa_args [("Proceed", AnsStr "y")] 0) Fixtures.w0).1
  = Raise (EasyBuildError no_match_msg)
  /\ proc_actions
       (w_trace
          (run_shell_cmd (H := Literal.lib) Fixtures.env0
             (Fixtures.child_asking "Configure?" 2)
             [frame_cache_aware_func; Fixtures.caller] (CmdStr "install.sh")
             (Fixtures.qa_args [("Proceed", AnsStr "y")] 0) Fixtures.w0).2)
     = []
  /\ (Legacy.run_cmd_qa (H := Literal.lib) Fixtures.env0
        Fixtures.stalled_qa_child (CmdStr "install.sh")
        (Fixtures.run_cmd_qa_args [("Proceed", ArgStr "y")] 0 None)
        Fixtures.w0).1
     = Raise (EasyBuildError (Legacy.max_nohits_msg "install.sh" 0))
  /\ proc_actions
       (w_trace
          (Legacy.run_cmd_qa (H := Literal.lib) Fixtures.env0
             Fixtures.stalled_qa_child (CmdStr "install.sh")
             (Fixtures.run_cmd_qa_args [("Proceed", ArgStr "y")] 0 None)
             Fixtures.w0).2)
     = [SentGroup SIGKILL; Sent SIGKILL]
  /\ proc_actions
       (w_trace
          (terminate_process Fixtures.dies_of_sigkill Fixtures.fresh_proc
             terminate_process_default_timeout Fixtures.w0).2)
     = [Sent SIGTERM; Waited 20; Sent SIGKILL; Waited 20].
Proof. repeat split; vm_compute; reflexivity. Qed.

(** * Further properties *)

Lemma allowed_char_default a : allowed_char a = char_in a default_allowed_chars.
Proof. destruct a as [[] [] [] [] [] [] [] []]; vm_compute; reflexivity. Qed.

Lemma filter_chars_ext f g s :
  (forall a, f a = g a) -> PyStr.filter_chars f s = PyStr.filter_chars g s.
Proof.
  intros Hfg. induction s as [|a s IH]; [reflexivity|].
  cbn [PyStr.filter_chars]. rewrite Hfg, IH. reflexivity.
Qed.

Lemma filter_chars_list f s :
  list_ascii_of_string (PyStr.filter_chars f s)
  = List.filter f (list_ascii_of_string s).
Proof.
  induction s as [|a s IH]; [reflexivity|].
  cbn [PyStr.filter_chars list_ascii_of_string List.filter].
  destruct (f a); cbn [list_ascii_of_string]; now rewrite IH.
Qed.

Lemma filter_chars_idem f s :
  PyStr.filter_chars f (PyStr.filter_chars f s) = PyStr.filter_chars f s.
Proof.
  induction s as [|a s IH]; [reflexivity|].
  cbn [PyStr.filter_chars]. destruct (f a) eqn:Hfa; [|exact IH].
  cbn [PyStr.filter_chars]. rewrite Hfa, IH. reflexivity.
Qed.

Lemma filter_chars_all f s :
  Forall (fun a => f a = true) (list_ascii_of_string s) ->
  PyStr.filter_chars f s = s.
Proof.
  induction s as [|a s IH]; [reflexivity|].
  cbn [list_ascii_of_string PyStr.filter_chars]. intros Hall.
  apply Forall_cons in Hall as [-> Hall]. now rewrite IH.
Qed.

(** X1: [fileprefix_from_cmd] keeps, in their order, exactly the characters
    of the command that are in the allowed set.  So every character of the
    prefix is allowed, applying the function to its own result changes
    nothing, and a command made of allowed characters only is returned as
    it is.  An empty [allowed_chars] selects the default set (letters,
    digits, [_] and [-]) like no argument at all. *)
Theorem fileprefix_from_cmd_keeps_allowed c allowed_chars :
  let keep := fun a => char_in a (effective_chars allowed_chars) in
  list_ascii_of_string (fileprefix_from_cmd_with c allowed_chars)
  = List.filter keep (list_ascii_of_string c)
  /\ Forall (fun a => keep a = true)
       (list_ascii_of_string (fileprefix_from_cmd_with c allowed_chars))
  /\ fileprefix_from_cmd_with (fileprefix_from_cmd_with c allowed_chars)
       allowed_chars
     = fileprefix_from_cmd_with c allowed_chars
  /\ (Forall (fun a => keep a = true) (list_ascii_of_string c) ->
      fileprefix_from_cmd_with c allowed_chars = c)
  /\ fileprefix_from_cmd_with c (Some EmptyString)
     = fileprefix_from_cmd_with c None
  /\ fileprefix_from_cmd_with c None = fileprefix_from_cmd c.
Proof.
  intros keep.
  assert (Hdef : fileprefix_from_cmd_with c allowed_chars
                 = PyStr.filter_chars keep c).
  { unfold fileprefix_from_cmd_with, keep, effective_chars. reflexivity. }
  split; [rewrite Hdef; apply filter_chars_list|].
  split.
  { rewrite Hdef, filter_chars_list. apply List.Forall_forall.
    intros a Ha. apply List.filter_In in Ha. tauto. }
  split.
  { rewrite Hdef. unfold fileprefix_from_cmd_with. fold (effective_chars allowed_chars).
    apply filter_chars_idem. }
  split; [intros Hall; rewrite Hdef; now apply filter_chars_all|].
  split; [reflexivity|].
  unfold fileprefix_from_cmd_with, fileprefix_from_cmd.
  apply filter_chars_ext. intros a. symmetry. apply allowed_char_default.
Qed.

Section CacheMore.
Context {W Args R : Type}.
Variable func : Cmd -> Args -> W -> Outcome R * W.
Variable kwargs_stdin kwargs_inp : Args -> option string.

Let call := cache_aware_func func kwargs_stdin kwargs_inp.
Let key := key_input kwargs_stdin kwargs_inp.

(** X2: a call through the cache never removes or replaces an entry: the
    cache after the call contains the cache before it.  The cache changes
    only when a command of [CACHED_COMMANDS], given as a str, missed the
    cache and the decorated function returned; then exactly the entry of
    this command and input is added, with the value returned. *)
Theorem run_cmd_cache_only_grows cache c args w :
  let cache' := (call cache c args w).2 in
  cache ⊆ cache'
  /\ (cache' = cache
      \/ exists s r,
           c = CmdStr s /\ s ∈ CACHED_COMMANDS
           /\ cache !! (s, key args) = None
           /\ func c args w = (Return r, (call cache c args w).1.2)
           /\ (call cache c args w).1.1 = Return r
           /\ cache' = <[(s, key args) := r]> cache).
Proof.
  unfold call, key, cache_aware_func.
  destruct c as [s|l].
  - destruct (cache !! (s, key_input kwargs_stdin kwargs_inp args))
      as [r0|] eqn:Hc; cbn [fst snd].
    + split; [reflexivity|now left].
    + destruct (func (CmdStr s) args w) as [[r|e] w'] eqn:Hf; cbn [fst snd].
      * unfold in_CACHED_COMMANDS. case_bool_decide as Hin; cbn [fst snd].
        -- split; [now apply insert_subseteq|].
           right. exists s, r. repeat split; auto.
        -- split; [reflexivity|now left].
      * split; [reflexivity|now left].
  - destruct (func (CmdList l) args w) as [[r|e] w'];
      (split; [reflexivity|now left]).
Qed.

(** X3: an entry put into the cache with [update_cache] is served for its
    command and input, whatever the cache held before: the call returns it
    and leaves the world and the cache as they are.  [update_cache] leaves
    the entries of the keys it is not given as they were.  After
    [clear_cache] the call behaves as with an empty cache and returns what
    the decorated function returns. *)
Theorem run_cmd_cache_seeded cache new s args w r :
  new !! (s, key args) = Some r ->
  update_cache cache new !! (s, key args) = Some r
  /\ call (update_cache cache new) (CmdStr s) args w
     = (Return r, w, update_cache cache new)
  /\ (forall k, new !! k = None -> update_cache cache new !! k = cache !! k)
  /\ call (clear_cache (update_cache cache new)) (CmdStr s) args w
     = call ∅ (CmdStr s) args w
  /\ (call ∅ (CmdStr s) args w).1.1 = (func (CmdStr s) args w).1.
Proof.
  intros Hnew.
  assert (Hup : update_cache cache new !! (s, key args) = Some r).
  { unfold update_cache. apply lookup_union_Some_l. exact Hnew. }
  split; [exact Hup|].
  split.
  { unfold call, cache_aware_func. fold (key args). now rewrite Hup. }
  split.
  { intros k Hk. unfold update_cache. now apply lookup_union_r. }
  split; [reflexivity|].
  unfold call, cache_aware_func. rewrite lookup_empty.
  destruct (func (CmdStr s) args w) as [[r0|e] w']; cbn [fst snd];
    [destruct (in_CACHED_COMMANDS (CmdStr s))|]; reflexivity.
Qed.
End CacheMore.

Lemma poll_returncode reap p :
  returncode (poll reap p).2 = (poll reap p).1
  /\ history (poll reap p).2 = history p.
Proof. unfold poll. destruct (returncode p) eqn:E; cbn; auto. Qed.

Lemma send_signal_polled_exited reap s p w c :
  (poll reap p).1 = Some c ->
  send_signal reap s p w = (Return (poll reap p).2, w).
Proof.
  intros Hp. unfold send_signal. destruct (poll reap p) as [rc p'].
  cbn [fst snd] in *. subst rc. reflexivity.
Qed.

(** What [terminate_process] returns and leaves, for any process. *)
Lemma terminate_process_eq reap proc t w :
  terminate_process reap proc t w
  = (match (poll reap proc).1 with
     | Some c => Return (poll reap proc).2
     | None =>
         let h1 := history proc ++ [Sent SIGTERM; Waited t] in
         let h2 := h1 ++ [Sent SIGKILL; Waited t] in
         match reap h1 with
         | Some c => Return {| returncode := Some c; history := h1 |}
         | None =>
             match reap h2 with
             | Some c => Return {| returncode := Some c; history := h2 |}
             | None => Raise (EasyBuildError (terminate_msg t))
             end
         end
     end,
     with_events w (map EvProc (termination_actions reap proc t))).
Proof.
  unfold termination_actions.
  destruct ((poll reap proc).1) as [c|] eqn:Hp.
  - unfold terminate_process, terminate, kill.
    destruct (poll_returncode reap proc) as [Hrc Hh]. rewrite Hp in Hrc.
    erewrite bind_Return by (eapply send_signal_polled_exited; exact Hp).
    erewrite bind_Return by (apply wait_exited; exact Hrc).
    cbn [fst snd].
    erewrite bind_Return by (eapply send_signal_exited; exact Hrc).
    erewrite bind_Return by (apply wait_exited; exact Hrc).
    cbn [fst snd map]. now rewrite with_events_nil.
  - unfold terminate_process, terminate, kill.
    erewrite bind_Return by (apply send_signal_running; exact Hp).
    erewrite bind_Return by (apply wait_running; reflexivity).
    cbn [snd fst history]. rewrite <- app_assoc. cbn [app].
    cbv zeta. set (h1 := history proc ++ [Sent SIGTERM; Waited t]).
    destruct (reap h1) as [c|] eqn:Hr1.
    + erewrite bind_Return by (eapply send_signal_exited; reflexivity).
      erewrite bind_Return by (eapply wait_exited; reflexivity).
      cbn. rewrite with_events_app. reflexivity.
    + erewrite bind_Return.
      2:{ apply send_signal_running. unfold poll. cbn. exact Hr1. }
      erewrite bind_Return by (apply wait_running; reflexivity).
      cbn [snd fst history]. rewrite <- app_assoc. cbn [app].
      rewrite !with_events_app. cbn [app map].
      destruct (reap (h1 ++ _)) as [c|]; reflexivity.
Qed.

(** X4: [terminate_process] does nothing to a process that has exited.
    Otherwise it sends SIGTERM and waits, and only when that wait times out
    it sends SIGKILL and waits again: what it does is a prefix of these four
    actions.  When it returns, the process has a return code and its
    history has grown by exactly these actions; it raises only after all
    four of them. *)
Theorem terminate_process_reaps reap proc t w :
  let run := terminate_process reap proc t w in
  let acts := termination_actions reap proc t in
  run.2 = with_events w (map EvProc acts)
  /\ (exists rest, [Sent SIGTERM; Waited t; Sent SIGKILL; Waited t]
                   = acts ++ rest)
  /\ (is_Some (poll reap proc).1 -> acts = [] /\ run.1 = Return (poll reap proc).2)
  /\ match run.1 with
     | Return p =>
         is_Some (returncode p) /\ history p = history proc ++ acts
     | Raise e =>
         e = EasyBuildError (terminate_msg t)
         /\ acts = [Sent SIGTERM; Waited t; Sent SIGKILL; Waited t]
     end.
Proof.
  intros run acts. subst run. rewrite terminate_process_eq. cbn [fst snd].
  fold acts. split; [reflexivity|].
  unfold acts, termination_actions.
  destruct (poll_returncode reap proc) as [Hrc Hh].
  destruct ((poll reap proc).1) as [c|] eqn:Hp.
  - split; [eexists; reflexivity|].
    split; [auto|].
    rewrite Hrc, Hh, app_nil_r. eauto.
  - split.
    { destruct (reap _); eexists; cbn [app]; reflexivity. }
    split; [intros [? ?]; discriminate|].
    cbv zeta.
    destruct (reap (history proc ++ [Sent SIGTERM; Waited t])) as [c|] eqn:Hr1;
      cbn [returncode history app].
    + eauto.
    + rewrite <- app_assoc. cbn [app].
      destruct (reap (history proc
                      ++ [Sent SIGTERM; Waited t; Sent SIGKILL; Waited t]))
        as [c|]; cbn [returncode history]; eauto.
Qed.

Lemma terminate_process_reaps_witness :
  is_Some (poll (fun _ => Some 0%Z) Fixtures.fresh_proc).1
  /\ terminate_process (fun _ => Some 0%Z) Fixtures.fresh_proc 20 Fixtures.w0
     = (Return {| returncode := Some 0%Z; history := [] |}, Fixtures.w0).
Proof.
  assert (Hex : is_Some (poll (fun _ => Some 0%Z) Fixtures.fresh_proc).1)
    by (eexists; reflexivity).
  split; [exact Hex|].
  pose proof (terminate_process_reaps (fun _ => Some 0%Z) Fixtures.fresh_proc
                20 Fixtures.w0) as (Hw & _ & Hexited & _).
  destruct (Hexited Hex) as [Hacts Hret].
  rewrite Hacts in Hw.
  destruct (terminate_process _ _ _ _) as [o w']. cbn [fst snd] in *.
  rewrite Hw, Hret. reflexivity.
Defined.

(** X5: [subprocess_terminate] never raises and never sends SIGKILL.  It
    waits for the process (not at all if it has exited), and sends SIGTERM
    only when the process is still running after the wait; it then returns
    without waiting for the exit. *)
Theorem subprocess_terminate_gentle reap proc t w :
  exists p' acts,
    subprocess_terminate reap proc t w
    = (Return p', with_events w (map EvProc acts))
    /\ history p' = history proc ++ acts
    /\ (acts = [] /\ is_Some (returncode proc)
        \/ acts = [Waited t] /\ is_Some (returncode p')
        \/ acts = [Waited t; Sent SIGTERM] /\ returncode p' = None
           /\ reap (history proc ++ [Waited t]) = None).
Proof.
  unfold subprocess_terminate.
  destruct (returncode proc) as [c|] eqn:Hrc.
  - exists proc, []. erewrite bind_Return by (apply wait_exited; exact Hrc).
    cbn [fst snd map]. rewrite with_events_nil, app_nil_r.
    split; [reflexivity|]. split; [reflexivity|]. left. eauto.
  - erewrite bind_Return by (apply wait_running; exact Hrc).
    cbn [fst snd].
    destruct (reap (history proc ++ [Waited t])) as [c|] eqn:Hr.
    + eexists _, [Waited t]. split; [reflexivity|]. cbn [history returncode].
      split; [reflexivity|]. right; left. eauto.
    + eexists _, [Waited t; Sent SIGTERM]. unfold terminate.
      rewrite send_signal_running by (unfold poll; cbn; exact Hr).
      rewrite with_events_app. cbn [history returncode app map].
      rewrite <- app_assoc. cbn [app].
      split; [reflexivity|]. split; [reflexivity|]. right; right. auto.
Qed.

Section AnswerFailures.
Context `{PyLib}.

(** X6: how [_answer_question] fails once a question matches.  Answers that
    are neither a str nor a list give an EasyBuildError and leave the
    world alone; an empty list of answers gives an IndexError.  A list has
    been rotated when the answer cannot be formatted or cannot be written
    to the stdin of the process: the error leaves the list with its first
    answer moved to the end. *)
Theorem answer_question_failures stdout stdin_ok qa_patterns qa_wait_patterns
    w i question answers :
  patterns_compile (qa_patterns.*1) ->
  first_question stdout qa_patterns = Some (i, (question, answers)) ->
  exists res,
    re_search ReBytes (question +:+ ws_tail) stdout = Some res
    /\ let run := _answer_question stdout stdin_ok qa_patterns
                    qa_wait_patterns w in
       match answers with
       | AnsOther =>
           run = (Raise (EasyBuildError
                           (unknown_answers_msg (question +:+ ws_tail))), w)
       | AnsStr s =>
           forall t, render s res = Return t -> stdin_ok = false ->
             run = (Raise (EasyBuildError answer_failed_msg), w)
       | AnsList l =>
           match default [] (w_heap w !! l) with
           | [] => run = (Raise IndexError, w)
           | a :: rest =>
               (forall t, render a res = Return t -> stdin_ok = false ->
                  run = (Raise (EasyBuildError answer_failed_msg),
                         with_list w l (rest ++ [a])))
               /\ (forall e, render a res = Raise e ->
                     run = (Raise e, with_list w l (rest ++ [a])))
           end
       end.
Proof.
  intros Hc Hfirst.
  destruct (answer_question_first stdout stdin_ok qa_patterns qa_wait_patterns
              w i question answers Hc Hfirst) as (res & Hres & Hrun).
  exists res. split; [exact Hres|]. cbv zeta. rewrite Hrun.
  unfold reply, take_answer, pop0_append, heap_get, heap_set, os_write_stdin,
    lift, bind, ret, raise.
  destruct answers as [s|l|]; cbn [fst snd].
  - intros t Ht ->. rewrite Ht. reflexivity.
  - destruct (default [] (w_heap w !! l)) as [|a rest]; [reflexivity|].
    split.
    + intros t Ht ->. rewrite Ht. reflexivity.
    + intros e He. rewrite He. reflexivity.
  - reflexivity.
Qed.
End AnswerFailures.

Lemma answer_question_failures_witness :
  exists res,
    re_search (PyLib := Literal.lib) ReBytes ("Proceed" +:+ ws_tail) "Proceed"
    = Some res
    /\ _answer_question (H := Literal.lib) "Proceed" false
         [("Proceed", AnsList 0%nat)] [] Fixtures.w_yes_no
       = (Raise (EasyBuildError answer_failed_msg),
          with_list Fixtures.w_yes_no 0%nat ["n"; "y"]).
Proof.
  destruct (answer_question_failures (H := Literal.lib) "Proceed" false
              [("Proceed", AnsList 0%nat)] [] Fixtures.w_yes_no 0%nat
              "Proceed" (AnsList 0%nat))
    as (res & Hres & Hrun).
  - repeat constructor.
  - vm_compute. reflexivity.
  - exists res. split; [exact Hres|].
    cbv zeta in Hrun.
    change (default [] (w_heap Fixtures.w_yes_no !! 0%nat)) with ["y"; "n"]%string in Hrun.
    cbv iota in Hrun. destruct Hrun as [Hfail _].
    apply (Hfail ("y" +:+ PyStr.nl)); [|reflexivity].
    unfold render. destruct res as [gd gs].
    vm_compute in Hres. injection Hres as <- <-. reflexivity.
Defined.

Section EmitsOnly.
Variable P : Event -> Prop.

Lemma emits_only_refl w : emits_only P w w.
Proof.
  repeat split. exists []. split; [now rewrite app_nil_r|constructor].
Qed.

Lemma emits_only_trans w1 w2 w3 :
  emits_only P w1 w2 -> emits_only P w2 w3 -> emits_only P w1 w3.
Proof.
  intros (Hc & Hs & He & evs & Ht & HP) (Hc' & Hs' & He' & evs' & Ht' & HP').
  repeat split; try congruence.
  exists (evs ++ evs'). split; [rewrite Ht', Ht; now rewrite app_assoc|].
  apply Forall_app. auto.
Qed.

Lemma emits_only_emit e w : P e -> emits_only P w (with_events w [e]).
Proof.
  intros He. repeat split. exists [e]. split; [reflexivity|].
  repeat constructor. exact He.
Qed.

Lemma emits_only_with_list w l v : emits_only P w (with_list w l v).
Proof.
  repeat split. exists []. cbn. split; [now rewrite app_nil_r|constructor].
Qed.
End EmitsOnly.

Lemma emits_only_mono (P Q : Event -> Prop) w w' :
  (forall e, P e -> Q e) -> emits_only P w w' -> emits_only Q w w'.
Proof.
  intros HPQ (Hc & Hs & He & evs & Ht & HP). repeat split; auto.
  exists evs. split; [exact Ht|]. eapply Forall_impl; eauto.
Qed.

Lemma frames_mono {A} (R R' : World -> World -> Prop) (E : PyExc -> Prop)
    (m : M A) :
  (forall w w', R w w' -> R' w w') -> frames R E m -> frames R' E m.
Proof. intros HR Hm w. destruct (Hm w). split; auto. Qed.

(** The steps of a proof that a computation only emits events that satisfy a
    predicate; a test is decided before the branch it guards. *)
Ltac emits_step :=
  first
    [ solve [auto 2]
    | apply (frames_bind _ _ (emits_only_trans _)); [|intros]
    | apply (frames_ret _ _ (emits_only_refl _))
    | apply (frames_getcwd _ _ (emits_only_refl _))
    | apply (frames_heap_get _ _ (emits_only_refl _))
    | apply (frames_get_strictness _ _ (emits_only_refl _))
    | apply (frames_raise _ _ (emits_only_refl _)); exact I
    | apply frames_heap_set; intros; apply emits_only_with_list
    | match goal with
      | |- frames _ _ (when ?b _) => destruct b eqn:?; unfold when
      | |- frames _ _ (match ?x with _ => _ end) => destruct x eqn:?
      | |- frames _ _ (if ?b then _ else _) => destruct b eqn:?
      end ].

Lemma terminate_process_emits (P : Event -> Prop) reap p t :
  (forall a, P (EvProc a)) ->
  frames (emits_only P) any_exc (terminate_process reap p t).
Proof.
  intros HP.
  assert (Hact : forall q a, frames (emits_only P) any_exc (act q a)).
  { intros q a. unfold act. repeat emits_step.
    apply frames_emit. intros. apply emits_only_emit, HP. }
  assert (Hsig : forall s q, frames (emits_only P) any_exc
                               (send_signal reap s q)).
  { intros s q. unfold send_signal. destruct (poll reap q).
    repeat emits_step. }
  assert (Hwait : forall q, frames (emits_only P) any_exc (wait reap t q)).
  { intros q. unfold wait. repeat emits_step. }
  unfold terminate_process, terminate, kill. repeat emits_step.
Qed.

Section Footprint.
Context `{PyLib}.
Variable env : Env.

Lemma wait_patterns_loop_emits (P : Event -> Prop) stdout ps :
  frames (emits_only P) any_exc (wait_patterns_loop stdout ps).
Proof.
  induction ps as [|p ps IH]; cbn [wait_patterns_loop]; repeat emits_step.
Qed.

Lemma answer_question_emits (P : Event -> Prop) stdout ok qa qw :
  (forall d, P (EvStdin d)) ->
  frames (emits_only P) any_exc (_answer_question stdout ok qa qw).
Proof.
  intros HP.
  induction qa as [|[q a] qa IH]; cbn [_answer_question].
  - apply wait_patterns_loop_emits.
  - unfold reply, take_answer, pop0_append, os_write_stdin, lift.
    repeat emits_step;
      try (apply frames_emit; intros; apply emits_only_emit, HP).
    intros w. split; [apply emits_only_refl|exact (fun _ _ => I)].
Qed.

Lemma output_loop_emits (P : Event -> Prop) args child c proc cycles st :
  (qa_patterns args <> [] -> forall d, P (EvStdin d)) ->
  (is_Some (timeout args) -> forall a, P (EvProc a)) ->
  frames (emits_only P) any_exc (output_loop args child c proc cycles st).
Proof.
  intros Hin Hproc. revert st.
  induction cycles as [|cy rest IH]; intros st; cbn [output_loop];
    [apply (frames_ret _ _ (emits_only_refl _))|].
  apply (frames_bind _ _ (emits_only_trans _)); [|intros; apply IH].
  unfold output_cycle. destruct st as [[so se] tnm].
  destruct (timeout_expired (timeout args) (elapsed cy)) eqn:Hexp.
  - assert (Hsome : is_Some (timeout args)).
    { destruct (timeout args); [eauto|discriminate]. }
    apply (frames_bind _ _ (emits_only_trans _));
      [apply terminate_process_emits; auto|intros].
    apply (frames_raise _ _ (emits_only_refl _)). exact I.
  - destruct (qa_patterns args) as [|qa1 qas] eqn:Hqa.
    + repeat emits_step.
    + apply (frames_bind _ _ (emits_only_trans _)); [|intros; repeat emits_step].
      apply (frames_bind _ _ (emits_only_trans _)); [|intros; repeat emits_step].
      apply answer_question_emits. apply Hin. discriminate.
Qed.

Lemma run_shell_cmd_emits child outer_frames c args :
  frames (emits_only (run_shell_cmd_event env args)) any_exc
    (run_shell_cmd env child outer_frames c args).
Proof.
  assert (Hloop : forall c' proc cycles st,
            negb (in_dry_run args) && opt_extended_dry_run env = false ->
            frames (emits_only (run_shell_cmd_event env args)) any_exc
              (output_loop args child c' proc cycles st)).
  { intros c' proc cycles st Hdry. apply output_loop_emits.
    - intros Hqa d. cbn. rewrite Hdry. split; [reflexivity|].
      destruct (qa_patterns args); [contradiction|apply orb_true_r].
    - intros Hto a. cbn. rewrite Hdry. auto. }
  assert (Hterm : forall proc t,
            negb (in_dry_run args) && opt_extended_dry_run env = false ->
            is_Some (timeout args) ->
            frames (emits_only (run_shell_cmd_event env args)) any_exc
              (terminate_process (reap child) proc t)).
  { intros proc t Hdry Hto. apply terminate_process_emits.
    intros a. cbn. rewrite Hdry. auto. }
  assert (Hemit : forall e,
            run_shell_cmd_event env args e ->
            frames (emits_only (run_shell_cmd_event env args)) any_exc
              (emit e)).
  { intros e He. apply frames_emit. intros. now apply emits_only_emit. }
  unfold run_shell_cmd, _cmd_trace_msg, raise_run_shell_cmd_error.
  apply (frames_bind _ _ (emits_only_trans _)); [repeat emits_step|intros wd].
  destruct (output_file args) eqn:Hof.
  - repeat emits_step.
    all: try (apply Hemit; cbn;
              repeat match goal with
                     | Hx : _ = _ |- _ => rewrite Hx
                     end; cbn; auto).
    all: try solve [apply Hloop; auto].
    all: try solve [apply Hterm; auto; eauto].
    all: destruct (hidden args); try discriminate; auto.
  - match goal with
    | |- frames ?R ?E (bind (ret ?a) ?k) =>
        change (frames R E (k a)); cbv beta; cbn [fst snd]
    end.
    repeat emits_step.
    all: try (apply Hemit; cbn;
              repeat match goal with
                     | Hx : _ = _ |- _ => rewrite Hx
                     end; cbn; auto).
    all: try solve [apply Hloop; auto].
    all: try solve [apply Hterm; auto; eauto].
    all: destruct (hidden args); try discriminate; auto.
Qed.

(** X7: whatever [run_shell_cmd] returns or raises, it leaves the current
    directory and the module globals as they are, and each action it adds
    to the trace is enabled by its arguments: temporary directories and
    files only under [output_file], no file written, message traced, hook
    run or process started in dry run, trace messages only when not
    [hidden], hooks only under [with_hooks], a signal or a wait only under
    a [timeout], input only with [stdin] or [qa_patterns].  It never changes
    the directory and never writes the output to stdout. *)
Theorem run_shell_cmd_footprint child outer_frames c args w :
  let w' := (run_shell_cmd env child outer_frames c args w).2 in
  w_cwd w' = w_cwd w
  /\ w_strictness w' = w_strictness w
  /\ w_errors_found_in_log w' = w_errors_found_in_log w
  /\ exists evs,
       w_trace w' = w_trace w ++ evs
       /\ Forall (run_shell_cmd_event env args) evs.
Proof.
  intros w'.
  exact (proj1 (run_shell_cmd_emits child outer_frames c args w)).
Qed.

(** Events that are not actions on a process leave its history alone. *)
Lemma proc_actions_none evs :
  Forall (fun e => forall a, e <> EvProc a) evs -> proc_actions evs = [].
Proof.
  induction 1 as [|e evs He Hevs IH]; [reflexivity|].
  unfold proc_actions in *. cbn [omap list_omap].
  destruct e; try exact IH. exfalso. now apply (He a).
Qed.

(** C1, the code against the claim: a stall does not lead to the
    escalating termination of the child.  [run_shell_cmd] without a
    [timeout] never sends a signal to the child and never waits for it,
    whatever it returns or raises; so the stall error leaves the child
    running.  [run_cmd_qa], when it raises the stall error, has sent SIGKILL
    to the process group of the child and, only if that could be delivered,
    to the child: no graceful signal, no wait, and nothing at all, even
    where the child itself could be signalled, when the signal to the group
    fails. *)
Theorem stall_termination_missing child qa_child outer_frames c args qa_args
    w :
  (timeout args = None ->
   proc_actions (w_trace (run_shell_cmd env child outer_frames c args w).2)
   = proc_actions (w_trace w))
  /\ match (Legacy.run_cmd_qa env qa_child c qa_args w).1 with
     | Raise (EasyBuildError msg) =>
         is_stall_msg msg = true ->
         proc_actions (w_trace (Legacy.run_cmd_qa env qa_child c qa_args w).2)
         = proc_actions (w_trace w)
           ++ (if Legacy.killpg_ok qa_child
               then SentGroup SIGKILL
                    :: (if Legacy.kill_ok qa_child then [Sent SIGKILL]
                        else [])
               else [])
     | _ => True
     end.
Proof.
  split.
  - intros Hto.
    destruct (run_shell_cmd_emits child outer_frames c args w)
      as [(_ & _ & _ & evs & Htrace & Hevs) _].
    rewrite Htrace, proc_actions_app, (proc_actions_none evs);
      [apply app_nil_r|].
    eapply Forall_impl; [exact Hevs|].
    intros e He a ->. cbn in He. rewrite Hto in He.
    destruct He as [_ [? ?]]. discriminate.
  - exact (run_cmd_qa_stall_post env qa_child c qa_args w).
Qed.
End Footprint.

(** The failing inputs of C1.  A command that asks [Configure?] while only
    [Proceed] is known, with no budget: [run_shell_cmd] raises the stall
    error without any action on the child, and [run_cmd_qa] raises it
    without any action on a child that leads no process group. *)
Lemma stall_termination_missing_witness :
  (run_shell_cmd (H := Literal.lib) Fixtures.env0
     (Fixtures.child_asking "Configure?" 2)
     [frame_cache_aware_func; Fixtures.caller] (CmdStr "install.sh")
     (Fixtures.qa_args [("Proceed", AnsStr "y")] 0) Fixtures.w0).1
  = Raise (EasyBuildError no_match_msg)
  /\ proc_actions
       (w_trace
          (run_shell_cmd (H := Literal.lib) Fixtures.env0
             (Fixtures.child_asking "Configure?" 2)
             [frame_cache_aware_func; Fixtures.caller] (CmdStr "install.sh")
             (Fixtures.qa_args [("Proceed", AnsStr "y")] 0) Fixtures.w0).2)
     = proc_actions (w_trace Fixtures.w0)
  /\ (Legacy.run_cmd_qa (H := Literal.lib) Fixtures.env0
        (Samples.qa_child_no_group [Some "Configure?"; None; None])
        (CmdStr "install.sh")
        (Fixtures.run_cmd_qa_args [("Proceed", ArgStr "y")] 0 None)
        Fixtures.w0).1
     = Raise (EasyBuildError (Legacy.max_nohits_msg "install.sh" 0))
  /\ proc_actions
       (w_trace
          (Legacy.run_cmd_qa (H := Literal.lib) Fixtures.env0
             (Samples.qa_child_no_group [Some "Configure?"; None; None])
             (CmdStr "install.sh")
             (Fixtures.run_cmd_qa_args [("Proceed", ArgStr "y")] 0 None)
             Fixtures.w0).2)
     = proc_actions (w_trace Fixtures.w0) ++ [].
Proof.
  pose proof (stall_termination_missing (H := Literal.lib) Fixtures.env0
                (Fixtures.child_asking "Configure?" 2)
                (Samples.qa_child_no_group [Some "Configure?"; None; None])
                [frame_cache_aware_func; Fixtures.caller]
                (CmdStr "install.sh")
                (Fixtures.qa_args [("Proceed", AnsStr "y")] 0)
                (Fixtures.run_cmd_qa_args [("Proceed", ArgStr "y")] 0 None)
                Fixtures.w0) as [Hshell Hqa].
  assert (Hraise :
            (Legacy.run_cmd_qa (H := Literal.lib) Fixtures.env0
               (Samples.qa_child_no_group [Some "Configure?"; None; None])
               (CmdStr "install.sh")
               (Fixtures.run_cmd_qa_args [("Proceed", ArgStr "y")] 0 None)
               Fixtures.w0).1
            = Raise (EasyBuildError (Legacy.max_nohits_msg "install.sh" 0)))
    by (vm_compute; reflexivity).
  split; [vm_compute; reflexivity|]. split; [exact (Hshell eq_refl)|].
  split; [exact Hraise|].
  rewrite Hraise in Hqa. exact (Hqa eq_refl).
Defined.

Lemma append_assoc_str (a b c : string) : (a +:+ b) +:+ c = a +:+ (b +:+ c).
Proof.
  induction a as [|x a IH]; [reflexivity|].
  change (String x ((a +:+ b) +:+ c) = String x (a +:+ (b +:+ c))).
  now f_equal.
Qed.

Lemma append_nil_r_str (a : string) : a +:+ EmptyString = a.
Proof.
  induction a as [|x a IH]; [reflexivity|].
  change (String x (a +:+ EmptyString) = String x a). now f_equal.
Qed.

Lemma drain_taken reads acc :
  drain reads acc = acc +:+ String.concat EmptyString (taken reads).
Proof.
  revert acc. induction reads as [|[d|] rest IH]; intros acc;
    cbn [drain taken]; try (now rewrite append_nil_r_str).
  destruct (PyStr.truthy d) eqn:Hd.
  - rewrite IH, append_assoc_str. f_equal.
    destruct (taken rest) as [|x xs] eqn:Ht.
    + cbn. now rewrite append_nil_r_str.
    + cbn [String.concat]. reflexivity.
  - cbn. now rewrite append_nil_r_str.
Qed.

Lemma concat_app_str l1 l2 :
  String.concat EmptyString (l1 ++ l2)
  = String.concat EmptyString l1 +:+ String.concat EmptyString l2.
Proof.
  induction l1 as [|x l1 IH]; [reflexivity|].
  destruct l1 as [|y l1].
  - cbn [app String.concat]. destruct l2; [now rewrite append_nil_r_str|].
    reflexivity.
  - change ((x :: y :: l1) ++ l2) with (x :: (y :: l1) ++ l2).
    cbn [String.concat] in *. cbn [app] in *.
    rewrite IH. cbn. now rewrite !append_assoc_str.
Qed.

Lemma read_in_turns_taken reads cycles acc :
  read_in_turns reads cycles acc
  = acc +:+ String.concat EmptyString (flat_map (fun cy => taken (reads cy)) cycles).
Proof.
  revert acc. induction cycles as [|cy rest IH]; intros acc;
    cbn [read_in_turns fold_left flat_map].
  - cbn. now rewrite append_nil_r_str.
  - fold (read_in_turns reads rest (drain (reads cy) acc)).
    rewrite IH, drain_taken, concat_app_str, append_assoc_str. reflexivity.
Qed.

Section PlainLoop.
Context `{PyLib}.

Lemma output_loop_plain args child c proc cycles so se tnm w :
  qa_patterns args = [] ->
  Forall (fun cy => timeout_expired (timeout args) (elapsed cy) = false) cycles ->
  output_loop args child c proc cycles (so, se, tnm) w
  = (Return (read_in_turns stdout_reads cycles so,
             if split_stderr args then read_in_turns stderr_reads cycles se
             else se,
             tnm), w).
Proof.
  intros Hqa Hall. revert so se.
  induction Hall as [|cy rest Hcy Hrest IH]; intros so se.
  - cbn. destruct (split_stderr args); reflexivity.
  - cbn [output_loop]. unfold output_cycle at 1. rewrite Hcy, Hqa.
    unfold bind at 1 2. unfold ret at 1 2. cbn [fst snd].
    rewrite IH. cbn [read_in_turns fold_left].
    destruct (split_stderr args); reflexivity.
Qed.

(** X8: without questions and without an expired timeout, the output loop
    of [run_shell_cmd] returns what it started with, followed by the data
    read in each turn, in order; the world is not changed.  A turn reads up
    to its first empty read or timeout: the pieces taken are not empty, and
    pieces that are not empty are all taken. *)
Theorem output_loop_reads_in_order args child c proc cycles so se tnm w :
  qa_patterns args = [] ->
  Forall (fun cy => timeout_expired (timeout args) (elapsed cy) = false) cycles ->
  output_loop args child c proc cycles (so, se, tnm) w
  = (Return
       (so +:+ String.concat EmptyString
                 (flat_map (fun cy => taken (stdout_reads cy)) cycles),
        if split_stderr args
        then se +:+ String.concat EmptyString
                      (flat_map (fun cy => taken (stderr_reads cy)) cycles)
        else se,
        tnm), w)
  /\ (forall reads, Forall (fun d => d <> EmptyString) (taken reads))
  /\ (forall ds rest,
        Forall (fun d => d <> EmptyString) ds ->
        taken (map ReadData ds ++ rest) = ds ++ taken rest).
Proof.
  intros Hqa Hall. split; [|split].
  - rewrite output_loop_plain by assumption.
    rewrite !read_in_turns_taken. reflexivity.
  - induction reads as [|[d|] rest IH]; cbn [taken]; try constructor.
    destruct d; cbn [PyStr.truthy]; constructor; [discriminate|exact IH].
  - intros ds rest Hds. induction Hds as [|d ds Hd Hds IH]; [reflexivity|].
    cbn [map app taken]. destruct d; [contradiction|].
    cbn [PyStr.truthy]. now rewrite IH.
Qed.
End PlainLoop.

(** One step of a run: the first computation of a bind returns [a] and adds
    the events [evs]; [tac] proves it. *)
Ltac run_step a evs tac :=
  match goal with
  | |- bind _ _ ?W = _ =>
      rewrite (bind_Return _ _ W a (with_events W evs)) by tac;
      cbv beta; rewrite ?with_events_app, ?with_events_nil
  end.

(** The steps of [run_shell_cmd] outside dry run up to the start of the
    child. *)
Ltac run_prelude env child c args w Hdry Hhid Hqa Hspawn :=
  unfold run_shell_cmd;
  run_step (default (w_cwd w) (work_dir args)) (@nil Event)
    ltac:(destruct (work_dir args); cbn [default id];
          now rewrite with_events_nil);
  run_step (tmp_paths env args c)
    (if output_file args then tmpdir_events env c else [])
    ltac:(unfold tmp_paths, tmpdir_events; destruct (output_file args);
          [do 2 (erewrite bind_Return by apply emit_eq);
           rewrite with_events_app; reflexivity
          |now rewrite with_events_nil]);
  rewrite Hdry, Hhid, Hqa, Hspawn; cbn [negb when orb];
  fold (streaming env args);
  first
    [ run_step tt (@nil Event) ltac:(now rewrite with_events_nil)
    | erewrite bind_Return by (unfold _cmd_trace_msg; apply emit_eq);
      cbv beta; rewrite ?with_events_app ];
  run_step tt
    (if streaming env args
     then [EvPrintMsg ("(streaming) output for command '" +:+ to_cmd_str c
                       +:+ "':")]
     else [])
    ltac:(destruct (streaming env args);
          [reflexivity|now rewrite with_events_nil]);
  run_step (hooked_cmd env args c)
    (if with_hooks args then [EvHook true c] else [])
    ltac:(unfold hooked_cmd; destruct (with_hooks args);
          [destruct (pre_hook env c) as [c'|];
           [destruct (cmd_truthy c')|]; reflexivity
          |now rewrite with_events_nil]);
  run_step tt
    [EvSpawn (hooked_cmd env args c) (use_bash args)
       (if use_bash args then which_bash env else None)]
    ltac:(reflexivity).

Section PlainRun.
Context `{PyLib}.
Variable env : Env.

(** A run outside dry run and without questions, step by step. *)
Lemma run_shell_cmd_plain_run child outer_frames c args w :
  negb (in_dry_run args) && opt_extended_dry_run env = false ->
  qa_patterns args = [] ->
  spawn_ok child = true ->
  in_time env args child ->
  (forall fp, fp ∈ [(tmp_paths env args c).1; (tmp_paths env args c).2] ->
     from_option (open_ok env) true fp = true) ->
  let r := run_result env child c args w in
  exists msg,
    run_shell_cmd env child outer_frames c args w
    = if Z.eqb (child_exit_code child) 0 || negb (fail_on_error args)
      then (Return r,
            with_events w (start_events env c args msg ++ dump_events r
                           ++ finish_events env c args))
      else (match outer_frames !! 1%nat with
            | Some caller =>
                Raise (ExcRunShellCmdError (RunShellCmdError_init r caller))
            | None => Raise IndexError
            end,
            with_events w (start_events env c args msg ++ dump_events r)).
Proof.
  intros Hdry Hqa Hspawn Hto Hopen r.
  assert (Ho1 : from_option (open_ok env) true (tmp_paths env args c).1 = true)
    by (apply Hopen; set_solver).
  assert (Ho2 : from_option (open_ok env) true (tmp_paths env args c).2 = true)
    by (apply Hopen; set_solver).
  clear Hopen.
  destruct (hidden args) eqn:Hhid; [exists EmptyString|eexists].
  all: run_prelude env child c args w Hdry Hhid Hqa Hspawn.
  all: run_step (child_output env args child)
         (if PyStr.opt_truthy (stdin args)
          then [EvStdin (default EmptyString (stdin args))] else [])
         ltac:(unfold child_output, in_time in *;
               destruct (streaming env args); cbn [orb andb];
               [erewrite bind_Return by reflexivity|];
               (destruct (PyStr.opt_truthy (stdin args)); cbn [when];
                [erewrite bind_Return by apply emit_eq
                |erewrite bind_Return by reflexivity; rewrite with_events_nil]);
               [erewrite bind_Return by (now apply output_loop_plain);
                destruct (split_stderr args); reflexivity ..
               |destruct (timeout args) as [t|]; [rewrite Hto|]; reflexivity
               |destruct (timeout args) as [t|]; [rewrite Hto|]; reflexivity]).
  all: cbn [fst snd].
  all: fold (run_result env child c args w); fold r.
  all: run_step tt (dump_events r)
         ltac:(unfold dump_events; subst r; cbn [run_result res_out_file
                 res_err_file res_output res_stderr];
               destruct ((tmp_paths env args c).1) as [fp|];
               [cbn [from_option] in Ho1; rewrite Ho1;
                erewrite bind_Return by apply emit_eq;
                destruct ((tmp_paths env args c).2) as [efp|];
                [cbn [from_option] in Ho2; rewrite Ho2, emit_eq|];
                rewrite ?with_events_app; try reflexivity
               |now rewrite with_events_nil]).
  all: change (res_exit_code r) with (child_exit_code child).
  all: unfold start_events, finish_events; rewrite Hhid.
  all: destruct (Z.eqb (child_exit_code child) 0); cbn [orb negb];
    [|destruct (fail_on_error args); cbn [negb]].
  all: try (unfold raise_run_shell_cmd_error;
            change ((frame_raise :: frame_run_shell_cmd :: outer_frames) !! 3%nat)
              with (outer_frames !! 1%nat);
            destruct (outer_frames !! 1%nat); unfold bind, raise; cbn [fst snd];
            rewrite <- ?app_assoc, ?app_nil_r; cbn [app]; reflexivity).
  all: run_step tt (@nil Event) ltac:(now rewrite with_events_nil).
  all: run_step tt
         (if with_hooks args then [EvHook false (hooked_cmd env args c)]
          else [])
         ltac:(destruct (with_hooks args);
               [reflexivity|now rewrite with_events_nil]).
  all: try (run_step tt (@nil Event) ltac:(now rewrite with_events_nil)).
  all: try (erewrite bind_Return by apply emit_eq; cbv beta;
            rewrite ?with_events_app).
  all: unfold ret; rewrite <- ?app_assoc, ?app_nil_r; cbn [app];
    reflexivity.
Qed.

(** X9: a run of [run_shell_cmd] outside dry run, without questions, with
    a child that starts, a timeout that does not expire and temporary files
    that can be opened.  The result
    holds the command after the hook, the exit code, the decoded output, the
    working directory and the temporary files; the actions are those of the
    start, the writes of the output, and then the post-step hook and the
    closing trace message.  When the exit code is not zero and
    [fail_on_error] is set, the output has been written and the error is
    raised instead, without the hook and the message. *)
Theorem run_shell_cmd_result child outer_frames c args w :
  negb (in_dry_run args) && opt_extended_dry_run env = false ->
  qa_patterns args = [] ->
  spawn_ok child = true ->
  in_time env args child ->
  (forall fp, fp ∈ [(tmp_paths env args c).1; (tmp_paths env args c).2] ->
     from_option (open_ok env) true fp = true) ->
  let r := run_result env child c args w in
  exists msg,
    run_shell_cmd env child outer_frames c args w
    = if Z.eqb (child_exit_code child) 0 || negb (fail_on_error args)
      then (Return r,
            with_events w (start_events env c args msg ++ dump_events r
                           ++ finish_events env c args))
      else (match outer_frames !! 1%nat with
            | Some caller =>
                Raise (ExcRunShellCmdError (RunShellCmdError_init r caller))
            | None => Raise IndexError
            end,
            with_events w (start_events env c args msg ++ dump_events r)).
Proof.
  intros Hdry Hqa Hspawn Hto Hopen r.
  now apply run_shell_cmd_plain_run.
Qed.

(** X10: when [communicate] exceeds the [timeout], [run_shell_cmd] ends
    the process with [terminate_process] and raises an EasyBuildError: the
    timeout error, or the error of [terminate_process] when the process
    survives SIGKILL.  After the start nothing but the signals and waits
    is done: no output is written, the post-step hook is not run. *)
Theorem run_shell_cmd_timeout child outer_frames c args w t :
  negb (in_dry_run args) && opt_extended_dry_run env = false ->
  streaming env args = false ->
  qa_patterns args = [] ->
  spawn_ok child = true ->
  timeout args = Some t ->
  Qgt_bool (comm_duration child) t = true ->
  let proc := {| returncode := None; history := [] |} in
  let grace := terminate_process_default_timeout in
  exists msg,
    run_shell_cmd env child outer_frames c args w
    = (Raise (EasyBuildError
                (if termination_fails (reap child) proc grace
                 then terminate_msg grace
                 else timeout_msg (to_cmd_str (hooked_cmd env args c)))),
       with_events w
         (start_events env c args msg
          ++ map EvProc (termination_actions (reap child) proc grace))).
Proof.
  intros Hdry Hstream Hqa Hspawn Hto Hexp proc grace.
  destruct (hidden args) eqn:Hhid; [exists EmptyString|eexists].
  all: run_prelude env child c args w Hdry Hhid Hqa Hspawn.
  all: rewrite Hstream, Hto, Hexp; cbn [orb].
  all: match goal with
       | |- bind _ _ ?W = _ =>
           rewrite (bind_Raise _ _ W
                      (EasyBuildError
                         (if termination_fails (reap child) proc grace
                          then terminate_msg grace
                          else timeout_msg (to_cmd_str (hooked_cmd env args c))))
                      (with_events W
                         ((if PyStr.opt_truthy (stdin args)
                           then [EvStdin (default EmptyString (stdin args))]
                           else [])
                          ++ map EvProc
                               (termination_actions (reap child) proc grace))))
       end.
  all: try (unfold start_events; rewrite Hhid, Hstream, ?with_events_app;
            rewrite <- ?app_assoc, ?app_nil_r; cbn [app]; reflexivity).
  all: match goal with
       | |- bind _ _ ?W = _ =>
           rewrite (bind_Return _ _ W tt
                      (with_events W
                         (if PyStr.opt_truthy (stdin args)
                          then [EvStdin (default EmptyString (stdin args))]
                          else [])))
             by (destruct (PyStr.opt_truthy (stdin args));
                 [reflexivity|now rewrite with_events_nil])
       end.
  all: cbv beta; unfold bind at 1; rewrite terminate_process_eq;
    fold proc; fold grace; unfold termination_fails;
    rewrite <- ?with_events_app.
  all: destruct ((poll (reap child) proc).1) as [rc|]; [reflexivity|];
    cbv zeta;
    destruct (reap child (history proc ++ [Sent SIGTERM; Waited grace]))
      as [rc|]; [reflexivity|];
    rewrite <- app_assoc;
    destruct (reap child (history proc ++ [Sent SIGTERM; Waited grace]
                          ++ [Sent SIGKILL; Waited grace])) as [rc|];
    reflexivity.
Qed.
End PlainRun.


Lemma filter_chars_app f s t :
  PyStr.filter_chars f (s +:+ t)
  = PyStr.filter_chars f s +:+ PyStr.filter_chars f t.
Proof.
  induction s as [|a s IH]; [reflexivity|].
  change (String a s +:+ t) with (String a (s +:+ t)).
  cbn [PyStr.filter_chars]. rewrite IH. destruct (f a); reflexivity.
Qed.

Lemma ascii_ignore_is_ascii s : is_ascii (ascii_ignore s).
Proof.
  unfold is_ascii, ascii_ignore. rewrite filter_chars_list.
  apply List.Forall_forall. intros a Ha. apply List.filter_In in Ha as [_ Ha].
  now apply Nat.ltb_lt.
Qed.

(** X11: what [get_output_from_process] returns has only characters of the
    ASCII range.  Without [asynchronous] it is the decoded result of
    [read(read_size)], or of [read()] when [read_size] is zero or [None], so
    a read size of zero is the same as none.  Decoding with errors ignored
    distributes over concatenation, leaves ASCII text as it is, and is
    idempotent. *)
Theorem get_output_from_process_ascii out read_size asynchronous_ :
  (forall o, get_output_from_process out read_size asynchronous_ = Some o ->
     is_ascii o)
  /\ (asynchronous_ = false ->
      get_output_from_process out read_size false
      = Some (ascii_ignore
                (match read_size with
                 | Some n => if Z.eqb n 0 then read_all out else read_upto out n
                 | None => read_all out
                 end)))
  /\ get_output_from_process out (Some 0%Z) asynchronous_
     = get_output_from_process out None asynchronous_
  /\ (forall s t, ascii_ignore (s +:+ t) = ascii_ignore s +:+ ascii_ignore t)
  /\ (forall s, is_ascii s -> ascii_ignore s = s)
  /\ (forall s, ascii_ignore (ascii_ignore s) = ascii_ignore s).
Proof.
  split.
  { intros o Ho. unfold get_output_from_process in Ho.
    apply fmap_Some in Ho as (raw & _ & ->). apply ascii_ignore_is_ascii. }
  split.
  { intros _. unfold get_output_from_process.
    destruct read_size as [n|]; [destruct (Z.eqb n 0)|]; reflexivity. }
  split; [reflexivity|].
  split; [intros; apply filter_chars_app|].
  split.
  { intros s Hs. apply filter_chars_all. unfold is_ascii in Hs.
    eapply Forall_impl; [exact Hs|]. intros a Ha. now apply Nat.ltb_lt. }
  intros s. apply filter_chars_idem.
Qed.

Section ParseFacts.
Context `{PyLib}.

(** X12: [parse_log_for_error] refuses [regExp=False] with an
    EasyBuildError, and raises the error of [re.compile] for an expression
    that does not compile, leaving the world alone.  Otherwise it returns one entry for each line of the
    text that the expression matches, in the order of the lines, with the
    groups of the match, and adds their number to [errors_found_in_log];
    nothing else of the world changes. *)
Theorem parse_log_for_error_counts txt regExp w :
  match error_pattern regExp with
  | None =>
      exists msg,
        Legacy.parse_log_for_error txt regExp w = (Raise (EasyBuildError msg), w)
  | Some pattern =>
      if re_compile_ok ReStrI pattern then
        exists res,
          Legacy.parse_log_for_error txt regExp w
          = (Return res, with_more_errors w (Z.of_nat (length res)))
          /\ map fst res
             = List.filter
                 (fun line => bool_decide
                                (is_Some (re_search ReStrI pattern line)))
                 (PyStr.split_char "010"%char txt)
          /\ Forall (fun r => exists m, re_search ReStrI pattern r.1 = Some m
                                        /\ r.2 = groups m) res
      else Legacy.parse_log_for_error txt regExp w = (Raise ReError, w)
  end.
Proof.
  unfold Legacy.parse_log_for_error, error_pattern.
  destruct regExp as [[]|s]; cbn [bind ret raise]; try (eexists; reflexivity).
  all: match goal with
       | |- context [re_compile_ok ReStrI ?p] =>
           destruct (re_compile_ok ReStrI p); [|reflexivity];
           generalize (PyStr.split_char "010"%char txt) as lines; intros lines;
           eexists; split; [reflexivity|];
           induction lines as [|line lines [IH1 IH2]];
             [split; [reflexivity|constructor]|];
           cbn [omap list_omap List.filter];
           destruct (re_search ReStrI p line) as [m|] eqn:Hm
       end.
  all: try (rewrite bool_decide_eq_true_2 by eauto; cbn [map fst];
            split; [now f_equal|]; constructor; [eauto|exact IH2]).
  all: rewrite bool_decide_eq_false_2 by (intros [? ?]; discriminate);
    auto.
Qed.

Lemma parse_log_for_error_frame txt regExp w :
  let w' := (Legacy.parse_log_for_error txt regExp w).2 in
  w_cwd w' = w_cwd w /\ w_trace w' = w_trace w /\ w_heap w' = w_heap w
  /\ w_strictness w' = w_strictness w.
Proof.
  unfold Legacy.parse_log_for_error.
  destruct regExp as [[]|s]; cbn [bind ret raise fst snd]; auto;
    match goal with
    | |- context [re_compile_ok ReStrI ?p] =>
        destruct (re_compile_ok ReStrI p); cbn; auto
    end.
Qed.

(** What [parse_log_for_error] leaves of the world, and that it returns
    when its expression is accepted. *)
Lemma parse_log_for_error_returns txt regExp w pattern :
  error_pattern regExp = Some pattern ->
  re_compile_ok ReStrI pattern = true ->
  exists res,
    Legacy.parse_log_for_error txt regExp w
    = (Return res, with_more_errors w (Z.of_nat (length res))).
Proof.
  intros Hp Hc. unfold Legacy.parse_log_for_error, error_pattern in *.
  destruct regExp as [[]|s]; try discriminate; injection Hp as <-;
    cbn [bind ret raise]; rewrite Hc; eexists; reflexivity.
Qed.

(** The value that [parse_cmd_output] returns, and what it leaves of the
    world. *)
Lemma parse_cmd_output_shape c stdouterr ec simple_ log_all_ log_ok_ regexp_ w :
  let run := Legacy.parse_cmd_output c stdouterr ec simple_ log_all_ log_ok_
               regexp_ w in
  match run.1 with
  | Return (Simple ok) =>
      simple_ = true
      /\ ok = (Z.eqb ec 0 || bool_decide (w_strictness w = IGNORE))
  | Return (Full o e) => simple_ = false /\ o = stdouterr /\ e = ec
  | Raise _ => True
  end
  /\ (w_cwd run.2 = w_cwd w /\ w_trace run.2 = w_trace w
      /\ w_heap run.2 = w_heap w /\ w_strictness run.2 = w_strictness w).
Proof.
  intros run. subst run.
  pose proof (parse_log_for_error_frame stdouterr regexp_ w) as Hp.
  cbv zeta in Hp.
  unfold Legacy.parse_cmd_output, get_strictness, bind, ret, raise.
  cbn [fst snd].
  destruct (w_strictness w) eqn:Hs, (Z.eqb ec 0) eqn:Hec,
    (log_all_ || log_ok_) eqn:Hlog, (regexp_truthy regexp_) eqn:Hre;
    cbn [negb andb orb fst snd].
  all: destruct (Legacy.parse_log_for_error stdouterr regexp_ w)
         as [[res|e] w1]; cbn [fst snd] in Hp; cbn [fst snd].
  all: try destruct res as [|r res]; cbn [fst snd].
  all: destruct simple_; cbn [negb andb orb fst snd].
  all: rewrite ?bool_decide_eq_true_2 by reflexivity;
    rewrite ?bool_decide_eq_false_2 by discriminate;
    cbn [negb andb orb].
  all: split; auto.
Qed.

(** X13: a non-zero exit code under [log_ok] or [log_all], with a
    strictness other than [ignore], makes [parse_cmd_output] raise the
    exit-code error, whatever [simple] and [regexp] are; the output is not
    searched for errors, the world is left as it is. *)
Theorem parse_cmd_output_exit_code c stdouterr ec simple_ log_all_ log_ok_
    regexp_ w :
  ec <> 0%Z ->
  log_all_ || log_ok_ = true ->
  w_strictness w <> IGNORE ->
  Legacy.parse_cmd_output c stdouterr ec simple_ log_all_ log_ok_ regexp_ w
  = (Raise (EasyBuildError
              (Legacy.exit_msg (Legacy.cmd_to_text c) ec stdouterr)), w).
Proof.
  intros Hec Hlog Hstrict. apply Z.eqb_neq in Hec.
  unfold Legacy.parse_cmd_output, get_strictness, bind at 1.
  rewrite Hec, Hlog. cbn [negb andb].
  destruct (w_strictness w); [contradiction|reflexivity..].
Qed.

(** X14: when [parse_cmd_output] returns, under [simple] the value is the
    boolean [ec == 0 or strictness == IGNORE], else the pair of the output
    and the exit code as given.  It keeps the directory, the trace, the
    answer lists and the strictness.  With a falsy [regexp] it returns
    whenever the exit code is zero, the strictness is [ignore], or neither
    [log_ok] nor [log_all] is set. *)
Theorem parse_cmd_output_value c stdouterr ec simple_ log_all_ log_ok_
    regexp_ w :
  let run := Legacy.parse_cmd_output c stdouterr ec simple_ log_all_ log_ok_
               regexp_ w in
  match run.1 with
  | Return (Simple ok) =>
      simple_ = true
      /\ ok = (Z.eqb ec 0 || bool_decide (w_strictness w = IGNORE))
  | Return (Full o e) => simple_ = false /\ o = stdouterr /\ e = ec
  | Raise _ => True
  end
  /\ (w_cwd run.2 = w_cwd w /\ w_trace run.2 = w_trace w
      /\ w_heap run.2 = w_heap w /\ w_strictness run.2 = w_strictness w)
  /\ (regexp_truthy regexp_ = false ->
      (ec = 0%Z \/ w_strictness w = IGNORE \/ log_all_ || log_ok_ = false) ->
      run = (Return (if simple_
                     then Simple (Z.eqb ec 0
                                  || bool_decide (w_strictness w = IGNORE))
                     else Full stdouterr ec), w)).
Proof.
  intros run.
  destruct (parse_cmd_output_shape c stdouterr ec simple_ log_all_ log_ok_
              regexp_ w) as [Hval Hframe].
  split; [exact Hval|]. split; [exact Hframe|].
  intros Hre Hok. subst run.
  unfold Legacy.parse_cmd_output, get_strictness, bind, ret, raise.
  cbn [fst snd]. rewrite Hre.
  destruct (w_strictness w) eqn:Hs, (Z.eqb ec 0) eqn:Hec,
    (log_all_ || log_ok_) eqn:Hlog, simple_;
    cbn [negb andb orb fst snd].
  all: rewrite ?bool_decide_eq_true_2 by reflexivity;
    rewrite ?bool_decide_eq_false_2 by discriminate;
    cbn [negb andb orb]; try reflexivity.
  all: destruct Hok as [Hz|[Hi|Hl]]; try discriminate.
  all: apply Z.eqb_neq in Hec; contradiction.
Qed.
End ParseFacts.

Lemma concat_cons_str x l :
  String.concat EmptyString (x :: l) = x +:+ String.concat EmptyString l.
Proof. destruct l; [now rewrite append_nil_r_str|reflexivity]. Qed.

Lemma ascii_ignore_concat reads :
  String.concat EmptyString (map ascii_ignore reads)
  = ascii_ignore (String.concat EmptyString reads).
Proof.
  induction reads as [|d ds IH]; [reflexivity|].
  cbn [map]. rewrite !concat_cons_str, IH. unfold ascii_ignore.
  now rewrite filter_chars_app.
Qed.

Lemma written_to_app f t1 t2 :
  written_to f (t1 ++ t2) = written_to f t1 ++ written_to f t2.
Proof. apply omap_app. Qed.

Lemma stdout_written_app t1 t2 :
  stdout_written (t1 ++ t2) = stdout_written t1 ++ stdout_written t2.
Proof. apply omap_app. Qed.

Lemma written_to_output_events f streaming reads :
  written_to f (flat_map (output_events (Some f) streaming) reads) = reads.
Proof.
  induction reads as [|d ds IH]; [reflexivity|].
  cbn [flat_map]. rewrite written_to_app, IH. unfold output_events.
  rewrite written_to_app. cbn [written_to omap list_omap app].
  rewrite String.eqb_refl. destruct streaming; reflexivity.
Qed.

Lemma stdout_written_output_events cmd_log reads :
  stdout_written (flat_map (output_events cmd_log true) reads) = reads.
Proof.
  induction reads as [|d ds IH]; [reflexivity|].
  cbn [flat_map]. rewrite stdout_written_app, IH. unfold output_events.
  rewrite stdout_written_app. destruct cmd_log; reflexivity.
Qed.

Lemma complete_loop_eq cmd_log streaming reads acc w :
  Legacy.complete_loop cmd_log streaming reads acc w
  = (Return (acc +:+ String.concat EmptyString (map ascii_ignore reads)),
     with_events w
       (flat_map (output_events cmd_log streaming) (map ascii_ignore reads))).
Proof.
  revert acc w. induction reads as [|d ds IH]; intros acc w.
  - cbn. now rewrite append_nil_r_str, with_events_nil.
  - cbn [Legacy.complete_loop map flat_map].
    rewrite (bind_Return _ _ w tt
               (with_events w match cmd_log with
                              | Some f => [EvWriteFile f (ascii_ignore d)]
                              | None => []
                              end))
      by (destruct cmd_log; [reflexivity|now rewrite with_events_nil]).
    match goal with
    | |- bind _ _ ?W = _ =>
        rewrite (bind_Return _ _ W tt
                   (with_events W (if streaming
                                   then [EvStdoutWrite (ascii_ignore d)]
                                   else [])))
          by (destruct streaming; [reflexivity|now rewrite with_events_nil])
    end.
    rewrite IH, !with_events_app, concat_cons_str, append_assoc_str.
    unfold output_events. now rewrite <- !app_assoc.
Qed.

Section CompleteFacts.
Context `{PyLib}.
Variable env : Env.

(** [complete_cmd] reads what is left, writes it where it has to, runs the
    hook, goes back to [owd] and parses the output. *)
Lemma complete_cmd_eq child c owd cmd_log log_ok_ log_all_ simple_
    regexp_ stream_output_ (trace_ : bool) output (with_hook : bool) w :
  let streaming := default false stream_output_ in
  let reads := map ascii_ignore
                 (Legacy.chunks child ++ [Legacy.final_output child]) in
  let stdouterr :=
    output +:+ ascii_ignore
                 (String.concat EmptyString
                    (Legacy.chunks child ++ [Legacy.final_output child])) in
  let evs := flat_map (output_events cmd_log streaming) reads
             ++ (if with_hook then [EvHook false c] else [])
             ++ (if trace_ then [EvTraceMsg "command completed"] else []) in
  Legacy.complete_cmd env child c owd cmd_log log_ok_ log_all_ simple_ regexp_
    stream_output_ trace_ output with_hook w
  = (if chdir_ok env owd
     then Legacy.parse_cmd_output c stdouterr (Legacy.exit_code child) simple_
            log_all_ log_ok_ regexp_ (set_cwd owd (with_events w evs)).2
     else (Raise (EasyBuildError (Legacy.return_failed_msg owd)),
           with_events w evs)).
Proof.
  intros streaming reads stdouterr evs.
  assert (Hcat : String.concat EmptyString reads
                 = ascii_ignore
                     (String.concat EmptyString
                        (Legacy.chunks child ++ [Legacy.final_output child])))
    by apply ascii_ignore_concat.
  unfold Legacy.complete_cmd. fold streaming.
  rewrite (bind_Return _ _ _ _ _ (complete_loop_eq _ _ _ _ _)).
  match goal with
  | |- bind _ _ ?W = _ =>
      rewrite (bind_Return _ _ W tt
                 (with_events W
                    match cmd_log with
                    | Some f =>
                        [EvWriteFile f
                           (ascii_ignore (Legacy.final_output child))]
                    | None => []
                    end))
        by (destruct cmd_log; [reflexivity|now rewrite with_events_nil])
  end.
  match goal with
  | |- bind _ _ ?W = _ =>
      rewrite (bind_Return _ _ W tt
                 (with_events W
                    (if streaming
                     then [EvStdoutWrite
                             (ascii_ignore (Legacy.final_output child))]
                     else [])))
        by (destruct streaming; [reflexivity|now rewrite with_events_nil])
  end.
  match goal with
  | |- bind _ _ ?W = _ =>
      rewrite (bind_Return _ _ W tt
                 (with_events W (if with_hook then [EvHook false c] else [])))
        by (destruct with_hook; [reflexivity|now rewrite with_events_nil])
  end.
  match goal with
  | |- bind _ _ ?W = _ =>
      rewrite (bind_Return _ _ W tt
                 (with_events W (if trace_
                                 then [EvTraceMsg "command completed"]
                                 else [])))
        by (destruct trace_; [reflexivity|now rewrite with_events_nil])
  end.
  rewrite !with_events_app.
  assert (Hevs :
            flat_map (output_events cmd_log streaming)
              (map ascii_ignore (Legacy.chunks child))
            ++ match cmd_log with
               | Some f =>
                   [EvWriteFile f (ascii_ignore (Legacy.final_output child))]
               | None => []
               end
            ++ (if streaming
                then [EvStdoutWrite (ascii_ignore (Legacy.final_output child))]
                else [])
            ++ (if with_hook then [EvHook false c] else [])
            ++ (if trace_ then [EvTraceMsg "command completed"] else [])
            = evs).
  { subst evs reads. rewrite map_app, flat_map_app. cbn [map flat_map].
    unfold output_events at 3. rewrite app_nil_r, <- !app_assoc.
    reflexivity. }
  rewrite <- ?app_assoc, Hevs.
  assert (Hout :
            (output +:+ String.concat EmptyString
                          (map ascii_ignore (Legacy.chunks child)))
            +:+ ascii_ignore (Legacy.final_output child)
            = stdouterr).
  { subst stdouterr. rewrite <- Hcat. subst reads.
    rewrite map_app, concat_app_str. cbn [map String.concat].
    now rewrite append_assoc_str. }
  rewrite Hout. unfold chdir.
  destruct (chdir_ok env owd); reflexivity.
Qed.

(** X15: [complete_cmd] returns to [owd] and parses the output given
    followed by all that is read, decoded; if it cannot return to [owd] it
    raises after the hook and the trace message.  What it writes to the
    log file, and to stdout when streaming, is piece by piece what it
    reads: put together after the output given, it is the output that is
    parsed. *)
Theorem complete_cmd_collects child c owd cmd_log log_ok_ log_all_ simple_
    regexp_ stream_output_ (trace_ : bool) output (with_hook : bool) w :
  let streaming := default false stream_output_ in
  let reads := map ascii_ignore
                 (Legacy.chunks child ++ [Legacy.final_output child]) in
  let stdouterr :=
    output +:+ ascii_ignore
                 (String.concat EmptyString
                    (Legacy.chunks child ++ [Legacy.final_output child])) in
  let evs := flat_map (output_events cmd_log streaming) reads
             ++ (if with_hook then [EvHook false c] else [])
             ++ (if trace_ then [EvTraceMsg "command completed"] else []) in
  Legacy.complete_cmd env child c owd cmd_log log_ok_ log_all_ simple_ regexp_
    stream_output_ trace_ output with_hook w
  = (if chdir_ok env owd
     then Legacy.parse_cmd_output c stdouterr (Legacy.exit_code child) simple_
            log_all_ log_ok_ regexp_ (set_cwd owd (with_events w evs)).2
     else (Raise (EasyBuildError (Legacy.return_failed_msg owd)),
           with_events w evs))
  /\ (forall f, cmd_log = Some f ->
        output +:+ String.concat EmptyString (written_to f evs) = stdouterr)
  /\ (streaming = true ->
      output +:+ String.concat EmptyString (stdout_written evs) = stdouterr).
Proof.
  intros streaming reads stdouterr evs.
  assert (Hcat : String.concat EmptyString reads
                 = ascii_ignore
                     (String.concat EmptyString
                        (Legacy.chunks child ++ [Legacy.final_output child])))
    by apply ascii_ignore_concat.
  split; [apply complete_cmd_eq|split].
  - intros f ->. subst evs. rewrite !written_to_app.
    rewrite written_to_output_events.
    replace (written_to f (if with_hook then [EvHook false c] else []))
      with (@nil string) by (destruct with_hook; reflexivity).
    replace (written_to f (if trace_ then [EvTraceMsg "command completed"]
                           else []))
      with (@nil string) by (destruct trace_; reflexivity).
    rewrite !app_nil_r, Hcat. reflexivity.
  - intros Hs. subst evs. rewrite Hs, !stdout_written_app.
    rewrite stdout_written_output_events.
    replace (stdout_written (if with_hook then [EvHook false c] else []))
      with (@nil string) by (destruct with_hook; reflexivity).
    replace (stdout_written (if trace_ then [EvTraceMsg "command completed"]
                             else []))
      with (@nil string) by (destruct trace_; reflexivity).
    rewrite !app_nil_r, Hcat. reflexivity.
Qed.
End CompleteFacts.

Section AsyncFacts.
Context `{PyLib}.
Variable env : Env.

(** X16: while the process is running, [check_async_cmd] returns
    [done=False], no exit code, and the output given followed by what it
    reads; the world is left as it is, the log file included.  A read size
    that is negative or not an int is refused with an EasyBuildError. *)
Theorem check_async_cmd_running proc c owd cmd_log fail_on_error_
    output_read_size output w :
  ap_poll proc = None ->
  Async.check_async_cmd env proc c owd cmd_log fail_on_error_ output_read_size
    output w
  = (match polled_output proc output_read_size with
     | Some added =>
         Return {| chk_done := false; chk_exit_code := None;
                   chk_output := output +:+ added |}
     | None => Raise (EasyBuildError read_size_msg)
     end, w).
Proof.
  intros Hpoll. unfold Async.check_async_cmd, polled_output. rewrite Hpoll.
  destruct output_read_size as [n| |[]]; cbn [bind ret raise];
    rewrite ?append_nil_r_str; try reflexivity.
  rewrite (Z.eqb_sym n 0), Z.eqb_compare, Z.ltb_compare.
  rewrite (Z.compare_antisym n 0).
  destruct (n ?= 0)%Z; cbn; rewrite ?append_nil_r_str; reflexivity.
Qed.

(** A check that finds the process exited completes the command: it
    reads what is left, runs the hook and goes back to [owd]. *)
Lemma check_async_cmd_finished_eq proc c owd cmd_log fail_on_error_
    output_read_size output w ec added :
  ap_poll proc = Some ec ->
  polled_output proc output_read_size = Some added ->
  let last := ascii_ignore (read_all (ap_output proc)) in
  Async.check_async_cmd env proc c owd cmd_log fail_on_error_
    output_read_size output w
  = if chdir_ok env owd
    then
      match Legacy.parse_cmd_output c (output +:+ added +:+ last) ec false
              false fail_on_error_ (RegexpBool true)
              (set_cwd owd
                 (with_events w (output_events cmd_log false last
                                 ++ [EvHook false c]))).2 with
      | (Return o, w') =>
          (Return {| chk_done := true; chk_exit_code := Some ec;
                     chk_output := match o with
                                   | Full stdouterr _ => stdouterr
                                   | Simple _ => EmptyString
                                   end |}, w')
      | (Raise e, w') => (Raise e, w')
      end
    else (Raise (EasyBuildError (Legacy.return_failed_msg owd)),
          with_events w (output_events cmd_log false last ++ [EvHook false c])).
Proof.
  intros Hpoll Hadded last.
  unfold Async.check_async_cmd. rewrite Hpoll.
  assert (Hsize :
            match output_read_size with
            | SizeInt n =>
                if Z.eqb n 0 then ret output
                else if Z.ltb n 0 then raise (EasyBuildError read_size_msg)
                     else ret (output +:+ ascii_ignore
                                            (read_upto (ap_output proc) n))
            | SizeNone => ret output
            | SizeOther truthy =>
                if truthy then raise (EasyBuildError read_size_msg)
                else ret output
            end = ret (output +:+ added)).
  { unfold polled_output in Hadded.
    destruct output_read_size as [n| |[]]; try discriminate.
    - rewrite (Z.eqb_sym n 0), Z.eqb_compare, Z.ltb_compare in *.
      rewrite (Z.compare_antisym n 0) in *.
      destruct (n ?= 0)%Z; cbn [CompOpp] in *; try discriminate;
        injection Hadded as <-; rewrite ?append_nil_r_str; reflexivity.
    - injection Hadded as <-. rewrite append_nil_r_str. reflexivity.
    - injection Hadded as <-. rewrite append_nil_r_str. reflexivity. }
  rewrite Hsize. unfold bind at 1, ret at 1. cbn [fst snd]. unfold bind at 1.
  pose proof (complete_cmd_eq env
                {| Legacy.spawn_ok := true; Legacy.chunks := [];
                   Legacy.final_output := read_all (ap_output proc);
                   Legacy.exit_code := ec |}
                c owd cmd_log fail_on_error_ false false (RegexpBool true)
                None false (output +:+ added) true w) as Hcc.
  cbv zeta in Hcc. cbn [Legacy.chunks Legacy.final_output Legacy.exit_code
                       app map flat_map default String.concat] in Hcc.
  rewrite Hcc. clear Hcc. fold last.
  rewrite append_assoc_str, !app_nil_r.
  destruct (chdir_ok env owd); [|reflexivity].
  destruct (Legacy.parse_cmd_output _ _ _ _ _ _ _ _) as [[o|e] w'];
    reflexivity.
Qed.

(** X17: when the process has exited, a result of [check_async_cmd] has
    [done=True], the exit code, and the output given followed by what was
    read before and after the poll; the directory is [owd], and the trace
    has grown by the write of the last output to the log, the post-step
    hook and the change of directory.  With [fail_on_error=False] and a
    strictness other than [error] the check returns. *)
Theorem check_async_cmd_finished proc c owd cmd_log fail_on_error_
    output_read_size output w ec added :
  ap_poll proc = Some ec ->
  polled_output proc output_read_size = Some added ->
  let run := Async.check_async_cmd env proc c owd cmd_log fail_on_error_
               output_read_size output w in
  let last := ascii_ignore (read_all (ap_output proc)) in
  match run.1 with
  | Return r =>
      chk_done r = true
      /\ chk_exit_code r = Some ec
      /\ chk_output r = output +:+ added +:+ last
      /\ w_cwd run.2 = owd
      /\ w_trace run.2
         = w_trace w ++ match cmd_log with
                        | Some f => [EvWriteFile f last]
                        | None => []
                        end ++ [EvHook false c; EvChdir owd]
  | Raise e =>
      chdir_ok env owd = false ->
      e = EasyBuildError (Legacy.return_failed_msg owd)
  end
  /\ (fail_on_error_ = false ->
      w_strictness w <> ERROR ->
      chdir_ok env owd = true ->
      re_compile_ok ReStrI default_error_regexp = true ->
      exists r, run.1 = Return r).
Proof.
  intros Hpoll Hadded run last. subst run.
  rewrite (check_async_cmd_finished_eq proc c owd cmd_log fail_on_error_
             output_read_size output w ec added Hpoll Hadded).
  cbv zeta. fold last.
  destruct (chdir_ok env owd) eqn:Hok.
  - set (W := (set_cwd owd _).2).
    pose proof (parse_cmd_output_shape c (output +:+ added +:+ last) ec false
                  false fail_on_error_ (RegexpBool true) W)
      as (Hval & Hcwd & Htr & _).
    cbv zeta in Hval, Hcwd, Htr.
    split.
    + destruct (Legacy.parse_cmd_output _ _ _ _ _ _ _ W) as [[[ok|o e]|e] w'];
        cbn [fst snd] in *.
      * destruct Hval; discriminate.
      * destruct Hval as (_ & -> & _).
        split; [reflexivity|]. split; [reflexivity|]. split; [reflexivity|].
        rewrite Hcwd, Htr. subst W.
        cbn [set_cwd fst snd w_cwd w_trace with_events].
        split; [reflexivity|]. unfold output_events.
        rewrite <- !app_assoc. cbn [app].
        destruct cmd_log; reflexivity.
      * discriminate.
    + intros Hfoe Hstrict _ Hcomp. subst fail_on_error_.
      assert (Hparse : exists o w',
                 Legacy.parse_cmd_output c (output +:+ added +:+ last) ec false
                   false false (RegexpBool true) W = (Return o, w')).
      { destruct (parse_log_for_error_returns (output +:+ added +:+ last)
                    (RegexpBool true) W default_error_regexp eq_refl Hcomp)
          as (res & Hscan).
        unfold Legacy.parse_cmd_output, get_strictness.
        unfold bind at 1. cbn [fst snd orb andb regexp_truthy].
        rewrite andb_false_r. unfold bind at 1, ret at 1. cbn [fst snd].
        assert (HsW : w_strictness W = w_strictness w) by reflexivity.
        rewrite HsW.
        destruct (w_strictness w); [| |contradiction]; cbn [orb].
        all: unfold bind; rewrite Hscan; cbn [fst snd];
          destruct res; eauto. }
      destruct Hparse as (o & w' & ->). cbn [fst snd]. eauto.
  - cbn [fst snd]. split; [intros _; reflexivity|].
    intros _ _ Hc. discriminate.
Qed.

Section RunCmdFacts.

(** X18: when its log file, if it keeps one, can be opened, [run_cmd]
    refuses a command given as a list when [shell] is not given, before it
    does anything.  In dry run (without
    [force_in_dry_run]) it returns the neutral value, [True] or [('', 0)],
    after the log file, the streaming notice, the trace message and, under
    [verbose], the two dry-run messages: no directory change, no hook, no
    process. *)
Theorem run_cmd_not_started child c args w :
  from_option (open_ok env) true (run_cmd_log env args) = true ->
  (effective_shell args c = None ->
   exists msg, Legacy.run_cmd env child c args w = (Raise (EasyBuildError msg), w))
  /\ (is_Some (effective_shell args c) ->
      negb (Legacy.force_in_dry_run args) && opt_extended_dry_run env = true ->
      exists msg1 msg2,
        Legacy.run_cmd env child c args w
        = (Return (Legacy.Completed (if Legacy.simple args then Simple true
                              else Full EmptyString 0)),
           with_events w
             (run_cmd_announces env args c
              ++ (if Legacy.verbose args
                  then [EvDryRunMsg msg1 (opt_silent env);
                        EvDryRunMsg msg2 (opt_silent env)]
                  else [])))).
Proof.
  intros Hopen. split.
  - intros Hsh. unfold effective_shell in Hsh. unfold Legacy.run_cmd.
    destruct (Legacy.shell args); [discriminate|].
    destruct c; [discriminate|]. eexists. reflexivity.
  - intros [sh Hsh] Hdry.
    destruct (Legacy.verbose args) eqn:Hverb; [do 2 eexists|exists EmptyString, EmptyString].
    all: unfold Legacy.run_cmd.
    all: run_step (w_cwd w) (@nil Event) ltac:(now rewrite with_events_nil).
    all: run_step sh (@nil Event)
           ltac:(unfold effective_shell in Hsh;
                 destruct (Legacy.shell args);
                 [injection Hsh as ->|destruct c; [injection Hsh as <-|discriminate]];
                 now rewrite with_events_nil).
    all: run_step (run_cmd_log env args)
           (if run_cmd_logs env args
            then [EvMkstemp "easybuild-run_cmd-" ".log"] else [])
           ltac:(unfold Legacy.open_cmd_log, run_cmd_log in *;
                 fold (run_cmd_logs env args);
                 destruct (run_cmd_logs env args);
                 [erewrite bind_Return by apply emit_eq;
                  cbn [from_option] in Hopen; rewrite Hopen; reflexivity
                 |now rewrite with_events_nil]).
    all: fold (run_cmd_stream env args).
    all: run_step tt
           (if default false (run_cmd_stream env args)
            then [EvPrintMsg ("(streaming) output for command '"
                              +:+ to_cmd_str c +:+ "':")]
            else [])
           ltac:(destruct (default false (run_cmd_stream env args));
                 [reflexivity|now rewrite with_events_nil]).
    all: run_step tt
           (if Legacy.trace args
            then [EvTraceMsg ("running command: " +:+ to_cmd_str c)] else [])
           ltac:(destruct (Legacy.trace args);
                 [reflexivity|now rewrite with_events_nil]).
    all: rewrite Hdry, Hverb; cbn [when].
    1: erewrite bind_Return
         by (erewrite bind_Return by apply emit_eq; apply emit_eq).
    2: erewrite bind_Return by reflexivity.
    all: rewrite ?with_events_app, ?app_nil_r; unfold run_cmd_announces;
      rewrite <- ?app_assoc; cbn [app];
      destruct (Legacy.simple args); reflexivity.
Qed.

(** X19: an asynchronous [run_cmd] returns the process with the command
    after the hook, the directory of the caller and the log file, once the
    process has its input.  It leaves the current directory at [path]: the
    directory of the caller is entered again only by a later
    [check_async_cmd] that finds the process exited. *)
Theorem run_cmd_asynchronous child c args w sh :
  from_option (open_ok env) true (run_cmd_log env args) = true ->
  effective_shell args c = Some sh ->
  negb (Legacy.force_in_dry_run args) && opt_extended_dry_run env = false ->
  Legacy.spawn_ok child = true ->
  Legacy.asynchronous args = true ->
  let handle := Legacy.Started (run_cmd_command env args sh c) (w_cwd w)
                  (run_cmd_log env args) in
  let w1 := with_events
              (entered env (Legacy.path args)
                 (with_events w (run_cmd_announces env args c)))
              (run_cmd_starts env args sh c) in
  Legacy.run_cmd env child c args w = (Return handle, w1)
  /\ w_cwd w1 = (if PyStr.opt_truthy (Legacy.path args)
                    && chdir_ok env (default EmptyString (Legacy.path args))
                 then default EmptyString (Legacy.path args) else w_cwd w)
  /\ (forall proc ec foe size out w2,
        ap_poll proc = Some ec ->
        is_Some (polled_output proc size) ->
        let check := Async.check_async_cmd env proc
                       (run_cmd_command env args sh c) (w_cwd w)
                       (run_cmd_log env args) foe size out w2 in
        match check.1 with
        | Return r => chk_done r = true /\ w_cwd check.2 = w_cwd w
        | Raise _ => True
        end).
Proof.
  intros Hopen Hsh Hdry Hspawn Hasync handle w1.
  split; [|split].
  - subst handle w1. unfold Legacy.run_cmd.
    run_step (w_cwd w) (@nil Event) ltac:(now rewrite with_events_nil).
    run_step sh (@nil Event)
      ltac:(unfold effective_shell in Hsh;
            destruct (Legacy.shell args);
            [injection Hsh as ->|destruct c; [injection Hsh as <-|discriminate]];
            now rewrite with_events_nil).
    run_step (run_cmd_log env args)
      (if run_cmd_logs env args
       then [EvMkstemp "easybuild-run_cmd-" ".log"] else [])
      ltac:(unfold Legacy.open_cmd_log, run_cmd_log in *;
            fold (run_cmd_logs env args);
            destruct (run_cmd_logs env args);
            [erewrite bind_Return by apply emit_eq;
             cbn [from_option] in Hopen; rewrite Hopen; reflexivity
            |now rewrite with_events_nil]).
    fold (run_cmd_stream env args).
    run_step tt
      (if default false (run_cmd_stream env args)
       then [EvPrintMsg ("(streaming) output for command '"
                         +:+ to_cmd_str c +:+ "':")]
       else [])
      ltac:(destruct (default false (run_cmd_stream env args));
            [reflexivity|now rewrite with_events_nil]).
    run_step tt
      (if Legacy.trace args
       then [EvTraceMsg ("running command: " +:+ to_cmd_str c)] else [])
      ltac:(destruct (Legacy.trace args);
            [reflexivity|now rewrite with_events_nil]).
    rewrite Hdry.
    match goal with
    | |- bind _ _ ?W = _ =>
        rewrite (bind_Return _ _ W tt (entered env (Legacy.path args) W))
          by (unfold Legacy.try_chdir, entered, chdir;
              destruct (PyStr.opt_truthy (Legacy.path args)); [|reflexivity];
              destruct (chdir_ok env (default EmptyString (Legacy.path args)));
              reflexivity)
    end.
    cbv beta.
    fold (run_cmd_announces env args c).
    run_step tt
      (match run_cmd_log env args with
       | Some f => [EvWriteFile f ("# output for command: " +:+ to_cmd_str c
                                   +:+ PyStr.nl +:+ PyStr.nl)]
       | None => []
       end)
      ltac:(destruct (run_cmd_log env args);
            [reflexivity|now rewrite with_events_nil]).
    run_step (run_cmd_command env args sh c)
      (if Legacy.with_hooks args
       then [EvHook true
               (if sh then c
                else match c with
                     | CmdList l => CmdList ("/usr/bin/env" :: l)
                     | CmdStr s => CmdStr ("/usr/bin/env " +:+ s)
                     end)]
       else [])
      ltac:(unfold run_cmd_command; destruct (Legacy.with_hooks args);
            [erewrite bind_Return by apply emit_eq;
             match goal with
             | |- context [pre_hook env ?x] =>
                 destruct (pre_hook env x) as [[s|l]|]
             end; reflexivity
            |now rewrite with_events_nil]).
    rewrite Hspawn.
    run_step tt
      [EvSpawn (run_cmd_command env args sh c) sh
         (if sh then Some "/bin/bash"
          else match c with
               | CmdList _ => None
               | CmdStr _ => Some "/bin/bash"
               end)]
      ltac:(reflexivity).
    run_step tt
      (if PyStr.opt_truthy (Legacy.inp args)
       then [EvStdin (default EmptyString (Legacy.inp args))] else [])
      ltac:(destruct (PyStr.opt_truthy (Legacy.inp args));
            [reflexivity|now rewrite with_events_nil]).
    rewrite Hasync. unfold ret, run_cmd_starts.
    rewrite <- ?app_assoc. reflexivity.
  - subst w1. unfold entered.
    destruct (PyStr.opt_truthy (Legacy.path args)
              && chdir_ok env (default EmptyString (Legacy.path args)));
      reflexivity.
  - intros proc ec foe size out w2 Hpoll [added Hadded] check. subst check.
    rewrite (check_async_cmd_finished_eq proc _ _ _ foe size out w2 ec added
               Hpoll Hadded).
    cbv zeta. destruct (chdir_ok env (w_cwd w)); [|exact I].
    match goal with
    | |- context [Legacy.parse_cmd_output ?a ?b ?c ?d ?e ?f ?g ?W] =>
        pose proof (parse_cmd_output_shape a b c d e f g W) as (_ & Hcwd & _);
        cbv zeta in Hcwd;
        destruct (Legacy.parse_cmd_output a b c d e f g W) as [[o|e'] w']
    end; cbn [fst snd] in *; [|exact I].
    split; [reflexivity|exact Hcwd].
Qed.
End RunCmdFacts.
End AsyncFacts.

Lemma rev_acc_app p t acc :
  PyStr.rev_acc (p +:+ t) acc = PyStr.rev_acc t (PyStr.rev_acc p acc).
Proof.
  revert acc. induction p as [|x p IH]; intros acc; [reflexivity|].
  change (String x p +:+ t) with (String x (p +:+ t)).
  cbn [PyStr.rev_acc]. apply IH.
Qed.

Lemma rev_acc_acc s acc :
  PyStr.rev_acc s acc = PyStr.rev_acc s EmptyString +:+ acc.
Proof.
  revert acc. induction s as [|x s IH]; intros acc; [reflexivity|].
  cbn [PyStr.rev_acc]. rewrite IH, (IH (String x EmptyString)).
  now rewrite append_assoc_str.
Qed.

(** [(p + t).endswith(t)] *)
Lemma endswith_app p t : PyStr.endswith (p +:+ t) t = true.
Proof.
  unfold PyStr.endswith, PyStr.rev.
  rewrite rev_acc_app, (rev_acc_acc t (PyStr.rev_acc p EmptyString)).
  apply prefix_append.
Qed.

Lemma endswith_nl_snoc a : PyStr.endswith (a +:+ PyStr.nl) PyStr.nl = true.
Proof. apply endswith_app. Qed.

Lemma newline_terminate_ends a_s :
  Forall (fun a => PyStr.endswith a PyStr.nl = true) (newline_terminate a_s).
Proof.
  unfold newline_terminate. apply Forall_map, Forall_forall. intros a _.
  destruct (PyStr.endswith a PyStr.nl) eqn:He; [exact He|].
  apply endswith_nl_snoc.
Qed.

Lemma newline_terminate_fixed a_s :
  Forall (fun a => PyStr.endswith a PyStr.nl = true) a_s ->
  newline_terminate a_s = a_s.
Proof.
  induction 1 as [|a l Ha Hl IH]; [reflexivity|].
  unfold newline_terminate in *. cbn [map]. now rewrite Ha, IH.
Qed.

Section LegacyQA.
Context `{PyLib}.
Variable env : Env.

(** X20: when [process_QA] returns, every answer ends in a newline: those
    that lacked one got it, the others are unchanged, so that a second
    pass would change nothing.  The expression returned ends in the
    whitespace tail and matches the question it was made of; the world is
    not touched. *)
Theorem process_QA_answers q a_s w answers regQ w' :
  Legacy.process_QA q a_s w = (Return (answers, regQ), w') ->
  w' = w
  /\ answers = map (fun a => if PyStr.endswith a PyStr.nl then a
                             else a +:+ PyStr.nl) a_s
  /\ Forall (fun a => PyStr.endswith a PyStr.nl = true) answers
  /\ newline_terminate answers = answers
  /\ is_Some (re_search ReStr regQ q)
  /\ PyStr.endswith regQ "[\s\n]*$" = true.
Proof.
  unfold Legacy.process_QA.
  destruct (re_compile_ok ReStr _); [|discriminate].
  destruct (re_search ReStr _ q) as [m|] eqn:Hm; [|discriminate].
  intros [= <- <- <-].
  split; [reflexivity|]. split; [reflexivity|].
  split; [apply newline_terminate_ends|].
  split; [apply newline_terminate_fixed, newline_terminate_ends|].
  split; [rewrite Hm; eauto|].
  change ("[\s\n]" +:+ "*$") with "[\s\n]*$". apply endswith_app.
Qed.
End LegacyQA.

Lemma is_special_backslash : is_special "\"%char = true.
Proof. reflexivity. Qed.

(** X21: [escape_special] is injective; it leaves a text without special
    characters as it is, and lengthens a text by one for each special
    character. *)
Theorem escape_special_injective s1 s2 :
  (escape_special s1 = escape_special s2 -> s1 = s2)
  /\ (count_special s1 = 0 -> escape_special s1 = s1)
  /\ String.length (escape_special s1) = String.length s1 + count_special s1.
Proof.
  split; [|split].
  - revert s2. induction s1 as [|a s1 IH]; intros [|b s2]; cbn [escape_special].
    + reflexivity.
    + destruct (is_special b); discriminate.
    + destruct (is_special a); discriminate.
    + destruct (is_special a) eqn:Ha, (is_special b) eqn:Hb.
      * intros [= -> He]. f_equal. now apply IH.
      * intros [= <- He]. rewrite is_special_backslash in Hb. discriminate.
      * intros [= -> He]. rewrite is_special_backslash in Ha. discriminate.
      * intros [= -> He]. f_equal. now apply IH.
  - induction s1 as [|a s1 IH]; [reflexivity|].
    cbn [count_special escape_special].
    destruct (is_special a); [discriminate|].
    cbn [Nat.add]. intros Hc. now rewrite IH.
  - induction s1 as [|a s1 IH]; [reflexivity|].
    cbn [count_special escape_special].
    destruct (is_special a); cbn [String.length]; rewrite IH; lia.
Qed.

Lemma split_char_lacks c s :
  Forall (lacks c) (PyStr.split_char c s).
Proof.
  induction s as [|a s IH]; cbn [PyStr.split_char].
  - repeat constructor.
  - destruct (Ascii.eqb a c) eqn:Hac.
    + constructor; [constructor|exact IH].
    + apply Ascii.eqb_neq in Hac.
      destruct (PyStr.split_char c s) as [|f fs]; [repeat constructor; auto|].
      apply Forall_cons in IH as [Hf Hfs].
      constructor; [|exact Hfs]. constructor; auto.
Qed.

Lemma split_char_nonempty c s : PyStr.split_char c s <> [].
Proof.
  destruct s as [|a s]; cbn [PyStr.split_char]; [discriminate|].
  destruct (Ascii.eqb a c); [discriminate|].
  destruct (PyStr.split_char c s); discriminate.
Qed.

Lemma split_char_no_sep c s :
  lacks c s -> PyStr.split_char c s = [s].
Proof.
  induction s as [|a s IH]; [reflexivity|].
  unfold lacks. cbn [list_ascii_of_string]. intros Hl.
  apply Forall_cons in Hl as [Ha Hl]. cbn [PyStr.split_char].
  apply Ascii.eqb_neq in Ha. rewrite Ha, IH by exact Hl. reflexivity.
Qed.

Lemma last_in {A} (l : list A) d : l <> [] -> List.last l d ∈ l.
Proof.
  induction l as [|x l IH]; [contradiction|]. intros _.
  destruct l as [|y l]; [cbn; set_solver|].
  change (List.last (x :: y :: l) d) with (List.last (y :: l) d).
  apply elem_of_cons. right. apply IH. discriminate.
Qed.

(** X22: the command name of a [RunShellCmdError] contains neither a slash
    nor a space; it is the whole command when the command contains neither.
    The message of the error is built from this name. *)
Theorem RunShellCmdError_cmd_name res caller :
  let e := RunShellCmdError_init res caller in
  lacks "/" (e_cmd_name e)
  /\ lacks " " (e_cmd_name e)
  /\ (lacks "/" (res_cmd res) -> lacks " " (res_cmd res) ->
      e_cmd_name e = res_cmd res)
  /\ e_msg e = "Shell command '" +:+ e_cmd_name e +:+ "' failed!".
Proof.
  intros e. subst e. cbn [RunShellCmdError_init e_cmd_name e_msg].
  set (word := List.hd EmptyString (PyStr.split_char " " (res_cmd res))).
  assert (Hword : lacks " " word).
  { subst word. pose proof (split_char_lacks " " (res_cmd res)) as Hall.
    destruct (PyStr.split_char " " (res_cmd res)) as [|f fs];
      [constructor|].
    now apply Forall_cons in Hall as [Hf _]. }
  assert (Hin : PyStr.basename word ∈ PyStr.split_char "/" word).
  { unfold PyStr.basename. apply last_in, split_char_nonempty. }
  split; [|split; [|split]].
  - pose proof (split_char_lacks "/" word) as Hall.
    rewrite Forall_forall in Hall. now apply Hall.
  - (* a field of a word without spaces has no space *)
    assert (Hsub : forall s, lacks " " s ->
                             Forall (lacks " ") (PyStr.split_char "/" s)).
    { clear. induction s as [|a s IH]; cbn [PyStr.split_char].
      - repeat constructor.
      - unfold lacks at 1. cbn [list_ascii_of_string]. intros Hl.
        apply Forall_cons in Hl as [Ha Hl]. specialize (IH Hl).
        destruct (Ascii.eqb a "/").
        + constructor; [constructor|exact IH].
        + destruct (PyStr.split_char "/" s) as [|f fs];
            [repeat constructor; auto|].
          apply Forall_cons in IH as [Hf Hfs].
          constructor; [|exact Hfs]. constructor; auto. }
    specialize (Hsub word Hword). rewrite Forall_forall in Hsub.
    now apply Hsub.
  - intros Hslash Hspace. subst word.
    rewrite (split_char_no_sep " " _ Hspace). cbn [List.hd].
    unfold PyStr.basename. rewrite (split_char_no_sep "/" _ Hslash).
    reflexivity.
  - reflexivity.
Qed.

Section RulesFacts.
Context `{PyLib}.



End RulesFacts.

Section SilentChild.
Context `{PyLib}.

Lemma answer_loop_no_output s d w :
  Legacy.answer_loop false s d w = (Return None, w).
Proof.
  induction d as [|[q a] rest IH]; [reflexivity|].
  cbn [Legacy.answer_loop].
  destruct (re_search ReStr q s); unfold bind; rewrite IH; reflexivity.
Qed.

Lemma silent_turn_output recv :
  silent_turn recv -> default EmptyString (ascii_ignore <$> recv) = EmptyString.
Proof.
  unfold silent_turn. destruct recv as [r|]; [|reflexivity].
  cbn. destruct (ascii_ignore r); [reflexivity|discriminate].
Qed.

(** A silent turn after the first one counts as unmatched, unless a
    [no_qa] pattern is found in the output read so far. *)
Lemma qa_cycle_silent child c cmd_log new_no_qa maxhits_ recv st w :
  silent_turn recv ->
  exists w1,
    Legacy.qa_cycle child c cmd_log new_no_qa maxhits_ recv st w
    = let len := Z.of_nat (String.length (Legacy.stdout_err st)) in
      let st' :=
        if Z.ltb (Legacy.old_len_out st) len
        then {| Legacy.stdout_err := Legacy.stdout_err st;
                Legacy.old_len_out := len;
                Legacy.hit_count := Legacy.hit_count st;
                Legacy.new_qa := Legacy.new_qa st;
                Legacy.new_std_qa := Legacy.new_std_qa st |}
        else {| Legacy.stdout_err := Legacy.stdout_err st;
                Legacy.old_len_out := Legacy.old_len_out st;
                Legacy.hit_count :=
                  if Legacy.noqa_found new_no_qa (Legacy.stdout_err st)
                  then Legacy.hit_count st
                  else (Legacy.hit_count st + 1)%Z;
                Legacy.new_qa := Legacy.new_qa st;
                Legacy.new_std_qa := Legacy.new_std_qa st |} in
      if Z.ltb maxhits_ (Legacy.hit_count st')
      then (Legacy.kill_child child ;;;
            raise (EasyBuildError
                     (Legacy.max_nohits_msg (Legacy.cmd_to_text c) maxhits_)))
             w1
      else (Return st', w1).
Proof.
  intros Hsilent. pose proof (silent_turn_output recv Hsilent) as Hout.
  unfold silent_turn in Hsilent. unfold Legacy.qa_cycle.
  rewrite Hsilent, Hout, append_nil_r_str.
  unfold bind at 1.
  destruct (match cmd_log with
            | Some f => match ascii_ignore <$> recv with
                        | Some o => emit (EvWriteFile f o)
                        | None => ret tt
                        end
            | None => ret tt
            end w) as [[[]|e] w1] eqn:Hlog.
  2:{ exfalso. destruct cmd_log, (ascii_ignore <$> recv); discriminate. }
  exists w1.
  unfold bind at 1. rewrite answer_loop_no_output.
  unfold bind at 1. unfold bind at 1. rewrite answer_loop_no_output.
  cbv zeta.
  destruct (Z.ltb (Legacy.old_len_out st) _); unfold ret at 1; cbn [fst snd];
    match goal with
    | |- context [Z.ltb maxhits_ ?h] => destruct (Z.ltb maxhits_ h)
    end; reflexivity.
Qed.

Lemma kill_child_raise child msg w :
  exists w1, (Legacy.kill_child child ;;; raise (A := Legacy.QaState)
                                            (EasyBuildError msg)) w
             = (Raise (EasyBuildError msg), w1).
Proof.
  unfold Legacy.kill_child, bind, when, emit, ret, raise.
  destruct (Legacy.killpg_ok child), (Legacy.kill_ok child); eexists;
    reflexivity.
Qed.

Lemma qa_loop_silent_count child c cmd_log new_no_qa maxhits_ rs st w :
  Forall silent_turn rs ->
  Legacy.noqa_found new_no_qa (Legacy.stdout_err st) = false ->
  Legacy.old_len_out st = Z.of_nat (String.length (Legacy.stdout_err st)) ->
  (Legacy.hit_count st <= maxhits_)%Z ->
  match (Legacy.qa_loop child c cmd_log new_no_qa maxhits_ rs st w).1 with
  | Return st' =>
      (Legacy.hit_count st + Z.of_nat (length rs) <= maxhits_)%Z
      /\ Legacy.hit_count st' = (Legacy.hit_count st + Z.of_nat (length rs))%Z
  | Raise e =>
      (maxhits_ < Legacy.hit_count st + Z.of_nat (length rs))%Z
      /\ exists msg, e = EasyBuildError msg
  end.
Proof.
  intros Hrs. revert st w.
  induction Hrs as [|recv rest Hrecv Hrest IH]; intros st w Hno Hlen Hh.
  - cbn. lia.
  - cbn [Legacy.qa_loop length].
    destruct (qa_cycle_silent child c cmd_log new_no_qa maxhits_ recv st w
                Hrecv) as [w1 Hcy].
    cbv zeta in Hcy. rewrite <- Hlen, Z.ltb_irrefl, Hno in Hcy.
    cbn [Legacy.hit_count] in Hcy.
    unfold bind at 1. rewrite Hcy.
    destruct (Z.ltb maxhits_ (Legacy.hit_count st + 1)) eqn:Hlt.
    + destruct (kill_child_raise child
                  (Legacy.max_nohits_msg (Legacy.cmd_to_text c) maxhits_) w1)
        as [w2 ->].
      cbn [fst]. apply Z.ltb_lt in Hlt. split; [lia|eauto].
    + apply Z.ltb_ge in Hlt.
      match goal with
      | |- context [Legacy.qa_loop _ _ _ _ _ rest ?s ?W] =>
          specialize (IH s W Hno Hlen Hlt)
      end.
      cbn [Legacy.hit_count] in IH.
      destruct (Legacy.qa_loop _ _ _ _ _ rest _ _) as [[st'|e] w2];
        cbn [fst] in *.
      * destruct IH as [IH1 IH2]. split; lia.
      * destruct IH as [IH1 IH2]. split; [lia|exact IH2].
Qed.

(** X24: a child of [run_cmd_qa] from which nothing is ever read, with
    [maxhits] not negative and no [no_qa] pattern that matches the empty
    output.  The first turn is not counted; each later one is a hit.  The
    loop gets through at most [maxhits + 1] silent turns without any action
    on the child, and gives up, with the error that names [maxhits], exactly
    when there are [maxhits + 2] or more.  Before that error it sends
    SIGKILL to the process group of the child and, only if that could be
    delivered, to the child; when the signal to the group fails nothing is
    sent, and the child is left as it is. *)
Theorem run_cmd_qa_silent_child child c cmd_log new_no_qa maxhits_ rs
    new_qa_ new_std_qa_ w :
  Forall silent_turn rs ->
  Legacy.noqa_found new_no_qa EmptyString = false ->
  (0 <= maxhits_)%Z ->
  let n := Z.of_nat (length rs) in
  match Legacy.qa_loop child c cmd_log new_no_qa maxhits_ rs
          (qa_start new_qa_ new_std_qa_) w with
  | (Return st, w') =>
      (n <= maxhits_ + 1)%Z
      /\ Legacy.hit_count st = Z.max 0 (n - 1)
      /\ proc_actions (w_trace w') = proc_actions (w_trace w)
  | (Raise e, w') =>
      (maxhits_ + 2 <= n)%Z
      /\ e = EasyBuildError
               (Legacy.max_nohits_msg (Legacy.cmd_to_text c) maxhits_)
      /\ proc_actions (w_trace w')
         = proc_actions (w_trace w)
           ++ (if Legacy.killpg_ok child
               then SentGroup SIGKILL
                    :: (if Legacy.kill_ok child then [Sent SIGKILL] else [])
               else [])
      /\ (Legacy.killpg_ok child = false ->
          proc_actions (w_trace w') = proc_actions (w_trace w))
  end.
Proof.
  intros Hrs Hno Hmax n.
  pose proof (qa_loop_post child c cmd_log new_no_qa maxhits_ rs
                (qa_start new_qa_ new_std_qa_) w) as Hpost.
  assert (Hcount :
            match (Legacy.qa_loop child c cmd_log new_no_qa maxhits_ rs
                     (qa_start new_qa_ new_std_qa_) w).1 with
            | Return st =>
                (n <= maxhits_ + 1)%Z /\ Legacy.hit_count st = Z.max 0 (n - 1)
            | Raise e => (maxhits_ + 2 <= n)%Z /\ exists msg, e = EasyBuildError msg
            end).
  { subst n. destruct Hrs as [|recv rest Hrecv Hrest].
    - cbn. lia.
    - cbn [Legacy.qa_loop length].
      destruct (qa_cycle_silent child c cmd_log new_no_qa maxhits_ recv
                  (qa_start new_qa_ new_std_qa_) w Hrecv) as [w1 Hcy].
      cbv zeta in Hcy. unfold qa_start in *.
      cbn [Legacy.stdout_err Legacy.old_len_out Legacy.hit_count] in Hcy.
      change (Z.of_nat (String.length EmptyString)) with 0%Z in Hcy.
      change (Z.ltb (-1) 0) with true in Hcy. cbv iota in Hcy.
      cbn [Legacy.hit_count] in Hcy.
      replace (Z.ltb maxhits_ 0) with false in Hcy
        by (symmetry; apply Z.ltb_ge; lia).
      unfold bind at 1. rewrite Hcy. cbv beta iota.
      match goal with
      | |- context [Legacy.qa_loop _ _ _ _ _ rest ?s ?W] =>
          pose proof (qa_loop_silent_count child c cmd_log new_no_qa maxhits_
                        rest s W Hrest Hno eq_refl Hmax) as Hc
      end.
      cbn [Legacy.hit_count] in Hc.
      destruct (Legacy.qa_loop _ _ _ _ _ rest _ _) as [[st'|e] w2];
        cbn [fst] in *.
      + destruct Hc as [Hc1 Hc2]. split; lia.
      + destruct Hc as [Hc1 Hc2]. split; [lia|exact Hc2]. }
  destruct (Legacy.qa_loop _ _ _ _ _ rs _ _) as [[st|e] w']; cbn [fst] in *.
  - destruct Hcount as [Hc1 Hc2]. split; [exact Hc1|]. split; [exact Hc2|].
    exact Hpost.
  - destruct Hcount as [Hc1 [msg ->]]. destruct Hpost as [-> Hkill].
    split; [exact Hc1|]. split; [reflexivity|]. split; [exact Hkill|].
    intros Hpg. rewrite Hkill. unfold kill_actions. rewrite Hpg.
    apply app_nil_r.
Qed.
End SilentChild.

Section StallBudget.
Context `{PyLib}.

Lemma answer_question_unmatched stdout ok qa qw w :
  patterns_compile (qa.*1) ->
  patterns_compile qw ->
  first_question stdout qa = None ->
  wait_matches stdout qw = false ->
  _answer_question stdout ok qa qw w = (Return false, w).
Proof.
  intros Hq Hw Hnone Hwait.
  rewrite answer_question_no_match by assumption.
  rewrite wait_patterns_loop_spec by assumption. now rewrite Hwait.
Qed.

(** X25: in the loop of [run_shell_cmd] with questions and without a
    timeout, every turn in which no question and no wait pattern matches
    adds the check interval to the time without a match, in floating-point
    arithmetic.  The loop gets through such turns exactly when after none
    of them the time so accumulated is greater than [qa_timeout]; otherwise
    it raises the no-match error in the first turn after which it is.  In
    both cases the world is left as it is: the process gets no input and no
    signal. *)
Theorem run_shell_cmd_stall_budget args child c proc cycles so se tnm w :
  timeout args = None ->
  qa_patterns args <> [] ->
  patterns_compile ((qa_patterns args).*1) ->
  patterns_compile (qa_wait_patterns args) ->
  Forall (fun s => first_question s (qa_patterns args) = None
                   /\ wait_matches s (qa_wait_patterns args) = false)
    (seen_stdouts cycles so) ->
  match output_loop args child c proc cycles (so, se, tnm) w with
  | (Return st, w') =>
      w' = w
      /\ st.2 = unmatched_time (length cycles) tnm
      /\ forall k, 1 <= k <= length cycles ->
           float_gt (unmatched_time k tnm) (qa_timeout args) = false
  | (Raise e, w') =>
      w' = w
      /\ e = EasyBuildError no_match_msg
      /\ exists k,
           1 <= k <= length cycles
           /\ float_gt (unmatched_time k tnm) (qa_timeout args) = true
           /\ forall j, 1 <= j < k ->
                float_gt (unmatched_time j tnm) (qa_timeout args) = false
  end.
Proof.
  intros Hto Hqa Hcq Hcw. revert so se tnm.
  induction cycles as [|cy rest IH]; intros so se tnm Hall.
  - cbn [output_loop ret length snd unmatched_time].
    split; [reflexivity|]. split; [reflexivity|]. intros k Hk. lia.
  - cbn [seen_stdouts] in Hall.
    apply Forall_cons in Hall as [[Hnone Hwait] Hall].
    cbn [output_loop length].
    unfold bind at 1. rewrite output_cycle_qa by assumption.
    unfold bind at 1 2.
    rewrite (answer_question_unmatched _ _ _ _ _ Hcq Hcw Hnone Hwait).
    destruct (float_gt (tnm + check_interval_secs) (qa_timeout args))
      eqn:Hgt.
    + cbn [raise fst snd].
      split; [reflexivity|]. split; [reflexivity|].
      exists 1. split; [lia|]. split; [exact Hgt|]. intros j Hj. lia.
    + cbn [ret fst snd].
      specialize (IH (drain (stdout_reads cy) so)
                    (if split_stderr args then drain (stderr_reads cy) se
                     else se)
                    (tnm + check_interval_secs)%float Hall).
      destruct (output_loop _ _ _ _ rest _ w) as [[st|e] w'].
      * destruct IH as (-> & IH1 & IH2).
        split; [reflexivity|]. split; [exact IH1|].
        intros [|[|k]] Hk; [lia|exact Hgt|].
        apply (IH2 (S k)). lia.
      * destruct IH as (-> & -> & k & Hk & Hover & Hbefore).
        split; [reflexivity|]. split; [reflexivity|].
        exists (S k). split; [lia|]. split; [exact Hover|].
        intros [|[|j]] Hj; [lia|exact Hgt|].
        apply (Hbefore (S j)). lia.
Qed.
End StallBudget.

Section TraceGrows.
Variable P : Event -> Prop.

Lemma trace_grows_refl w : trace_grows P w w.
Proof. exists []. split; [now rewrite app_nil_r|constructor]. Qed.

Lemma trace_grows_trans w1 w2 w3 :
  trace_grows P w1 w2 -> trace_grows P w2 w3 -> trace_grows P w1 w3.
Proof.
  intros (evs & Ht & HP) (evs' & Ht' & HP').
  exists (evs ++ evs'). split; [rewrite Ht', Ht; now rewrite app_assoc|].
  apply Forall_app. auto.
Qed.

Lemma trace_grows_emit e w : P e -> trace_grows P w (with_events w [e]).
Proof.
  intros He. exists [e]. split; [reflexivity|].
  constructor; [exact He|constructor].
Qed.
End TraceGrows.

(** Closes the goals that remain after [frames_step] when the relation is
    [trace_grows before_start]. *)
Ltac not_started :=
  repeat first
    [ solve [auto 2]
    | frames_step (trace_grows_refl before_start)
        (trace_grows_trans before_start)
    | apply (frames_raise _ _ (trace_grows_refl before_start)); exact I
    | apply frames_emit; intros; apply trace_grows_emit; exact I
    | progress intros ].

Section RejectedAnswers.
Context `{PyLib}.
Variable env : Env.

Lemma chdir_not_started p :
  frames (trace_grows before_start) any_exc (chdir env p).
Proof.
  unfold chdir. destruct (chdir_ok env p); [|not_started].
  apply (frames_bind _ _ (trace_grows_trans before_start)); [|not_started].
  intros w. split; [|discriminate].
  exists [EvChdir p]. split; [reflexivity|].
  constructor; [exact I|constructor].
Qed.

Lemma check_answers_list_pure answers w :
  (Legacy.check_answers_list answers w).2 = w.
Proof. destruct answers; reflexivity. Qed.

Lemma process_QA_pure q a_s w : (Legacy.process_QA q a_s w).2 = w.
Proof.
  unfold Legacy.process_QA. destruct (re_compile_ok ReStr _); [|reflexivity].
  destruct (re_search ReStr _ q); reflexivity.
Qed.

Lemma build_new_qa_pure qa_ acc w : (Legacy.build_new_qa qa_ acc w).2 = w.
Proof.
  revert acc. induction qa_ as [|[q a] rest IH]; intros acc; [reflexivity|].
  cbn [Legacy.build_new_qa]. unfold bind.
  pose proof (check_answers_list_pure a w) as Hc.
  destruct (Legacy.check_answers_list a w) as [[l|e] w1]; cbn [snd] in *;
    subst w1; [|reflexivity].
  pose proof (process_QA_pure q l w) as Hp.
  destruct (Legacy.process_QA q l w) as [[r|e] w1]; cbn [snd] in *;
    subst w1; [apply IH|reflexivity].
Qed.

Lemma build_new_std_qa_pure std_qa_ acc w :
  (Legacy.build_new_std_qa std_qa_ acc w).2 = w.
Proof.
  revert acc. induction std_qa_ as [|[q a] rest IH]; intros acc;
    [reflexivity|].
  cbn [Legacy.build_new_std_qa].
  destruct (re_compile_ok ReStr _); [|reflexivity]. unfold bind.
  pose proof (check_answers_list_pure a w) as Hc.
  destruct (Legacy.check_answers_list a w) as [[l|e] w1]; cbn [snd] in *;
    subst w1; [apply IH|reflexivity].
Qed.

(** A value that is neither a str nor a list among the answers is
    refused. *)
Lemma build_new_qa_rejects qa_ acc w q :
  (q, ArgOther) ∈ qa_ ->
  exists e, (Legacy.build_new_qa qa_ acc w).1 = Raise e.
Proof.
  revert acc. induction qa_ as [|[q' a] rest IH]; intros acc Hin.
  - apply elem_of_nil in Hin. contradiction.
  - cbn [Legacy.build_new_qa]. unfold bind.
    apply elem_of_cons in Hin as [Heq|Hin].
    + injection Heq as <- <-. eexists. reflexivity.
    + pose proof (check_answers_list_pure a w) as Hc.
      destruct (Legacy.check_answers_list a w) as [[l|e] w1]; cbn [snd] in *;
        subst w1; [|eexists; reflexivity].
      pose proof (process_QA_pure q' l w) as Hp.
      destruct (Legacy.process_QA q' l w) as [[r|e] w1]; cbn [snd] in *;
        subst w1; [now apply IH|eexists; reflexivity].
Qed.

Lemma build_new_std_qa_rejects std_qa_ acc w q :
  (q, ArgOther) ∈ std_qa_ ->
  exists e, (Legacy.build_new_std_qa std_qa_ acc w).1 = Raise e.
Proof.
  revert acc. induction std_qa_ as [|[q' a] rest IH]; intros acc Hin.
  - apply elem_of_nil in Hin. contradiction.
  - cbn [Legacy.build_new_std_qa].
    destruct (re_compile_ok ReStr _); [|eexists; reflexivity]. unfold bind.
    apply elem_of_cons in Hin as [Heq|Hin].
    + injection Heq as <- <-. eexists. reflexivity.
    + pose proof (check_answers_list_pure a w) as Hc.
      destruct (Legacy.check_answers_list a w) as [[l|e] w1]; cbn [snd] in *;
        subst w1; [now apply IH|eexists; reflexivity].
Qed.

(** X26: outside dry run, [run_cmd_qa] with an answer in [qa] or [std_qa]
    that is neither a str nor a list raises; up to the error it has
    started no process, run no hook and sent no input. *)
Theorem run_cmd_qa_rejects_answers child c args w q :
  opt_extended_dry_run env = false ->
  (q, ArgOther) ∈ Legacy.qa args \/ (q, ArgOther) ∈ Legacy.std_qa args ->
  match Legacy.run_cmd_qa env child c args w with
  | (Return _, _) => False
  | (Raise e, w') => trace_grows before_start w w'
  end.
Proof.
  intros Hdry Hbad.
  set (P := fun (o : Outcome CmdOutput) (w' : World) =>
              match o with
              | Return _ => False
              | Raise e => trace_grows before_start w w'
              end).
  enough (Hpost : post (Legacy.run_cmd_qa env child c args) P w).
  { unfold post in Hpost.
    destruct (Legacy.run_cmd_qa env child c args w) as [[o|e] w'];
      exact Hpost. }
  assert (HP : forall e w1, trace_grows before_start w w1 -> any_exc e ->
                            P (Raise e) w1) by (intros; assumption).
  pose proof chdir_not_started as Hchdir.
  unfold Legacy.run_cmd_qa.
  eapply post_bind_Return; [reflexivity|].
  eapply (post_bind_framed (trace_grows before_start) any_exc);
    [not_started| |exact HP].
  intros _ w1 Hw1.
  eapply (post_bind_framed (trace_grows before_start) any_exc).
  { unfold Legacy.open_cmd_log. not_started. }
  2:{ intros e w2 Hw2 _. apply HP; [|exact I].
      eapply trace_grows_trans; eassumption. }
  intros cmd_log w2 Hw2.
  assert (Hw02 : trace_grows before_start w w2)
    by (eapply trace_grows_trans; eassumption).
  eapply (post_bind_framed (trace_grows before_start) any_exc);
    [not_started| |].
  2:{ intros e w3 Hw3 _. apply HP; [|exact I].
      eapply trace_grows_trans; eassumption. }
  intros _ w3 Hw3.
  assert (Hw03 : trace_grows before_start w w3)
    by (eapply trace_grows_trans; eassumption).
  rewrite Hdry.
  eapply (post_bind_framed (trace_grows before_start) any_exc).
  { unfold Legacy.try_chdir. not_started. }
  2:{ intros e w4 Hw4 _. apply HP; [|exact I].
      eapply trace_grows_trans; eassumption. }
  intros _ w4 Hw4.
  assert (Hw04 : trace_grows before_start w w4)
    by (eapply trace_grows_trans; eassumption).
  apply post_bind_cases.
  2:{ intros e w5 Hrun. pose proof (build_new_qa_pure (Legacy.qa args) [] w4)
        as Hpure. rewrite Hrun in Hpure. cbn [snd] in Hpure. subst w5.
      exact Hw04. }
  intros new_qa_ w5 Hqa.
  pose proof (build_new_qa_pure (Legacy.qa args) [] w4) as Hpure.
  rewrite Hqa in Hpure. cbn [snd] in Hpure. subst w5.
  destruct Hbad as [Hbad|Hbad].
  { destruct (build_new_qa_rejects (Legacy.qa args) [] w4 q Hbad) as [e He].
    rewrite Hqa in He. discriminate. }
  apply post_bind_cases.
  2:{ intros e w5 Hrun.
      pose proof (build_new_std_qa_pure (Legacy.std_qa args) [] w4) as Hpure.
      rewrite Hrun in Hpure. cbn [snd] in Hpure. subst w5. exact Hw04. }
  intros new_std_qa_ w5 Hstd.
  destruct (build_new_std_qa_rejects (Legacy.std_qa args) [] w4 q Hbad)
    as [e He].
  rewrite Hstd in He. discriminate.
Qed.
End RejectedAnswers.

(** A seeded entry for [ulimit -u] is served without a run. *)
Lemma run_cmd_cache_seeded_witness :
  Fixtures.ulimit_cache
    !! ("ulimit -u", key_input stdin (fun _ => None) Fixtures.plain_args)
  = Some Fixtures.ulimit_result
  /\ cache_aware_func
       (run_shell_cmd (H := Literal.lib) Fixtures.env0 Fixtures.child_ulimit
          [frame_cache_aware_func; Fixtures.caller])
       stdin (fun _ => None) (update_cache ∅ Fixtures.ulimit_cache)
       (CmdStr "ulimit -u") Fixtures.plain_args Fixtures.w0
     = (Return Fixtures.ulimit_result, Fixtures.w0,
        update_cache ∅ Fixtures.ulimit_cache).
Proof.
  assert (Hnew : Fixtures.ulimit_cache
                   !! ("ulimit -u",
                       key_input stdin (fun _ => None) Fixtures.plain_args)
                 = Some Fixtures.ulimit_result)
    by (vm_cast_no_check (eq_refl (Some Fixtures.ulimit_result))).
  split; [exact Hnew|].
  exact (proj1 (proj2
           (run_cmd_cache_seeded
              (run_shell_cmd (H := Literal.lib) Fixtures.env0
                 Fixtures.child_ulimit
                 [frame_cache_aware_func; Fixtures.caller])
              stdin (fun _ => None) ∅ Fixtures.ulimit_cache "ulimit -u"
              Fixtures.plain_args Fixtures.w0 Fixtures.ulimit_result Hnew))).
Defined.

(** Two turns: [c] comes after an empty read and is not read. *)
Lemma output_loop_reads_in_order_witness :
  output_loop (H := Literal.lib) Fixtures.plain_args Fixtures.child_ulimit
    (CmdStr "make") Fixtures.fresh_proc Samples.two_turns
    (EmptyString, EmptyString, 0%float) Fixtures.w0
  = (Return ("abd", EmptyString, 0%float), Fixtures.w0).
Proof.
  exact (proj1 (output_loop_reads_in_order (H := Literal.lib)
                  Fixtures.plain_args Fixtures.child_ulimit (CmdStr "make")
                  Fixtures.fresh_proc Samples.two_turns EmptyString
                  EmptyString 0%float Fixtures.w0 eq_refl
                  ltac:(repeat constructor))).
Defined.

(** [ulimit -u] run plainly: the result and the events. *)
Lemma run_shell_cmd_result_witness :
  exists msg,
    run_shell_cmd (H := Literal.lib) Fixtures.env0 Fixtures.child_ulimit
      [frame_cache_aware_func; Fixtures.caller] (CmdStr "ulimit -u")
      Fixtures.plain_args Fixtures.w0
    = (Return (run_result Fixtures.env0 Fixtures.child_ulimit
                 (CmdStr "ulimit -u") Fixtures.plain_args Fixtures.w0),
       with_events Fixtures.w0
         (start_events Fixtures.env0 (CmdStr "ulimit -u") Fixtures.plain_args
            msg
          ++ [EvHook false (CmdStr "ulimit -u");
              EvTraceMsg "command completed"])).
Proof.
  destruct (run_shell_cmd_result (H := Literal.lib) Fixtures.env0
              Fixtures.child_ulimit [frame_cache_aware_func; Fixtures.caller]
              (CmdStr "ulimit -u") Fixtures.plain_args Fixtures.w0
              eq_refl eq_refl eq_refl I
              (fun fp _ => match fp with Some _ => eq_refl | None => eq_refl end))
    as [msg Hrun].
  exists msg. exact Hrun.
Defined.

(** A child that needs ten seconds under a timeout of five: it is sent
    SIGTERM, then SIGKILL, and the timeout is reported. *)
Lemma run_shell_cmd_timeout_witness :
  exists msg,
    run_shell_cmd (H := Literal.lib) Fixtures.env0 Samples.child_slow
      [frame_cache_aware_func; Fixtures.caller] (CmdStr "make")
      Samples.timed_args Fixtures.w0
    = (Raise (EasyBuildError (timeout_msg "make")),
       with_events Fixtures.w0
         (start_events Fixtures.env0 (CmdStr "make") Samples.timed_args msg
          ++ map EvProc [Sent SIGTERM; Waited 20%Q; Sent SIGKILL; Waited 20%Q])).
Proof.
  destruct (run_shell_cmd_timeout (H := Literal.lib) Fixtures.env0
              Samples.child_slow [frame_cache_aware_func; Fixtures.caller]
              (CmdStr "make") Samples.timed_args Fixtures.w0 5%Q
              eq_refl eq_refl eq_refl eq_refl eq_refl eq_refl)
    as [msg Hrun].
  exists msg. exact Hrun.
Defined.

(** [make] fails with exit code 2 under [log_ok]. *)
Lemma parse_cmd_output_exit_code_witness :
  Legacy.parse_cmd_output (H := Literal.lib) (CmdStr "make") "boom" 2 false
    false true (RegexpBool false) Fixtures.w0
  = (Raise (EasyBuildError (Legacy.exit_msg "make" 2 "boom")), Fixtures.w0).
Proof.
  apply (parse_cmd_output_exit_code (H := Literal.lib) (CmdStr "make") "boom"
           2 false false true (RegexpBool false) Fixtures.w0);
    [discriminate|reflexivity|discriminate].
Defined.

(** A check of a running process reads up to seven bytes. *)
Lemma check_async_cmd_running_witness :
  Async.check_async_cmd (H := Literal.lib) Fixtures.env0 Samples.proc_running
    (CmdStr "make") "/home/user" None true (SizeInt 7) "out: " Fixtures.w0
  = (Return {| chk_done := false; chk_exit_code := None;
               chk_output := "out: partial " |}, Fixtures.w0).
Proof.
  exact (check_async_cmd_running (H := Literal.lib) Fixtures.env0
           Samples.proc_running (CmdStr "make") "/home/user" None true
           (SizeInt 7) "out: " Fixtures.w0 eq_refl).
Defined.

(** A check of a process that has exited completes the command. *)
Lemma check_async_cmd_finished_witness :
  exists r,
    (Async.check_async_cmd (H := Literal.lib) Fixtures.env0
       Samples.proc_exited (CmdStr "make") "/home/user" None false
       (SizeInt 7) "out: " Fixtures.w0).1 = Return r.
Proof.
  exact (proj2 (check_async_cmd_finished (H := Literal.lib) Fixtures.env0
                  Samples.proc_exited (CmdStr "make") "/home/user" None false
                  (SizeInt 7) "out: " Fixtures.w0 0 "partial " eq_refl eq_refl)
           eq_refl ltac:(discriminate) eq_refl eq_refl).
Defined.

(** A list without [shell]: the error comes before anything is done. *)
Lemma run_cmd_not_started_witness :
  exists msg,
    Legacy.run_cmd (H := Literal.lib) Fixtures.env0 Fixtures.legacy_child
      (CmdList ["ls"; "-l"]) Fixtures.in_build_dir Fixtures.w0
    = (Raise (EasyBuildError msg), Fixtures.w0).
Proof.
  exact (proj1 (run_cmd_not_started (H := Literal.lib) Fixtures.env0
                  Fixtures.legacy_child (CmdList ["ls"; "-l"])
                  Fixtures.in_build_dir Fixtures.w0 eq_refl)
           eq_refl).
Defined.

(** [make] started in [/build] without waiting: the directory is left
    at [/build]. *)
Lemma run_cmd_asynchronous_witness :
  (Legacy.run_cmd (H := Literal.lib) Fixtures.env0 Fixtures.legacy_child
     (CmdStr "make") Samples.async_args Fixtures.w0).1
  = Return (Legacy.Started (CmdStr "make") "/home/user" None)
  /\ w_cwd (Legacy.run_cmd (H := Literal.lib) Fixtures.env0
              Fixtures.legacy_child (CmdStr "make") Samples.async_args
              Fixtures.w0).2
     = "/build".
Proof.
  pose proof (run_cmd_asynchronous (H := Literal.lib) Fixtures.env0
                Fixtures.legacy_child (CmdStr "make") Samples.async_args
                Fixtures.w0 true eq_refl eq_refl eq_refl eq_refl eq_refl)
    as (Hrun & Hcwd & _).
  cbv zeta in Hrun, Hcwd. rewrite Hrun. cbn [fst snd]. split; [reflexivity|].
  exact Hcwd.
Defined.

(** The answers to [Proceed] get their newline. *)
Lemma process_QA_answers_witness :
  Legacy.process_QA (H := Literal.lib) "Proceed" ["y"; "n" +:+ PyStr.nl]
    Fixtures.w0
  = (Return (["y" +:+ PyStr.nl; "n" +:+ PyStr.nl], "Proceed[\s\n]*$"),
     Fixtures.w0)
  /\ is_Some (re_search (PyLib := Literal.lib) ReStr "Proceed[\s\n]*$"
                "Proceed").
Proof.
  assert (Hrun : Legacy.process_QA (H := Literal.lib) "Proceed"
                   ["y"; "n" +:+ PyStr.nl] Fixtures.w0
                 = (Return (["y" +:+ PyStr.nl; "n" +:+ PyStr.nl],
                            "Proceed[\s\n]*$"), Fixtures.w0))
    by (vm_compute; reflexivity).
  split; [exact Hrun|].
  exact (proj1 (proj2 (proj2 (proj2 (proj2
           (process_QA_answers (H := Literal.lib) "Proceed"
              ["y"; "n" +:+ PyStr.nl] Fixtures.w0
              ["y" +:+ PyStr.nl; "n" +:+ PyStr.nl] "Proceed[\s\n]*$"
              Fixtures.w0 Hrun)))))).
Defined.

(** With [maxhits] 1, [run_cmd_qa] gives up on a child that is silent for
    three turns; the child leads no process group, and gets no signal. *)
Lemma run_cmd_qa_silent_child_witness :
  (Legacy.qa_loop (H := Literal.lib)
     (Samples.qa_child_no_group [None; None; None])
     (CmdStr "install.sh") None [] 1 [None; None; None] (qa_start [] [])
     Fixtures.w0).1
  = Raise (EasyBuildError (Legacy.max_nohits_msg "install.sh" 1))
  /\ proc_actions
       (w_trace
          (Legacy.qa_loop (H := Literal.lib)
             (Samples.qa_child_no_group [None; None; None])
             (CmdStr "install.sh") None [] 1 [None; None; None]
             (qa_start [] []) Fixtures.w0).2)
     = proc_actions (w_trace Fixtures.w0).
Proof.
  pose proof (run_cmd_qa_silent_child (H := Literal.lib)
                (Samples.qa_child_no_group [None; None; None])
                (CmdStr "install.sh")
                None [] 1 [None; None; None] [] [] Fixtures.w0
                ltac:(repeat constructor) eq_refl ltac:(discriminate))
    as Hthm.
  cbv zeta in Hthm.
  destruct (Legacy.qa_loop _ _ _ _ _ _ _ _) as [[st|e] w'].
  - destruct Hthm as [Hle _]. exfalso. apply Hle. reflexivity.
  - destruct Hthm as (_ & -> & _ & Hnone). split; [reflexivity|].
    exact (Hnone eq_refl).
Defined.

(** Three turns without a match under a budget of three tenths of a
    second: the sum of three times [0.1] is greater than [0.3], and the
    third turn raises. *)
Lemma run_shell_cmd_stall_budget_witness :
  (output_loop (H := Literal.lib)
     (Fixtures.qa_args [("Proceed", AnsStr "y")] (3 # 10))
     (Fixtures.child_asking "Configure?" 2) (CmdStr "install.sh")
     Fixtures.fresh_proc
     [Fixtures.quiet [ReadData "Configure?"]; Fixtures.quiet [];
      Fixtures.quiet []]
     (EmptyString, EmptyString, 0%float) Fixtures.w0).1
  = Raise (EasyBuildError no_match_msg)
  /\ float_gt (unmatched_time 2 0) (3 # 10) = false
  /\ float_gt (unmatched_time 3 0) (3 # 10) = true.
Proof.
  assert (Hthird : float_gt (unmatched_time 3 0) (3 # 10) = true)
    by reflexivity.
  split; [|split; [reflexivity|exact Hthird]].
  pose proof (run_shell_cmd_stall_budget (H := Literal.lib)
                (Fixtures.qa_args [("Proceed", AnsStr "y")] (3 # 10))
                (Fixtures.child_asking "Configure?" 2) (CmdStr "install.sh")
                Fixtures.fresh_proc
                [Fixtures.quiet [ReadData "Configure?"]; Fixtures.quiet [];
                 Fixtures.quiet []]
                EmptyString EmptyString 0%float Fixtures.w0
                eq_refl ltac:(discriminate)
                ltac:(repeat constructor) ltac:(constructor)
                ltac:(repeat constructor)) as Hthm.
  destruct (output_loop _ _ _ _ _ _ _) as [[st|e] w'].
  - destruct Hthm as (_ & _ & Hall).
    specialize (Hall 3 ltac:(cbn [length]; lia)).
    change (float_gt (unmatched_time 3 0) (3 # 10) = false) in Hall.
    rewrite Hthird in Hall. discriminate.
  - destruct Hthm as (_ & -> & _). reflexivity.
Defined.

(** An answer that is a number: [run_cmd_qa] raises before it starts
    anything. *)
Lemma run_cmd_qa_rejects_answers_witness :
  match Legacy.run_cmd_qa (H := Literal.lib) Fixtures.env0
          (Fixtures.qa_child []) (CmdStr "install.sh")
          (Fixtures.run_cmd_qa_args [("Proceed", ArgOther)] 1 None)
          Fixtures.w0 with
  | (Return _, _) => False
  | (Raise e, w') => trace_grows before_start Fixtures.w0 w'
  end.
Proof.
  apply (run_cmd_qa_rejects_answers (H := Literal.lib) Fixtures.env0
           (Fixtures.qa_child []) (CmdStr "install.sh")
           (Fixtures.run_cmd_qa_args [("Proceed", ArgOther)] 1 None)
           Fixtures.w0 "Proceed" eq_refl).
  left. constructor.
Defined.
